(** * ddspsynth: spectral loss, loudness and generators

    A shallow embedding of [ddspsynth/spectral.py] ([MelSpec], [Mfcc],
    [spectrogram], [MultiscaleFFT], [compute_loudness], [compute_f0],
    [SpectralLoss], [loudness_loss]) and of the five generators of
    [ddspsynth/modules/generators.py], with the properties that the
    specification states of them and further properties of the code.

    - Tensors are nested lists, outermost axis first.
    - The element type of a tensor is a parameter (class [Scalar]) with two
      instances: exact rational arithmetic ([Qc]: every finite float is a
      rational, and the operations are taken without rounding) and IEEE
      binary64 ([float]), used where NaN, signed zeros or the exact result
      of a Python [float] computation matter.
    - Python-level scalar computations ([int(...)], [/], [//], [%]) are
      modelled with their exceptions in the [result] monad.
    - [torch.stft], [torch.log], [torch.sqrt], [torch.log10],
      [torch.hann_window], the stream behind [torch.rand], librosa's
      A-weighting table, torchaudio's [MelScale] and [create_dct] and
      [crepe.predict] are parameters of the sections that use them.
    - [ddspsynth.util] is not among the sources: its element-wise helpers
      are modelled from the specification, its synthesis routines are the
      operations of an interface ([Synth]). *)

From Stdlib Require Import String ZArith QArith Qcanon Bool Lia Floats Uint63 List.
Import ListNotations.

Close Scope Qc_scope.
Close Scope Q_scope.

Set Implicit Arguments.

(** ** Python exceptions and the result monad *)

Inductive exn : Set :=
| TypeError
| ZeroDivisionError
| ValueError
| OverflowError
| IndexError
| RuntimeError.

Inductive result (A : Type) : Type :=
| Ok (a : A)
| Raise (e : exn).

Arguments Ok {A} a.
Arguments Raise {A} e.

Definition bind {A B : Type} (c : result A) (k : A -> result B) : result B :=
  match c with
  | Ok a => k a
  | Raise e => Raise e
  end.

Notation "x <- c ;; k" := (bind c (fun x => k))
  (right associativity, at level 61, c at next level).

Definition is_ok {A : Type} (c : result A) : bool :=
  match c with Ok _ => true | Raise _ => false end.

Fixpoint mapM {A B : Type} (f : A -> result B) (l : list A) : result (list B) :=
  match l with
  | [] => Ok []
  | a :: l' => b <- f a ;; bs <- mapM f l' ;; Ok (b :: bs)
  end.

(** ** Failures beyond the exceptions of [exn]

    A function that returns a local which not every branch assigns raises
    [UnboundLocalError] when none did. The functions that can end this way
    return an [outcome]. *)

Inductive failure : Set :=
| Exception (e : exn)
| UnboundLocalError.

Inductive outcome (A : Type) : Type :=
| Returns (a : A)
| Fails (e : failure).

Arguments Returns {A} a.
Arguments Fails {A} e.

Definition lift {A : Type} (c : result A) : outcome A :=
  match c with
  | Ok a => Returns a
  | Raise e => Fails (Exception e)
  end.

Definition obind {A B : Type} (c : outcome A) (k : A -> outcome B) : outcome B :=
  match c with
  | Returns a => k a
  | Fails e => Fails e
  end.

Notation "x <~ c ;; k" := (obind c (fun x => k))
  (right associativity, at level 61, c at next level).

(** ** Python floats (IEEE binary64) *)

Module PyFloat.

(** [float(z)] for a Python int in the range of the kernel's 63-bit
    integers (correctly rounded by [of_uint63]). *)
Definition of_Z (z : Z) : float :=
  if (z <? 0)%Z
  then PrimFloat.opp (PrimFloat.of_uint63 (Uint63.of_Z (- z)))
  else PrimFloat.of_uint63 (Uint63.of_Z z).

(** Truncation toward zero of a finite float. *)
Definition trunc (x : float) : Z :=
  match Prim2SF x with
  | S754_finite s m e =>
      let v := if (0 <=? e)%Z
               then (Z.pos m * 2 ^ e)%Z
               else (Z.pos m / 2 ^ (- e))%Z in
      if s then (- v)%Z else v
  | _ => 0%Z
  end.

(** [int(x)]: ValueError on NaN, OverflowError on an infinity. *)
Definition int (x : float) : result Z :=
  if PrimFloat.is_nan x then Raise ValueError
  else if PrimFloat.is_infinity x then Raise OverflowError
  else Ok (trunc x).

(** [a / b] on Python floats raises on a zero divisor. *)
Definition truediv (a b : float) : result float :=
  if PrimFloat.is_zero b then Raise ZeroDivisionError
  else Ok (PrimFloat.div a b).

(** [a // b] on Python ints. *)
Definition floordiv (a b : Z) : result Z :=
  if (b =? 0)%Z then Raise ZeroDivisionError else Ok (a / b)%Z.

End PyFloat.

(** ** The numeric substrate

    The element-wise operations of the tensor library, as the code uses
    them. *)

Class Scalar (T : Type) : Type := {
  s_of_Z : Z -> T;
  s_add : T -> T -> T;
  s_sub : T -> T -> T;
  s_mul : T -> T -> T;
  s_div : T -> T -> T;
  s_opp : T -> T;
  s_abs : T -> T;
  s_ltb : T -> T -> bool;
  s_leb : T -> T -> bool
}.

Definition Qcltb (x y : Qc) : bool :=
  match (x ?= y)%Qc with Lt => true | _ => false end.

Definition Qcleb (x y : Qc) : bool :=
  match (x ?= y)%Qc with Gt => false | _ => true end.

Definition Qcabs (x : Qc) : Qc := if Qcltb x 0%Qc then (- x)%Qc else x.

#[export] Instance Qc_Scalar : Scalar Qc := {
  s_of_Z := fun z => Q2Qc (inject_Z z);
  s_add := Qcplus;
  s_sub := Qcminus;
  s_mul := Qcmult;
  s_div := Qcdiv;
  s_opp := Qcopp;
  s_abs := Qcabs;
  s_ltb := Qcltb;
  s_leb := Qcleb
}.

#[export] Instance float_Scalar : Scalar float := {
  s_of_Z := PyFloat.of_Z;
  s_add := PrimFloat.add;
  s_sub := PrimFloat.sub;
  s_mul := PrimFloat.mul;
  s_div := PrimFloat.div;
  s_opp := PrimFloat.opp;
  s_abs := PrimFloat.abs;
  s_ltb := PrimFloat.ltb;
  s_leb := PrimFloat.leb
}.

Section Tensors.

Context {T : Type} `{Scalar T}.

Definition zero : T := s_of_Z 0.
Definition one : T := s_of_Z 1.

(** A decimal literal [n/d], e.g. [lit 1 2] for [0.5]. *)
Definition lit (n d : Z) : T := s_div (s_of_Z n) (s_of_Z d).

(** [torch.sum] over one axis; the additions are taken from left to right. *)
Definition tsum (l : list T) : T := fold_left s_add l zero.

(** [torch.mean] over one axis. *)
Definition tmean (l : list T) : T :=
  s_div (tsum l) (s_of_Z (Z.of_nat (length l))).

(** [torch.clamp(x, min=m)]. *)
Definition clamp_min (m x : T) : T := if s_ltb x m then m else x.

Fixpoint map2 {A B C : Type} (f : A -> B -> C) (a : list A) (b : list B) : list C :=
  match a, b with
  | x :: a', y :: b' => f x y :: map2 f a' b'
  | _, _ => []
  end.

(** Axis 0 and axis 1 of a matrix swapped; the number of columns is that of
    the first row. *)
Definition transpose (m : list (list T)) : list (list T) :=
  match m with
  | [] => []
  | r :: _ => map (fun j => map (fun row => nth j row zero) m) (seq 0 (length r))
  end.

End Tensors.

Definition tensor1 (T : Type) := list T.
Definition tensor2 (T : Type) := list (list T).
Definition tensor3 (T : Type) := list (list (list T)).

(** The elements of a tensor in row-major order. *)
Definition flatten2 {T : Type} (x : tensor2 T) : list T := concat x.
Definition flatten3 {T : Type} (x : tensor3 T) : list T := concat (map (@concat T) x).

(** A tensor argument whose rank the code inspects at run time. *)
Inductive tensor (T : Type) : Type :=
| Rank1 (t : tensor1 T)
| Rank2 (t : tensor2 T)
| Rank3 (t : tensor3 T).

Arguments Rank1 {T} t.
Arguments Rank2 {T} t.
Arguments Rank3 {T} t.

(** [len(x.shape)] *)
Definition ndim {T : Type} (x : tensor T) : nat :=
  match x with Rank1 _ => 1 | Rank2 _ => 2 | Rank3 _ => 3 end.

(** [x.shape[-1]] of a rank-3 tensor with at least one frame. *)
Definition last_dim {T : Type} (x : tensor3 T) : nat :=
  match x with
  | (fr :: _) :: _ => length fr
  | _ => 0
  end.

(** * ddspsynth.util

    The module is imported by both source files but is not among them; the
    functions below follow its description in the specification. *)

Module util.
Section Util.

Context {T : Type} `{Scalar T}.

(** Modelled from the spec: [util.pad_or_trim_to_expected_length] is
    missing from the sources. "Deterministic fix-up so length exactly
    equals expected_len - truncates excess or right-pads with pad_value." *)
Definition pad_or_trim_to_expected_length
    (x : list T) (expected_len : nat) (pad_value : T) : list T :=
  firstn expected_len x ++ repeat pad_value (expected_len - length x).

(** [torch.linspace(1, n, n)]: the harmonic numbers 1, 2, ..., n. *)
Definition harmonic_numbers (n : nat) : list T :=
  map (fun k => s_of_Z (Z.of_nat k)) (seq 1 n).

(** Modelled from the spec: [util.get_harmonic_frequencies] is missing from
    the sources. "Returns f0 x {1,2,...,n_harmonics} per frame." A frame of
    [f0] holds one channel, broadcast against the harmonic numbers. *)
Definition get_harmonic_frequencies (f0 : tensor3 T) (n_harmonics : nat)
    : tensor3 T :=
  map (map (fun c => match c with
                     | [v] => map (s_mul v) (harmonic_numbers n_harmonics)
                     | _ => map2 s_mul c (harmonic_numbers n_harmonics)
                     end)) f0.

(** [sample_rate / 2.0] *)
Definition nyquist (sample_rate : Z) : T := s_div (s_of_Z sample_rate) (s_of_Z 2).

(** Modelled from the spec: [util.remove_above_nyquist] is missing from the
    sources. "Zeroes any channel whose computed frequency >= sample_rate/2." *)
Definition remove_above_nyquist
    (harmonic_frequencies harmonic_distribution : tensor3 T) (sample_rate : Z)
    : tensor3 T :=
  map2 (map2 (map2 (fun f a => if s_leb (nyquist sample_rate) f then zero else a)))
       harmonic_frequencies harmonic_distribution.

End Util.
End util.

(** The synthesis routines of [ddspsynth.util] that the generators end in.
    Their code is not among the sources, so they are operations of an
    interface; [SynthShapes] states the shape of their results as the
    specification gives it. *)
Class Synth (T : Type) : Type := {
  harmonic_synthesis :
    tensor3 T -> tensor3 T -> tensor3 T -> nat -> Z -> tensor2 T;
  resample_frames : tensor3 T -> nat -> tensor3 T;
  oscillator_bank : tensor3 T -> tensor3 T -> Z -> tensor2 T;
  fir_filter : tensor2 T -> tensor3 T -> Z -> tensor2 T;
  wavetable_synthesis :
    tensor T -> tensor T -> tensor T -> nat -> Z -> tensor2 T
}.

(** Every row of a batch of audio has [n] samples. *)
Definition audio_length {T : Type} (n : nat) (audio : tensor2 T) : Prop :=
  Forall (fun row => length row = n) audio.

(** A batch of audio of the shape [batch, n]. *)
Definition audio_shape {T : Type} (batch n : nat) (audio : tensor2 T) : Prop :=
  length audio = batch /\ audio_length n audio.

(** [x.shape[0]] *)
Definition first_dim {T : Type} (x : tensor T) : nat :=
  match x with
  | Rank1 a => length a
  | Rank2 a => length a
  | Rank3 a => length a
  end.

(** Modelled from the spec: the result shapes of the synthesis routines
    missing from the sources. An audio buffer has the "shape (batch,
    n_samples)" and a control envelope the "shape (batch, n_frames,
    n_channels)", the batch being that of the controls.
    - harmonic_synthesis and wavetable_synthesis compute one value per sample
      for [n_samples] samples, for every batch element of the frequencies;
    - resample_frames "must exactly reach n_samples length regardless of
      input frame count", for every batch element of the envelope;
    - oscillator_bank sums the sinusoids of each sample of its envelopes;
    - fir_filter produces "filtered output of the same length as input". *)
Class SynthShapes {T : Type} (S : Synth T) : Prop := {
  harmonic_synthesis_shape :
    forall f a d n sr, audio_shape (length f) n (harmonic_synthesis f a d n sr);
  resample_frames_shape :
    forall e n,
      length (resample_frames e n) = length e /\
      Forall (fun m => length m = n) (resample_frames e n);
  oscillator_bank_shape :
    forall fe ae sr n,
      Forall (fun m => length m = n) fe ->
      Forall (fun m => length m = n) ae ->
      audio_shape (length fe) n (oscillator_bank fe ae sr);
  fir_filter_shape :
    forall audio fr size batch n,
      audio_shape batch n audio -> audio_shape batch n (fir_filter audio fr size);
  wavetable_synthesis_shape :
    forall f a w n sr,
      audio_shape (first_dim f) n (wavetable_synthesis f a w n sr)
}.

(** * ddspsynth.modules.generators *)

Module Additive.
Section Additive.

Context {T : Type} `{Scalar T} `{Synth T}.

Record t : Type := {
  n_samples : nat;
  sample_rate : Z;
  scale_fn : option (tensor3 T -> tensor3 T);
  normalize_below_nyquist : bool;
  n_harmonics : nat
}.

(** Lines 33-35: [amplitudes] and [harmonic_distribution] go through
    [scale_fn] when there is one. *)
Definition scale (self : t) (x : tensor3 T) : tensor3 T :=
  match scale_fn self with
  | Some f => f x
  | None => x
  end.

(** [f0_hz[:, :, None]] on a [batch, n_frames] tensor. *)
Definition unsqueeze_last (x : tensor2 T) : tensor3 T :=
  map (map (fun v => [v])) x.

(** Lines 36-37. Indexing a rank-1 tensor with [[:, :, None]] raises. *)
Definition expand_f0 (f0_hz : tensor T) : result (tensor3 T) :=
  match f0_hz with
  | Rank3 x => Ok x
  | Rank2 x => Ok (unsqueeze_last x)
  | Rank1 _ => Raise IndexError
  end.

(** Lines 39-42: the scaled distribution after the band-limiting step. *)
Definition bandlimit (self : t) (harmonic_distribution f0_hz : tensor3 T)
    : tensor3 T :=
  if normalize_below_nyquist self then
    let n_harmonics := last_dim harmonic_distribution in
    let harmonic_frequencies := util.get_harmonic_frequencies f0_hz n_harmonics in
    util.remove_above_nyquist harmonic_frequencies harmonic_distribution
                              (sample_rate self)
  else harmonic_distribution.

(** Line 45: [harmonic_distribution /= torch.sum(harmonic_distribution,
    axis=-1, keepdim=True)]. *)
Definition normalize_frame (frame : list T) : list T :=
  map (fun x => s_div x (tsum frame)) frame.

Definition normalize (harmonic_distribution : tensor3 T) : tensor3 T :=
  map (map normalize_frame) harmonic_distribution.

(** The distribution before and after line 45, for an [f0_hz] that already
    has its channel axis. *)
Definition bandlimited_distribution
    (self : t) (harmonic_distribution f0_hz : tensor3 T) : tensor3 T :=
  bandlimit self (scale self harmonic_distribution) f0_hz.

Definition normalized_distribution
    (self : t) (harmonic_distribution f0_hz : tensor3 T) : tensor3 T :=
  normalize (bandlimited_distribution self harmonic_distribution f0_hz).

Definition forward (self : t) (amplitudes harmonic_distribution : tensor3 T)
    (f0_hz : tensor T) (n_samples_arg : option nat) : result (tensor2 T) :=
  let n_samples := match n_samples_arg with
                   | None => n_samples self
                   | Some n => n
                   end in
  let amplitudes := scale self amplitudes in
  f0_hz <- expand_f0 f0_hz ;;
  let harmonic_distribution :=
    normalized_distribution self harmonic_distribution f0_hz in
  Ok (harmonic_synthesis f0_hz amplitudes harmonic_distribution n_samples
                         (sample_rate self)).

(** Line 51. *)
Definition get_param_sizes (self : t) : list (string * nat) :=
  [("amplitudes"%string, 1); ("harmonic_distribution"%string, n_harmonics self);
   ("f0_hz"%string, 1)].

End Additive.
End Additive.

Module Sinusoids.
Section Sinusoids.

Context {T : Type} `{Scalar T} `{Synth T}.

Record t : Type := {
  n_samples : nat;
  sample_rate : Z;
  amp_scale_fn : option (tensor3 T -> tensor3 T);
  freq_scale_fn : option (tensor3 T -> tensor3 T);
  n_sinusoids : nat
}.

Definition forward (self : t) (amplitudes frequencies : tensor3 T)
    (n_samples_arg : option nat) : tensor2 T :=
  let n_samples := match n_samples_arg with
                   | None => n_samples self
                   | Some n => n
                   end in
  let amplitudes := match amp_scale_fn self with
                    | Some f => f amplitudes
                    | None => amplitudes
                    end in
  let frequencies := match freq_scale_fn self with
                     | Some f => f frequencies
                     | None => frequencies
                     end in
  let amplitudes_envelope := resample_frames amplitudes n_samples in
  let frequency_envelope := resample_frames frequencies n_samples in
  oscillator_bank frequency_envelope amplitudes_envelope (sample_rate self).

Definition get_param_sizes (self : t) : list (string * nat) :=
  [("amplitudes"%string, n_sinusoids self); ("frequencies"%string, n_sinusoids self)].

End Sinusoids.
End Sinusoids.

Module FilteredNoise.
Section FilteredNoise.

Context {T : Type} `{Scalar T} `{Synth T}.

(** The stream of uniform samples in [0, 1) that [torch.rand] draws from. *)
Variable uniform : nat -> T.

(** [torch.rand(batch_size, n_samples)] *)
Definition rand (batch_size n_samples : nat) : tensor2 T :=
  map (fun b => map (fun i => uniform (b * n_samples + i)) (seq 0 n_samples))
      (seq 0 batch_size).

Record t : Type := {
  filter_size : Z;
  n_samples : nat;
  scale_fn : option (tensor3 T -> tensor3 T);
  initial_bias : T;
  amplitude : T
}.

Definition forward (self : t) (freq_response : tensor3 T)
    (n_samples_arg : option nat) : tensor2 T :=
  let n_samples := match n_samples_arg with
                   | None => n_samples self
                   | Some n => n
                   end in
  let batch_size := length freq_response in
  let freq_response :=
    match scale_fn self with
    | Some f => f (map (map (map (fun x => s_add x (initial_bias self)))) freq_response)
    | None => freq_response
    end in
  let audio :=
    map (map (fun u => s_mul (s_sub (s_mul u (s_of_Z 2)) one) (amplitude self)))
        (rand batch_size n_samples) in
  fir_filter audio freq_response (filter_size self).

Definition get_param_sizes (self : t) : list (string * Z) :=
  [("freq_response"%string, (filter_size self / 2 + 1)%Z)].

(** Line 119: the excitation that [forward] filters,
    [(torch.rand(batch_size, n_samples)*2.0-1.0) * self.amplitude]. *)
Definition noise (self : t) (batch_size n_samples : nat) : tensor2 T :=
  map (map (fun u => s_mul (s_sub (s_mul u (s_of_Z 2)) one) (amplitude self)))
      (rand batch_size n_samples).

End FilteredNoise.
End FilteredNoise.

Module Wavetable.
Section Wavetable.

Context {T : Type} `{Scalar T} `{Synth T}.

Record t : Type := {
  n_samples : nat;
  sample_rate : Z;
  scale_fn : option (tensor T -> tensor T);
  len_waveform : nat
}.

Definition forward (self : t) (amplitudes wavetable f0_hz : tensor T)
    (n_samples_arg : option nat) : tensor2 T :=
  let n_samples := match n_samples_arg with
                   | None => n_samples self
                   | Some n => n
                   end in
  let amplitudes := match scale_fn self with
                    | Some f => f amplitudes
                    | None => amplitudes
                    end in
  wavetable_synthesis f0_hz amplitudes wavetable n_samples (sample_rate self).

Definition get_param_sizes (self : t) : list (string * nat) :=
  [("amplitudes"%string, 1); ("wavetable"%string, len_waveform self);
   ("f0_hz"%string, 1)].

End Wavetable.
End Wavetable.

Module SawOscillator.
Section SawOscillator.

Context {T : Type} `{Scalar T} `{Synth T}.

(** [torch.linspace(start, stop, steps)] *)
Definition linspace (start stop : T) (steps : nat) : list T :=
  map (fun i => s_add start
                  (s_mul (s_of_Z (Z.of_nat i))
                         (s_div (s_sub stop start) (s_of_Z (Z.of_nat steps - 1)))))
      (seq 0 steps).

Record t : Type := {
  n_samples : nat;
  sample_rate : Z;
  scale_fn : option (tensor T -> tensor T)
}.

(** Line 170: the saw waveform set at construction. *)
Definition waveform (self : t) : tensor T :=
  Rank1 (linspace one (s_opp one) 2048).

Definition forward (self : t) (amplitudes f0_hz : tensor T)
    (n_samples_arg : option nat) : tensor2 T :=
  let n_samples := match n_samples_arg with
                   | None => n_samples self
                   | Some n => n
                   end in
  let amplitudes := match scale_fn self with
                    | Some f => f amplitudes
                    | None => amplitudes
                    end in
  wavetable_synthesis f0_hz amplitudes (waveform self) n_samples (sample_rate self).

Definition get_param_sizes (self : t) : list (string * nat) :=
  [("amplitudes"%string, 1); ("f0_hz"%string, 1)].

End SawOscillator.
End SawOscillator.

(** * ddspsynth.spectral *)

Module spectral.
Section Spectral.

Context {T : Type} `{Scalar T}.

(** [torch.stft(audio, n_fft, window, hop_length, center)] on a batch:
    shape [batch, frequency_bins, n_frames, 2], the last axis holding the
    real and the imaginary part. *)
Variable stft : tensor2 T -> Z -> option (list T) -> Z -> bool -> tensor3 (T * T).
Variable hann_window : Z -> list T.
Variable log sqrt log10 : T -> T.

(** The epsilon of [util.log_eps]. *)
Variable eps : T.

(** [librosa.A_weighting(librosa.fft_frequencies(sr, n_fft))]: one weight
    per frequency bin. *)
Variable A_weighting : Z -> Z -> list T.

(** Modelled from the spec: [util.log_eps] is missing from the sources.
    "log-magnitude spectrograms (log(spec + eps))". *)
Definition log_eps (x : T) : T := log (s_add x eps).

(** Line 11: [amp = lambda x: x[...,0]**2 + x[...,1]**2] *)
Definition amp (x : T * T) : T :=
  s_add (s_mul (fst x) (fst x)) (s_mul (snd x) (snd x)).

(** [int((1-overlap)*size)], computed on Python floats. *)
Definition hop_length (overlap : float) (size : Z) : result Z :=
  PyFloat.int (PrimFloat.mul (PrimFloat.sub 1%float overlap) (PyFloat.of_Z size)).

(** Lines 68-84, for audio that already is a tensor (line 79 converts a
    numpy array first). One power spectrogram per size, in the order of
    [sizes]. *)
Definition MultiscaleFFT (audio : tensor2 T) (sizes : list Z) (overlap : float)
    : result (list (tensor3 T)) :=
  mapM (fun size =>
          let window := hann_window size in
          hop <- hop_length overlap size ;;
          let stft := stft audio size (Some window) hop false in
          Ok (map (map (map amp)) stft))
       sizes.

(** ** torch.nn.functional losses with [reduction='mean'], on the elements
    of two tensors of one shape *)

Definition l1_loss (input target : list T) : T :=
  tmean (map2 (fun x y => s_abs (s_sub x y)) input target).

Definition mse_loss (input target : list T) : T :=
  tmean (map2 (fun x y => s_mul (s_sub x y) (s_sub x y)) input target).

(** [beta = 1.0] *)
Definition smooth_l1_loss (input target : list T) : T :=
  let beta := one in
  tmean (map2 (fun x y =>
                 let z := s_abs (s_sub x y) in
                 if s_ltb z beta
                 then s_div (s_mul (s_mul (lit 1 2) z) z) beta
                 else s_sub z (s_mul (lit 1 2) beta))
              input target).

(** ** compute_loudness, lines 86-136 *)

Definition n_audio_samples (audio : tensor2 T) : nat :=
  match audio with
  | row :: _ => length row
  | [] => 0
  end.

(** Lines 131-132: [int(audio.shape[-1] / float(sample_rate) * frame_rate)] *)
Definition expected_len (audio_length sample_rate frame_rate : Z) : result Z :=
  n_secs <- PyFloat.truediv (PyFloat.of_Z audio_length) (PyFloat.of_Z sample_rate) ;;
  PyFloat.int (PrimFloat.mul n_secs (PyFloat.of_Z frame_rate)).

(** Lines 111-113 on one bin of one frame. *)
Definition power_db (c : T * T) : T :=
  let amplitude := sqrt (s_add (amp c) (lit 1 100000)) in
  s_mul (log10 (s_add amplitude (lit 1 100000))) (s_of_Z 20).

(** Lines 118-122: the A-weighting of a bin is added to each of its frames
    (the broadcast of [a_weighting[None, :, None]]), the reference is
    subtracted and the result is clamped from below. *)
Definition weighted_loudness (a_weighting : list T) (range_db ref_db : T)
    (s : tensor3 (T * T)) : tensor3 T :=
  let power_db := map (map (map power_db)) s in
  let loudness :=
    map (fun m => map2 (fun row a => map (fun x => s_add x a) row) m a_weighting)
        power_db in
  let loudness := map (map (map (fun x => s_sub x ref_db))) loudness in
  map (map (map (clamp_min (s_opp range_db)))) loudness.

(** Lines 100-136. A tensor of rank 3 is refused by [torch.stft]. *)
Definition compute_loudness (audio : tensor T)
    (sample_rate frame_rate n_fft : Z) (range_db ref_db : T)
    : result (tensor T) :=
  let is_1d := Nat.eqb (ndim audio) 1 in
  audio <- match audio with
           | Rank1 a => Ok [a]
           | Rank2 a => Ok a
           | Rank3 _ => Raise RuntimeError
           end ;;
  hop_length <- PyFloat.floordiv sample_rate frame_rate ;;
  let s := stft audio n_fft None hop_length true in
  let a_weighting := A_weighting sample_rate n_fft in
  let loudness := weighted_loudness a_weighting range_db ref_db s in
  let loudness := map (fun m => map tmean (transpose m)) loudness in
  expected_len <- expected_len (Z.of_nat (n_audio_samples audio))
                               sample_rate frame_rate ;;
  let fix_length x :=
    util.pad_or_trim_to_expected_length x (Z.to_nat expected_len)
                                        (s_opp range_db) in
  if is_1d then
    match loudness with
    | l0 :: _ => Ok (Rank1 (fix_length l0))
    | [] => Raise IndexError
    end
  else Ok (Rank2 (map fix_length loudness)).

(** ** SpectralLoss, lines 170-214 *)

Record SpectralLoss : Type := {
  fft_sizes : list Z;
  overlap : float;
  sample_rate : Z;
  mag_w : T;
  log_mag_w : T;
  loud_w : T
}.

(** Lines 180-186. A [loss_type] that matches none of the tests falls off
    the end of the function: the result is [None]. [reduction] is not
    read. *)
Definition loss_func (input target : list T) (loss_type reduction : string)
    : option T :=
  if String.eqb loss_type "L1" then Some (l1_loss input target)
  else if String.eqb loss_type "MSE" then Some (mse_loss input target)
  else if String.eqb loss_type "smooth_L1" then Some (smooth_l1_loss input target)
  else None.

(** [w * d] where [d] may be [None]: a number times [None] is a TypeError. *)
Definition weighted (w : T) (d : option T) : result T :=
  match d with
  | Some d => Ok (s_mul w d)
  | None => Raise TypeError
  end.

(** Lines 202-207: the loop over [enumerate(specs)]. *)
Fixpoint accumulate (self : SpectralLoss) (target_specs : list (tensor3 T))
    (loss_type reduction : string) (i : nat) (specs : list (tensor3 T))
    (loss : T) : result T :=
  match specs with
  | [] => Ok loss
  | spec :: rest =>
      match nth_error target_specs i with
      | None => Raise IndexError
      | Some target_spec =>
          loss <- (if s_ltb zero (mag_w self) then
                     term <- weighted (mag_w self)
                               (loss_func (flatten3 spec) (flatten3 target_spec)
                                          loss_type reduction) ;;
                     Ok (s_add loss term)
                   else Ok loss) ;;
          loss <- (if s_ltb zero (log_mag_w self) then
                     term <- weighted (log_mag_w self)
                               (loss_func (map log_eps (flatten3 spec))
                                          (map log_eps (flatten3 target_spec))
                                          loss_type reduction) ;;
                     Ok (s_add loss term)
                   else Ok loss) ;;
          accumulate self target_specs loss_type reduction (S i) rest loss
      end
  end.

(** The elements of the result of [compute_loudness]. *)
Definition elements (x : tensor T) : list T :=
  match x with
  | Rank1 a => a
  | Rank2 a => flatten2 a
  | Rank3 a => flatten3 a
  end.

(** [compute_loudness(audio, self.sample_rate)] with the defaults
    [frame_rate=50, n_fft=2048, range_db=120.0, ref_db=20.7]. *)
Definition compute_loudness_default (audio : tensor2 T) (sample_rate : Z)
    : result (tensor T) :=
  compute_loudness (Rank2 audio) sample_rate 50 2048 (s_of_Z 120) (lit 207 10).

Definition forward (self : SpectralLoss) (input_audio target_audio : tensor2 T)
    (loss_type reduction : string) : result T :=
  specs <- MultiscaleFFT input_audio (fft_sizes self) (overlap self) ;;
  target_specs <- MultiscaleFFT target_audio (fft_sizes self) (overlap self) ;;
  let loss := zero in
  loss <- accumulate self target_specs loss_type reduction 0 specs loss ;;
  if s_ltb zero (loud_w self) then
    input_l <- compute_loudness_default input_audio (sample_rate self) ;;
    target_l <- compute_loudness_default target_audio (sample_rate self) ;;
    term <- weighted (loud_w self)
              (loss_func (elements input_l) (elements target_l)
                         loss_type reduction) ;;
    Ok (s_add loss term)
  else Ok loss.

(** ** spectrogram, lines 60-66

    [power] is compared with 2 and with 1. Any other value leaves [spec]
    unassigned, and the [return] of line 66 raises. *)
Definition spectrogram (audio : tensor2 T) (size hop_length power : Z)
    (center : bool) (window : option (list T)) : outcome (tensor3 T) :=
  let power_spec :=
    map (map (map amp)) (stft audio size window hop_length center) in
  if (power =? 2)%Z then Returns power_spec
  else if (power =? 1)%Z then Returns (map (map (map sqrt)) power_spec)
  else Fails UnboundLocalError.

(** ** loudness_loss, lines 216-219, on two batches of audio *)
Definition loudness_loss (input_audio target_audio : tensor2 T) (sr : Z)
    : result T :=
  input_l <- compute_loudness_default input_audio sr ;;
  target_l <- compute_loudness_default target_audio sr ;;
  Ok (l1_loss (elements input_l) (elements target_l)).

(** ** compute_f0, lines 138-168 *)

(** The frequency track of [crepe.predict(audio, sr, viterbi, step_size,
    center=False, verbose=0)], its second result. *)
Variable crepe_predict : list T -> Z -> bool -> float -> list T.

(** [.astype(np.float32)] on one value. *)
Variable float32 : T -> T.

(** [1000 / frame_rate] is the quotient of two Python ints as a float, which
    for ints below 2^53 is the quotient of their floats. *)
Definition compute_f0 (audio : list T) (sample_rate frame_rate : Z)
    (viterbi : bool) : result (list T) :=
  n_secs <- PyFloat.truediv (PyFloat.of_Z (Z.of_nat (length audio)))
                            (PyFloat.of_Z sample_rate) ;;
  crepe_step_size <- PyFloat.truediv (PyFloat.of_Z 1000) (PyFloat.of_Z frame_rate) ;;
  expected_len <- PyFloat.int (PrimFloat.mul n_secs (PyFloat.of_Z frame_rate)) ;;
  let f0_hz := crepe_predict audio sample_rate viterbi crepe_step_size in
  let f0_hz :=
    util.pad_or_trim_to_expected_length f0_hz (Z.to_nat expected_len) zero in
  Ok (map float32 f0_hz).

End Spectral.
End spectral.


(** ** MelSpec, lines 13-38 *)

Module MelSpec.
Section MelSpec.

Context {T : Type} `{Scalar T}.

Variable stft : tensor2 T -> Z -> option (list T) -> Z -> bool -> tensor3 (T * T).
Variable sqrt : T -> T.

(** [torchaudio.transforms.MelScale(n_mels, sample_rate, f_min, f_max,
    n_stft)]: a spectrogram [batch, n_stft, time] to [batch, n_mels, time]. *)
Variable MelScale : Z -> Z -> Z -> Z -> Z -> tensor3 T -> tensor3 T.

Record t : Type := {
  n_fft : Z;
  hop_length : Z;
  power : Z;
  f_min : Z;
  f_max : Z;
  sample_rate : Z;
  n_mels : Z;
  pad_end : bool;
  center : bool
}.

(** Line 28. *)
Definition mel_scale (self : t) : tensor3 T -> tensor3 T :=
  MelScale (n_mels self) (sample_rate self) (f_min self) (f_max self)
           (n_fft self / 2 + 1)%Z.

(** Lines 33-34, on Python ints: [%] takes the sign of its divisor and
    raises on a zero divisor. *)
Definition padding (self : t) (l_x : Z) : result Z :=
  if (hop_length self =? 0)%Z then Raise ZeroDivisionError
  else
    let remainder := ((l_x - n_fft self) mod hop_length self)%Z in
    Ok (if (remainder =? 0)%Z then 0%Z else (hop_length self - remainder)%Z).

(** [F.pad(audio, (0, pad), 'constant')] on [batch, l_x]: [pad] zeros are
    appended to every row; a negative [pad] removes samples from the end of
    every row, and is refused when a row has fewer samples than that. *)
Definition F_pad (audio : tensor2 T) (pad : Z) : result (tensor2 T) :=
  let l_x := Z.of_nat (spectral.n_audio_samples audio) in
  if (l_x + pad <? 0)%Z then Raise RuntimeError
  else if (pad <? 0)%Z then Ok (map (firstn (Z.to_nat (l_x + pad))) audio)
  else Ok (map (fun row => row ++ repeat zero (Z.to_nat pad)) audio).

(** Lines 31-35: the audio that line 36 takes the spectrogram of. *)
Definition pad_audio (self : t) (audio : tensor2 T) : result (tensor2 T) :=
  if pad_end self then
    let l_x := Z.of_nat (spectral.n_audio_samples audio) in
    pad <- padding self l_x ;;
    F_pad audio pad
  else Ok audio.

Definition forward (self : t) (audio : tensor2 T) : outcome (tensor3 T) :=
  audio <~ lift (pad_audio self audio) ;;
  spec <~ spectral.spectrogram stft sqrt audio (n_fft self) (hop_length self)
                               (power self) (center self) None ;;
  let mel_spec := mel_scale self spec in
  Returns mel_spec.

End MelSpec.
End MelSpec.

(** ** Mfcc, lines 40-58 *)

Module Mfcc.
Section Mfcc.

Context {T : Type} `{Scalar T}.

Variable stft : tensor2 T -> Z -> option (list T) -> Z -> bool -> tensor3 (T * T).
Variable sqrt log : T -> T.
Variable MelScale : Z -> Z -> Z -> Z -> Z -> tensor3 T -> tensor3 T.

(** [torchaudio.functional.create_dct(n_mfcc, n_mels, norm)]: a matrix
    [n_mels, n_mfcc]. *)
Variable create_dct : Z -> Z -> option string -> tensor2 T.

Record t : Type := {
  norm : option string;
  n_mfcc : Z;
  melspec : MelSpec.t;
  dct_mat : tensor2 T
}.

(** Lines 41-50: the mel spectrogram of an [Mfcc] is a power spectrogram. *)
Definition init (n_fft hop_length n_mels n_mfcc : Z) (norm : option string)
    (sample_rate f_min f_max : Z) (pad_end center : bool) : t :=
  let melspec :=
    {| MelSpec.n_fft := n_fft;
       MelSpec.hop_length := hop_length;
       MelSpec.power := 2;
       MelSpec.f_min := f_min;
       MelSpec.f_max := f_max;
       MelSpec.sample_rate := sample_rate;
       MelSpec.n_mels := n_mels;
       MelSpec.pad_end := pad_end;
       MelSpec.center := center |} in
  {| norm := norm;
     n_mfcc := n_mfcc;
     melspec := melspec;
     dct_mat := create_dct n_mfcc (MelSpec.n_mels melspec) norm |}.

(** [torch.matmul] of a batch of matrices [batch, n, m] and a matrix
    [m, k]; rows of another length than the matrix has rows are refused. *)
Definition matmul (x : tensor3 T) (y : tensor2 T) : result (tensor3 T) :=
  if forallb (forallb (fun row => Nat.eqb (length row) (length y))) x
  then Ok (map (map (fun row =>
                       map (fun col => tsum (map2 s_mul row col)) (transpose y)))
               x)
  else Raise RuntimeError.

(** Lines 52-58. [x.transpose(1, 2)] transposes every batch element. *)
Definition forward (self : t) (audio : tensor2 T) : outcome (tensor3 T) :=
  mel_spec <~ MelSpec.forward stft sqrt MelScale (melspec self) audio ;;
  let mel_spec :=
    map (map (map (fun x => log (s_add x (lit 1 1000000))))) mel_spec in
  mfcc <~ lift (matmul (map transpose mel_spec) (dct_mat self)) ;;
  Returns (map transpose mfcc).

End Mfcc.
End Mfcc.

(** * Vocabulary of the statements *)

(** A numeric substrate in which [x <= y] excludes [y < x]: the rationals,
    and IEEE floats (where both tests fail on NaN). *)
Class OrderedScalar (T : Type) `{Scalar T} : Prop := {
  s_leb_not_ltb : forall x y : T, s_leb x y = true -> s_ltb y x = false
}.

(** Every hop length [int((1-overlap)*size)] of a configuration is defined. *)
Definition hops_defined (overlap : float) (sizes : list Z) : bool :=
  forallb (fun size => is_ok (spectral.hop_length overlap size)) sizes.

(** The loss types that [loss_func] tests for. *)
Definition supported (loss_type : string) : Prop :=
  loss_type = "L1"%string \/ loss_type = "MSE"%string \/ loss_type = "smooth_L1"%string.

(** [x[b][f]] and [x[b][f][k]] *)
Definition at2 {A : Type} (x : list (list A)) (b f : nat) : option A :=
  match nth_error x b with
  | Some row => nth_error row f
  | None => None
  end.

Definition at3 {A : Type} (x : list (list (list A))) (b f k : nat) : option A :=
  match at2 x b f with
  | Some frame => nth_error frame k
  | None => None
  end.

(** The call returns a batch of audio of the shape [batch, n]. *)
Definition returns_shape {T : Type} (batch n : nat) (r : result (tensor2 T))
    : Prop :=
  exists audio, r = Ok audio /\ audio_shape batch n audio.

(** A scaling function, when there is one, keeps the batch axis: the
    functions of [util] that the generators default to work element by
    element. *)
Definition keeps_batch {T : Type} (scale_fn : option (tensor3 T -> tensor3 T))
    : Prop :=
  match scale_fn with
  | Some f => forall x, length (f x) = length x
  | None => True
  end.

(** The 440 Hz case of the specification: at a sample rate of 16000 and with
    64 harmonics, every channel from the 19th on (index [k >= 18] counting
    from 0) is zero after the band-limiting step, and the first 18 are left
    as they are. *)
Definition nyquist_example (T : Type) `{Scalar T} : Prop :=
  forall (self : @Additive.t T) (harmonic_distribution f0_hz : tensor3 T)
         (b f k : nat) (a : T),
    Additive.normalize_below_nyquist self = true ->
    Additive.sample_rate self = 16000%Z ->
    at2 f0_hz b f = Some [s_of_Z 440] ->
    last_dim (Additive.scale self harmonic_distribution) = 64 ->
    at3 (Additive.scale self harmonic_distribution) b f k = Some a ->
    k < 64 ->
    at3 (Additive.bandlimited_distribution self harmonic_distribution f0_hz) b f k
    = Some (if 18 <=? k then zero else a).

Arguments nyquist_example T {_}.

(** The normalization of the harmonic distribution in the words of the
    specification: in every frame some channel is non-zero after
    band-limiting ([nondegenerate]); in every frame the values are
    non-negative and sum to 1 ([normalized]). *)
Definition nondegenerate (harmonic_distribution : tensor3 Qc) : Prop :=
  Forall (Forall (fun frame => Exists (fun x => x <> 0%Qc) frame))
         harmonic_distribution.

Definition nonnegative (harmonic_distribution : tensor3 Qc) : Prop :=
  Forall (Forall (fun frame => Forall (fun x => (0 <= x)%Qc) frame))
         harmonic_distribution.

Definition normalized (harmonic_distribution : tensor3 Qc) : Prop :=
  Forall (Forall (fun frame => Forall (fun x => (0 <= x)%Qc) frame /\
                               tsum frame = 1%Qc))
         harmonic_distribution.

(** ** The spectral loss in the words of the specification *)

Section LossSpecification.

Context {T : Type} `{Scalar T}.
Variable log : T -> T.
Variable eps : T.

(** "A pointwise distance (selectable: absolute, squared, or
    smooth-absolute)". *)
Inductive distance : Set := Absolute | Squared | SmoothAbsolute.

Definition distance_of (loss_type : string) : option distance :=
  if String.eqb loss_type "L1" then Some Absolute
  else if String.eqb loss_type "MSE" then Some Squared
  else if String.eqb loss_type "smooth_L1" then Some SmoothAbsolute
  else None.

Definition pointwise (d : distance) (x y : T) : T :=
  match d with
  | Absolute => s_abs (s_sub x y)
  | Squared => s_mul (s_sub x y) (s_sub x y)
  | SmoothAbsolute =>
      let z := s_abs (s_sub x y) in
      if s_ltb z one
      then s_div (s_mul (s_mul (lit 1 2) z) z) one
      else s_sub z (s_mul (lit 1 2) one)
  end.

(** The distance between two tensors of one shape: the mean of the pointwise
    distances of their elements. *)
Definition mean_distance (d : distance) (a b : list T) : T :=
  tmean (map2 (pointwise d) a b).

(** "Weights with value <= 0 contribute nothing." *)
Definition weighted_term (w : T) (x : T) : T :=
  if s_ltb zero w then s_mul w x else zero.

(** One resolution: [mag_w] times the distance between the linear-magnitude
    spectrograms plus [log_mag_w] times the distance between the
    log-magnitude spectrograms. *)
Definition resolution_loss (mag_w log_mag_w : T) (d : distance)
    (spec target_spec : tensor3 T) : T :=
  s_add
    (weighted_term mag_w
       (mean_distance d (flatten3 spec) (flatten3 target_spec)))
    (weighted_term log_mag_w
       (mean_distance d (map (fun x => log (s_add x eps)) (flatten3 spec))
                        (map (fun x => log (s_add x eps)) (flatten3 target_spec)))).

(** The sum over the resolutions, without any division by their number. *)
Definition multiscale_loss (mag_w log_mag_w : T) (d : distance)
    (specs target_specs : list (tensor3 T)) : T :=
  tsum (map2 (resolution_loss mag_w log_mag_w d) specs target_specs).

End LossSpecification.

(** Modelled from the spec: [util.harmonic_synthesis] is missing from the
    sources. It "multiplies sin(phase) by the (upsampled) per-harmonic
    amplitude x overall amplitude, sums over harmonics", where the amplitude
    of a harmonic is its share of the distribution, and upsampling
    interpolates between the frames ("n_frames <= n_samples: upsampling never
    downsamples"). In IEEE arithmetic a product or sum with a NaN operand is
    NaN, so a frame of the distribution that is NaN in every channel reaches
    at least one sample of the signal of its batch element. *)
Class SynthNaN (S : Synth float) : Prop := {
  harmonic_synthesis_nan :
    forall (f a d : tensor3 float) (n : nat) (sr : Z) (b fr : nat)
           (frames : list (list float)) (frame : list float),
      nth_error d b = Some frames ->
      nth_error frames fr = Some frame ->
      frame <> [] ->
      Forall (fun x => PrimFloat.is_nan x = true) frame ->
      0 < n -> length frames <= n ->
      exists row, nth_error (harmonic_synthesis f a d n sr) b = Some row /\
                  Exists (fun x => PrimFloat.is_nan x = true) row
}.

(** ** The loudness curve in the words of the specification *)

Section LoudnessSpecification.

Context {T : Type} `{Scalar T}.
Variable sqrt log10 : T -> T.

(** The number of frames of the STFT of one batch element, [bins x frames]. *)
Definition n_frames {A : Type} (m : list (list A)) : nat :=
  match m with
  | row :: _ => length row
  | [] => 0
  end.

(** One bin of one frame: magnitude in dB, plus the A-weighting of the bin,
    minus the reference, clamped at the floor [-range_db]. *)
Definition bin_loudness (range_db ref_db : T) (a : T) (c : T * T) : T :=
  clamp_min (s_opp range_db)
            (s_sub (s_add (spectral.power_db sqrt log10 c) a) ref_db).

(** One frame: the average of its bins. *)
Definition frame_loudness (a_weighting : list T) (range_db ref_db : T)
    (m : list (list (T * T))) (j : nat) : T :=
  tmean (map2 (fun row a => bin_loudness range_db ref_db a (nth j row (zero, zero)))
              m a_weighting).

(** "Pad/trim to round(duration x frame_rate) frames": the integer nearest to
    [audio_length * frame_rate / sample_rate], halves rounded up. *)
Definition rounded_len (audio_length sample_rate frame_rate : Z) : Z :=
  ((2 * audio_length * frame_rate + sample_rate) / (2 * sample_rate))%Z.

End LoudnessSpecification.

(** A tensor on which a mean is a number in IEEE arithmetic: its values are
    finite and their count converts to a positive float. *)
Definition measurable (a : list float) : Prop :=
  Forall (fun x => PrimFloat.is_finite x = true) a /\
  PrimFloat.ltb 0 (s_of_Z (Z.of_nat (length a))) = true.

(** A test on every integer from [base] up to [base + 2^k], the last one
    excluded. *)
Fixpoint all_below (k : nat) (P : Z -> bool) (base : Z) : bool :=
  match k with
  | 0 => P base
  | S k' => all_below k' P base && all_below k' P (base + 2 ^ Z.of_nat k')%Z
  end.

(** The hop length of line 82 for the default overlap is a quarter of the
    size, rounded down. *)
Definition quarter_hop (size : Z) : bool :=
  match spectral.hop_length 0.75%float size with
  | Ok hop => (hop =? size / 4)%Z
  | Raise _ => false
  end.

(** * Concrete inputs *)

(** Stand-ins for the library functions, used to evaluate the definitions on
    concrete inputs. [frame_stft] has the shape of an STFT, [n_fft/2 + 1]
    frequency bins and one frame per hop, and puts in every bin of a frame
    the sample that the frame starts at, with a zero imaginary part. *)
Module Examples.

Definition frame_stft {T : Type} `{Scalar T} (audio : tensor2 T) (n_fft : Z)
    (window : option (list T)) (hop_length : Z) (center : bool)
    : tensor3 (T * T) :=
  let hop := Z.to_nat hop_length in
  map (fun row =>
         repeat (map (fun j => (nth (j * hop) row zero, zero))
                     (seq 0 (length row / hop)))
                (Z.to_nat (n_fft / 2 + 1)))
      audio.

Definition ones_window {T : Type} `{Scalar T} (size : Z) : list T :=
  repeat one (Z.to_nat size).

Definition flat_weighting {T : Type} `{Scalar T} (sample_rate n_fft : Z) : list T :=
  repeat zero (Z.to_nat (n_fft / 2 + 1)).

(** A configuration whose three weights are zero. *)
Definition silent_loss : @spectral.SpectralLoss Qc :=
  {| spectral.fft_sizes := [64%Z; 128%Z];
     spectral.overlap := 0.75%float;
     spectral.sample_rate := 16000%Z;
     spectral.mag_w := 0%Qc;
     spectral.log_mag_w := 0%Qc;
     spectral.loud_w := 0%Qc |}.

(** The defaults of [SpectralLoss.__init__]. *)
Definition default_loss : @spectral.SpectralLoss Qc :=
  {| spectral.fft_sizes := [64%Z; 128%Z; 256%Z; 512%Z; 1024%Z; 2048%Z];
     spectral.overlap := 0.75%float;
     spectral.sample_rate := 16000%Z;
     spectral.mag_w := 1%Qc;
     spectral.log_mag_w := 1%Qc;
     spectral.loud_w := 0%Qc |}.

(** Two batches of one row of 2048 samples: a ramp 0, 1, 2, ... and a
    constant. *)
Definition audio_a : tensor2 Qc :=
  [map (fun k => s_of_Z (Z.of_nat k)) (seq 0 2048)].
Definition audio_b : tensor2 Qc := [repeat (s_of_Z 1) 2048].

(** [forward] over the rationals with the stand-ins; the logarithm, the
    square root and the epsilon play no part in the examples that use it. *)
Definition forward_Qc :=
  @spectral.forward Qc _ frame_stft ones_window (fun x => x) (fun x => x)
                    (fun x => x) 0%Qc flat_weighting.

(** Synthesis routines that return silence of the stated shape: an instance
    of the interface on which the generators can be run. The filter is the
    identity and the upsampling repeats the first frame. *)
Definition silent_synth : Synth Qc := {|
  harmonic_synthesis := fun f a d n sr => map (fun _ => repeat 0%Qc n) a;
  resample_frames := fun e n => map (fun m => repeat (hd [] m) n) e;
  oscillator_bank := fun fe ae sr => map (map (fun _ => 0%Qc)) fe;
  fir_filter := fun audio fr size => audio;
  wavetable_synthesis := fun f a w n sr => [repeat 0%Qc n]
|}.

(** Generators configured for eight samples, without scaling functions. *)
Definition additive_unscaled : @Additive.t Qc :=
  {| Additive.n_samples := 8;
     Additive.sample_rate := 16000%Z;
     Additive.scale_fn := None;
     Additive.normalize_below_nyquist := true;
     Additive.n_harmonics := 2 |}.

Definition sinusoids_unscaled : @Sinusoids.t Qc :=
  {| Sinusoids.n_samples := 8;
     Sinusoids.sample_rate := 16000%Z;
     Sinusoids.amp_scale_fn := None;
     Sinusoids.freq_scale_fn := None;
     Sinusoids.n_sinusoids := 2 |}.

(** One frame at 100 Hz with the two channels 2 and -1, and one at 5000 Hz
    with two channels 1. *)
Definition f0_100 : tensor3 Qc := [[[s_of_Z 100]]].
Definition distribution_2_m1 : tensor3 Qc := [[[s_of_Z 2; s_of_Z (-1)]]].
Definition f0_5000 : tensor3 Qc := [[[s_of_Z 5000]]].
Definition distribution_1_1 : tensor3 Qc := [[[s_of_Z 1; s_of_Z 1]]].

(** A configuration that only weighs the loudness curves. *)
Definition loudness_only_loss : @spectral.SpectralLoss Qc :=
  {| spectral.fft_sizes := [64%Z];
     spectral.overlap := 0.75%float;
     spectral.sample_rate := 16000%Z;
     spectral.mag_w := 0%Qc;
     spectral.log_mag_w := 0%Qc;
     spectral.loud_w := 1%Qc |}.

(** One row of 3200 samples (0.2 s at 16000 Hz) that all hold [v]. *)
Definition constant_audio (v : Z) : tensor2 Qc := [repeat (s_of_Z v) 3200].

(** The spectrograms of a batch under the stand-ins. *)
Definition spectrograms (self : @spectral.SpectralLoss Qc) (audio : tensor2 Qc)
    : list (tensor3 Qc) :=
  match spectral.MultiscaleFFT frame_stft ones_window audio
          (spectral.fft_sizes self) (spectral.overlap self) with
  | Ok specs => specs
  | Raise _ => []
  end.

(** A configuration that weighs the magnitude spectrograms only. *)
Definition magnitude_loss : @spectral.SpectralLoss Qc :=
  {| spectral.fft_sizes := [64%Z; 128%Z; 256%Z; 512%Z; 1024%Z; 2048%Z];
     spectral.overlap := 0.75%float;
     spectral.sample_rate := 16000%Z;
     spectral.mag_w := 1%Qc;
     spectral.log_mag_w := 0%Qc;
     spectral.loud_w := 0%Qc |}.

(** A synthesis routine over binary64 in which every sample of a batch
    element is the sum of the values of its distribution. *)
Definition summing_synth : Synth float := {|
  harmonic_synthesis := fun f a d n sr =>
    map (fun frames => repeat (tsum (concat frames)) n) d;
  resample_frames := fun e n => map (fun m => repeat (hd [] m) n) e;
  oscillator_bank := fun fe ae sr => map (map (fun _ => 0%float)) fe;
  fir_filter := fun audio fr size => audio;
  wavetable_synthesis := fun f a w n sr => [repeat 0%float n]
|}.

(** Additive over binary64, without a scaling function, and a frame whose
    fundamental of 9000 Hz lies above the Nyquist frequency of 8000 Hz. *)
Definition additive_float : @Additive.t float :=
  {| Additive.n_samples := 8;
     Additive.sample_rate := 16000%Z;
     Additive.scale_fn := None;
     Additive.normalize_below_nyquist := true;
     Additive.n_harmonics := 2 |}.

Definition f0_9000 : tensor3 float := [[[9000%float]]].
Definition distribution_float : tensor3 float := [[[1%float; 1%float]]].

(** [compute_loudness] over the rationals with the stand-ins and the default
    [n_fft], [range_db] and [ref_db]. *)
Definition compute_loudness_Qc (audio : tensor Qc) (sample_rate frame_rate : Z)
    : result (tensor Qc) :=
  @spectral.compute_loudness Qc _ frame_stft (fun x => x) (fun x => x)
    flat_weighting audio sample_rate frame_rate 2048 (s_of_Z 120) (lit 207 10).

(** The same configuration over binary64, a batch of one row of 2048
    samples 0, 0.5, 1, ..., and [forward] on them with the stand-ins. *)
Definition magnitude_loss_float : @spectral.SpectralLoss float :=
  {| spectral.fft_sizes := [64%Z; 128%Z; 256%Z; 512%Z; 1024%Z; 2048%Z];
     spectral.overlap := 0.75%float;
     spectral.sample_rate := 16000%Z;
     spectral.mag_w := 1%float;
     spectral.log_mag_w := 0%float;
     spectral.loud_w := 0%float |}.

Definition audio_float : tensor2 float :=
  [map (fun k => PrimFloat.div (s_of_Z (Z.of_nat k)) 2%float) (seq 0 2048)].

Definition spectrograms_float (self : @spectral.SpectralLoss float)
    (audio : tensor2 float) : list (tensor3 float) :=
  match spectral.MultiscaleFFT frame_stft ones_window audio
          (spectral.fft_sizes self) (spectral.overlap self) with
  | Ok specs => specs
  | Raise _ => []
  end.

Definition forward_float :=
  @spectral.forward float _ frame_stft ones_window (fun x => x) (fun x => x)
                    (fun x => x) 0%float flat_weighting.

(** The defaults of [MelSpec.__init__], and the same with a hop length of 0. *)
Definition melspec_default : MelSpec.t :=
  {| MelSpec.n_fft := 2048;
     MelSpec.hop_length := 1024;
     MelSpec.power := 1;
     MelSpec.f_min := 40;
     MelSpec.f_max := 7600;
     MelSpec.sample_rate := 16000;
     MelSpec.n_mels := 128;
     MelSpec.pad_end := true;
     MelSpec.center := false |}.

Definition melspec_zero_hop : MelSpec.t :=
  {| MelSpec.n_fft := 2048;
     MelSpec.hop_length := 0;
     MelSpec.power := 1;
     MelSpec.f_min := 40;
     MelSpec.f_max := 7600;
     MelSpec.sample_rate := 16000;
     MelSpec.n_mels := 128;
     MelSpec.pad_end := true;
     MelSpec.center := false |}.

(** One row of 3000 samples that all hold 1. *)
Definition audio_3000 : tensor2 Qc := [repeat (s_of_Z 1) 3000].

(** Stand-ins for the mel filter bank and for the DCT matrix: the first
    [n_mels] frequency bins as they are, and a matrix [n_mels, n_mfcc] whose
    column [k] holds [k + 1]. *)
Definition first_bands {T : Type} (n_mels sample_rate f_min f_max n_stft : Z)
    (spec : tensor3 T) : tensor3 T :=
  map (firstn (Z.to_nat n_mels)) spec.

Definition ramp_dct {T : Type} `{Scalar T} (n_mfcc n_mels : Z)
    (norm : option string) : tensor2 T :=
  repeat (map (fun k => s_of_Z (Z.of_nat (S k))) (seq 0 (Z.to_nat n_mfcc)))
         (Z.to_nat n_mels).

(** The defaults of [Mfcc.__init__] and the mel spectrogram of [audio_3000]
    under the stand-ins. *)
Definition mfcc_default : @Mfcc.t Qc :=
  Mfcc.init ramp_dct 2048 1024 128 40 (Some "ortho"%string) 16000 40 7600 true false.

Definition mel_3000 : tensor3 Qc :=
  match MelSpec.forward frame_stft (fun x => x) first_bands
          (Mfcc.melspec mfcc_default) audio_3000 with
  | Returns mel => mel
  | Fails _ => []
  end.

(** A configuration of two resolutions with the default weights, and two
    batches of one row of 256 samples: a ramp 0, 1, 2, ... and a constant. *)
Definition two_scale_loss : @spectral.SpectralLoss Qc :=
  {| spectral.fft_sizes := [64%Z; 128%Z];
     spectral.overlap := 0.75%float;
     spectral.sample_rate := 16000%Z;
     spectral.mag_w := 1%Qc;
     spectral.log_mag_w := 1%Qc;
     spectral.loud_w := 0%Qc |}.

Definition ramp_256 : tensor2 Qc :=
  [map (fun k => s_of_Z (Z.of_nat k)) (seq 0 256)].
Definition ones_256 : tensor2 Qc := [repeat (s_of_Z 1) 256].

(** The 'L1' loss of two batches under the stand-ins. *)
Definition loss_value (self : @spectral.SpectralLoss Qc)
    (input_audio target_audio : tensor2 Qc) : Qc :=
  match forward_Qc self input_audio target_audio "L1" "mean" with
  | Ok v => v
  | Raise _ => 0%Qc
  end.

(** [compute_loudness] with [n_fft=64] under the stand-ins, 640 samples
    (0.04 s at 16000 Hz) that all hold 1, and the loudness curves of a batch
    at 16000 Hz and 50 frames per second. *)
Definition compute_loudness_64 (audio : tensor Qc) (sample_rate frame_rate : Z)
    : result (tensor Qc) :=
  @spectral.compute_loudness Qc _ frame_stft (fun x => x) (fun x => x)
    flat_weighting audio sample_rate frame_rate 64 (s_of_Z 120) (lit 207 10).

Definition ones_640 : tensor1 Qc := repeat (s_of_Z 1) 640.

Definition loudness_curves (audio : tensor2 Qc) : tensor2 Qc :=
  match compute_loudness_64 (Rank2 audio) 16000 50 with
  | Ok (Rank2 curves) => curves
  | _ => []
  end.

(** A stand-in for CREPE: a track of 440 Hz with one value per step of
    [step_size] milliseconds. *)
Definition constant_track (audio : list Qc) (sr : Z) (viterbi : bool)
    (step_size : float) : list Qc :=
  repeat (s_of_Z 440)
         (Z.to_nat (1 + Z.of_nat (length audio) * 1000 / (sr * PyFloat.trunc step_size))).

Definition compute_f0_Qc :=
  @spectral.compute_f0 Qc _ constant_track (fun x => x).

(** [FilteredNoise] for eight samples without a scaling function, and a
    stream of samples that all are 1/2. *)
Definition noise_unscaled : @FilteredNoise.t Qc :=
  {| FilteredNoise.filter_size := 257;
     FilteredNoise.n_samples := 8;
     FilteredNoise.scale_fn := None;
     FilteredNoise.initial_bias := s_of_Z (-5);
     FilteredNoise.amplitude := s_of_Z 1 |}.

Definition half_stream (k : nat) : Qc := lit 1 2.

(** Synthesis routines that return silence of the shape [batch, n_samples],
    the batch being that of the frequencies. *)
Definition silent_batch_synth : Synth Qc := {|
  harmonic_synthesis := fun f a d n sr => map (fun _ => repeat 0%Qc n) f;
  resample_frames := fun e n => map (fun m => repeat (hd [] m) n) e;
  oscillator_bank := fun fe ae sr => map (map (fun _ => 0%Qc)) fe;
  fir_filter := fun audio fr size => audio;
  wavetable_synthesis := fun f a w n sr => repeat (repeat 0%Qc n) (first_dim f)
|}.

(** Two batch elements of one frame: fundamentals of 100 Hz and 5000 Hz, and
    two channels 1 each. *)
Definition f0_pair : tensor3 Qc := [[[s_of_Z 100]]; [[s_of_Z 5000]]].
Definition distribution_pair : tensor3 Qc :=
  [[[s_of_Z 1; s_of_Z 1]]; [[s_of_Z 1; s_of_Z 1]]].

(** A configuration whose three weights are zero and whose overlap is not a
    number. *)
Definition silent_nan_loss : @spectral.SpectralLoss Qc :=
  {| spectral.fft_sizes := [64%Z; 128%Z];
     spectral.overlap := nan;
     spectral.sample_rate := 16000%Z;
     spectral.mag_w := 0%Qc;
     spectral.log_mag_w := 0%Qc;
     spectral.loud_w := 0%Qc |}.

(** The magnitude-only configuration over binary64 with two resolutions, and
    a batch of one row of 256 samples that all hold 2^700: finite values
    whose square is not. *)
Definition magnitude_loss_float_2 : @spectral.SpectralLoss float :=
  {| spectral.fft_sizes := [64%Z; 128%Z];
     spectral.overlap := 0.75%float;
     spectral.sample_rate := 16000%Z;
     spectral.mag_w := 1%float;
     spectral.log_mag_w := 0%float;
     spectral.loud_w := 0%float |}.

Definition audio_huge : tensor2 float := [repeat 0x1p+700%float 256].

End Examples.

(** ** Proof automation *)

(** Ring identities over the rational instance of [Scalar]. *)
Ltac Qc_ring :=
  change (@s_add Qc Qc_Scalar) with Qcplus;
  change (@s_sub Qc Qc_Scalar) with Qcminus;
  change (@s_mul Qc Qc_Scalar) with Qcmult;
  change (@zero Qc Qc_Scalar) with 0%Qc;
  change (@one Qc Qc_Scalar) with 1%Qc;
  change (Q2Qc (inject_Z 0)) with 0%Qc;
  change (Q2Qc (inject_Z 1)) with 1%Qc;
  ring.

(** Evaluation of a closed equation between rationals. *)
Ltac Qc_eval := apply Qc_is_canon; vm_compute; reflexivity.

(** * Properties *)

(** ** The result monad *)

Lemma mapM_length {A B : Type} (f : A -> result B) (l : list A) (r : list B) :
  mapM f l = Ok r -> length r = length l.
Proof.
  revert r. induction l as [|a l IH]; intros r; simpl.
  - intros E. inversion E. reflexivity.
  - destruct (f a) as [b|e]; simpl; [|discriminate].
    destruct (mapM f l) as [bs|e]; simpl; [|discriminate].
    intros E. inversion E. simpl. f_equal. apply IH. reflexivity.
Qed.

Lemma mapM_defined {A B : Type} (f : A -> result B) (l : list A) :
  (forall a, In a l -> exists b, f a = Ok b) -> exists r, mapM f l = Ok r.
Proof.
  induction l as [|a l IH]; simpl; intros E.
  - eexists. reflexivity.
  - destruct (E a (or_introl eq_refl)) as [b ->]. simpl.
    destruct IH as [r ->]; [intros a' Ha'; apply E; right; exact Ha'|].
    simpl. eexists. reflexivity.
Qed.

Section SpectralFacts.

Context {T : Type} `{Scalar T}.
Variable stft : tensor2 T -> Z -> option (list T) -> Z -> bool -> tensor3 (T * T).
Variable hann_window : Z -> list T.
Variable log sqrt log10 : T -> T.
Variable eps : T.
Variable A_weighting : Z -> Z -> list T.

Local Abbreviation MultiscaleFFT := (spectral.MultiscaleFFT stft hann_window).
Local Abbreviation accumulate := (spectral.accumulate log eps).
Local Abbreviation forward := (spectral.forward stft hann_window log sqrt log10 eps A_weighting).

Lemma MultiscaleFFT_defined (audio : tensor2 T) (sizes : list Z) (overlap : float) :
  hops_defined overlap sizes = true ->
  exists specs, MultiscaleFFT audio sizes overlap = Ok specs /\
                length specs = length sizes.
Proof.
  intros Hh. unfold spectral.MultiscaleFFT.
  match goal with |- context [mapM ?f sizes] => destruct (mapM_defined f sizes) as [r Hr] end.
  - intros size Hin. unfold hops_defined in Hh.
    rewrite forallb_forall in Hh. specialize (Hh size Hin).
    destruct (spectral.hop_length overlap size); [|discriminate].
    simpl. eexists. reflexivity.
  - exists r. split; [exact Hr|]. eapply mapM_length; exact Hr.
Qed.

(** With both tests of the loop failing, the loop leaves [loss] as it is. *)
Lemma accumulate_skips (self : spectral.SpectralLoss) target_specs lt red :
  s_ltb zero (spectral.mag_w self) = false ->
  s_ltb zero (spectral.log_mag_w self) = false ->
  forall specs i loss,
    i + length specs <= length target_specs ->
    accumulate self target_specs lt red i specs loss = Ok loss.
Proof.
  intros Hm Hl. induction specs as [|spec rest IH]; intros i loss Hlen; simpl.
  - reflexivity.
  - simpl in Hlen.
    destruct (nth_error target_specs i) as [ts|] eqn:E.
    + rewrite Hm, Hl. simpl. apply IH. lia.
    + apply nth_error_None in E. lia.
Qed.

(** For a [loss_type] outside the three tested ones, [loss_func] is [None]. *)
Lemma loss_func_unsupported (a b : list T) lt red :
  ~ supported lt -> spectral.loss_func a b lt red = None.
Proof.
  intros Hn. unfold spectral.loss_func.
  destruct (String.eqb lt "L1") eqn:E1.
  { apply String.eqb_eq in E1. exfalso. apply Hn. left. exact E1. }
  destruct (String.eqb lt "MSE") eqn:E2.
  { apply String.eqb_eq in E2. exfalso. apply Hn. right. left. exact E2. }
  destruct (String.eqb lt "smooth_L1") eqn:E3.
  { apply String.eqb_eq in E3. exfalso. apply Hn. right. right. exact E3. }
  reflexivity.
Qed.

(** With an unsupported [loss_type] the loop can only return the loss it
    started from. *)
Lemma accumulate_unsupported (self : spectral.SpectralLoss) target_specs lt red :
  ~ supported lt ->
  forall specs i loss v,
    accumulate self target_specs lt red i specs loss = Ok v ->
    v = loss /\
    (specs = [] \/ (s_ltb zero (spectral.mag_w self) = false /\
                    s_ltb zero (spectral.log_mag_w self) = false)).
Proof.
  intros Hn. induction specs as [|spec rest IH]; intros i loss v; simpl.
  - intros E. inversion E. split; [reflexivity | left; reflexivity].
  - destruct (nth_error target_specs i) as [ts|]; [|discriminate].
    destruct (s_ltb zero (spectral.mag_w self)).
    { rewrite loss_func_unsupported by exact Hn. simpl. discriminate. }
    destruct (s_ltb zero (spectral.log_mag_w self)).
    { rewrite loss_func_unsupported by exact Hn. simpl. discriminate. }
    simpl. intros E. apply IH in E. destruct E as [-> _].
    split; [reflexivity | right; split; reflexivity].
Qed.

(** C10, as the code has it. When the three weights are at most zero and
    the spectrograms of the two audio batches are returned (lines 197-198
    compute them before any weight is tested), [forward] returns exactly the
    initial [0.0], whatever the two batches hold and whatever the loss type:
    no distance is evaluated. When [MultiscaleFFT] raises for the input, or
    returns for the input and raises for the target, [forward] raises the
    same exception, whatever the weights. *)
Theorem forward_nonpositive_weights {O : @OrderedScalar T _}
    (self : spectral.SpectralLoss) (input_audio target_audio : tensor2 T)
    (loss_type reduction : string) :
  s_leb (spectral.mag_w self) zero = true ->
  s_leb (spectral.log_mag_w self) zero = true ->
  s_leb (spectral.loud_w self) zero = true ->
  (forall specs target_specs,
     MultiscaleFFT input_audio (spectral.fft_sizes self) (spectral.overlap self)
     = Ok specs ->
     MultiscaleFFT target_audio (spectral.fft_sizes self) (spectral.overlap self)
     = Ok target_specs ->
     forward self input_audio target_audio loss_type reduction = Ok zero) /\
  (forall e,
     MultiscaleFFT input_audio (spectral.fft_sizes self) (spectral.overlap self)
     = Raise e ->
     forward self input_audio target_audio loss_type reduction = Raise e) /\
  (forall specs e,
     MultiscaleFFT input_audio (spectral.fft_sizes self) (spectral.overlap self)
     = Ok specs ->
     MultiscaleFFT target_audio (spectral.fft_sizes self) (spectral.overlap self)
     = Raise e ->
     forward self input_audio target_audio loss_type reduction = Raise e).
Proof.
  intros Hm Hl Hd.
  apply s_leb_not_ltb in Hm, Hl, Hd.
  split; [|split].
  - intros specs tspecs Hs Ht.
    pose proof (mapM_length _ _ Hs) as Ls. pose proof (mapM_length _ _ Ht) as Lt.
    unfold spectral.forward. rewrite Hs, Ht. cbn [bind].
    rewrite accumulate_skips by (assumption || (simpl; lia)).
    cbn [bind]. rewrite Hd. reflexivity.
  - intros e Hs. unfold spectral.forward. rewrite Hs. reflexivity.
  - intros specs e Hs Ht. unfold spectral.forward. rewrite Hs, Ht. reflexivity.
Qed.

(** C5, as the code has it. For a [loss_type] other than 'L1', 'MSE' and
    'smooth_L1': nothing is checked at construction; once the spectrograms
    of the two audio batches are returned (lines 197-198), [forward] raises a
    TypeError at the first resolution when [mag_w > 0] or [log_mag_w > 0]
    and there is a resolution; the only value [forward] can return is the
    initial [0.0]; and it does return it, without a word, when the
    spectrograms are returned and no weighted term is evaluated ([loud_w > 0]
    fails, and there is no resolution or both [mag_w > 0] and
    [log_mag_w > 0] fail). An exception of [MultiscaleFFT] on the input is
    the exception of [forward]: [loss_type] is not read before line 205. *)
Theorem forward_unsupported_loss_type
    (self : spectral.SpectralLoss) (input_audio target_audio : tensor2 T)
    (loss_type reduction : string) :
  ~ supported loss_type ->
  (forall specs target_specs,
     MultiscaleFFT input_audio (spectral.fft_sizes self) (spectral.overlap self)
     = Ok specs ->
     MultiscaleFFT target_audio (spectral.fft_sizes self) (spectral.overlap self)
     = Ok target_specs ->
     spectral.fft_sizes self <> [] ->
     s_ltb zero (spectral.mag_w self) = true \/
     s_ltb zero (spectral.log_mag_w self) = true ->
     forward self input_audio target_audio loss_type reduction = Raise TypeError)
  /\
  (forall v,
     forward self input_audio target_audio loss_type reduction = Ok v ->
     v = zero /\
     s_ltb zero (spectral.loud_w self) = false /\
     (spectral.fft_sizes self = [] \/
      (s_ltb zero (spectral.mag_w self) = false /\
       s_ltb zero (spectral.log_mag_w self) = false)))
  /\
  (forall specs target_specs,
     MultiscaleFFT input_audio (spectral.fft_sizes self) (spectral.overlap self)
     = Ok specs ->
     MultiscaleFFT target_audio (spectral.fft_sizes self) (spectral.overlap self)
     = Ok target_specs ->
     s_ltb zero (spectral.loud_w self) = false ->
     spectral.fft_sizes self = [] \/
     (s_ltb zero (spectral.mag_w self) = false /\
      s_ltb zero (spectral.log_mag_w self) = false) ->
     forward self input_audio target_audio loss_type reduction = Ok zero)
  /\
  (forall e,
     MultiscaleFFT input_audio (spectral.fft_sizes self) (spectral.overlap self)
     = Raise e ->
     forward self input_audio target_audio loss_type reduction = Raise e).
Proof.
  intros Hn. split; [|split; [|split]].
  - intros specs tspecs Hs Ht Hne Hw.
    pose proof (mapM_length _ _ Hs) as Ls. pose proof (mapM_length _ _ Ht) as Lt.
    unfold spectral.forward. rewrite Hs, Ht. cbn [bind].
    destruct (spectral.fft_sizes self) as [|size sizes]; [contradiction|].
    destruct specs as [|spec specs]; [discriminate|].
    destruct tspecs as [|tspec tspecs]; [discriminate|].
    simpl.
    destruct (s_ltb zero (spectral.mag_w self)).
    { rewrite loss_func_unsupported by exact Hn. reflexivity. }
    destruct Hw as [Hw|Hw]; [discriminate|]. rewrite Hw.
    rewrite loss_func_unsupported by exact Hn. reflexivity.
  - intros v. unfold spectral.forward.
    destruct (MultiscaleFFT input_audio _ _) as [specs|] eqn:Es; [|discriminate].
    destruct (MultiscaleFFT target_audio _ _) as [tspecs|]; [|discriminate].
    simpl.
    destruct (accumulate self tspecs loss_type reduction 0 specs zero) as [l|] eqn:Ea;
      [|discriminate].
    simpl. apply accumulate_unsupported in Ea; [|exact Hn].
    destruct Ea as [-> Hs].
    destruct (s_ltb zero (spectral.loud_w self)).
    { destruct (spectral.compute_loudness_default stft sqrt log10 A_weighting
                  input_audio _); [|discriminate].
      simpl.
      destruct (spectral.compute_loudness_default stft sqrt log10 A_weighting
                  target_audio _); [|discriminate].
      simpl. rewrite loss_func_unsupported by exact Hn. discriminate. }
    intros E. inversion E. split; [reflexivity|]. split; [reflexivity|].
    destruct Hs as [->|Hs]; [|right; exact Hs].
    left. apply mapM_length in Es. simpl in Es.
    destruct (spectral.fft_sizes self); [reflexivity|discriminate].
  - intros specs tspecs Hs Ht Hd Hcase.
    pose proof (mapM_length _ _ Hs) as Ls. pose proof (mapM_length _ _ Ht) as Lt.
    unfold spectral.forward. rewrite Hs, Ht. cbn [bind].
    destruct Hcase as [He|[Hm Hl]].
    + rewrite He in Ls. destruct specs; [|discriminate].
      cbn [spectral.accumulate bind]. rewrite Hd. reflexivity.
    + rewrite accumulate_skips by (assumption || (simpl; lia)).
      cbn [bind]. rewrite Hd. reflexivity.
  - intros e Hs. unfold spectral.forward. rewrite Hs. reflexivity.
Qed.

End SpectralFacts.

(** ** The two numeric substrates are ordered *)

Lemma Qcleb_not_Qcltb (x y : Qc) : Qcleb x y = true -> Qcltb y x = false.
Proof.
  unfold Qcleb, Qcltb, Qccompare. rewrite <- (Qcompare_antisym x y).
  destruct (x ?= y)%Q; simpl; congruence.
Qed.

Lemma Qc_OrderedScalar : @OrderedScalar Qc _.
Proof. constructor. exact Qcleb_not_Qcltb. Qed.

Lemma SFcompare_antisym (a b : spec_float) :
  SFcompare b a = option_map CompOpp (SFcompare a b).
Proof.
  destruct a as [sa|sa| |sa ma ea], b as [sb|sb| |sb mb eb]; simpl;
    try reflexivity;
    try (destruct sa; reflexivity);
    try (destruct sb; reflexivity);
    try (destruct sa, sb; reflexivity).
  rewrite (Z.compare_antisym ea eb).
  destruct sa, sb; try reflexivity;
    destruct (ea ?= eb)%Z; simpl; try reflexivity;
    rewrite (Pos.compare_cont_antisym ma mb Eq); reflexivity.
Qed.

Lemma float_leb_not_ltb (x y : float) :
  PrimFloat.leb x y = true -> PrimFloat.ltb y x = false.
Proof.
  rewrite FloatAxioms.leb_spec, FloatAxioms.ltb_spec. unfold SFleb, SFltb.
  rewrite (SFcompare_antisym (Prim2SF x) (Prim2SF y)).
  destruct (SFcompare (Prim2SF x) (Prim2SF y)) as [[| |]|]; simpl; congruence.
Qed.

Lemma float_OrderedScalar : @OrderedScalar float _.
Proof. constructor. exact float_leb_not_ltb. Qed.

(** ** SpectralLoss on concrete inputs *)

Lemma forward_nonpositive_weights_witness :
  s_leb (spectral.mag_w Examples.silent_loss) zero = true /\
  s_leb (spectral.log_mag_w Examples.silent_loss) zero = true /\
  s_leb (spectral.loud_w Examples.silent_loss) zero = true /\
  spectral.MultiscaleFFT Examples.frame_stft Examples.ones_window
    Examples.audio_a [64%Z; 128%Z] 0.75%float
  = Ok (Examples.spectrograms Examples.silent_loss Examples.audio_a) /\
  Examples.forward_Qc Examples.silent_loss Examples.audio_a Examples.audio_b
                      "L1" "mean" = Ok zero.
Proof.
  split; [reflexivity|]. split; [reflexivity|]. split; [reflexivity|].
  split; [reflexivity|].
  apply (proj1 (@forward_nonpositive_weights Qc _ Examples.frame_stft
                  Examples.ones_window (fun x => x) (fun x => x) (fun x => x)
                  0%Qc Examples.flat_weighting Qc_OrderedScalar
                  Examples.silent_loss Examples.audio_a Examples.audio_b
                  "L1" "mean" eq_refl eq_refl eq_refl)
               (Examples.spectrograms Examples.silent_loss Examples.audio_a)
               (Examples.spectrograms Examples.silent_loss Examples.audio_b));
    reflexivity.
Defined.

(** C10 fails as stated: the spectrograms are computed before any weight is
    tested. With the three weights at zero and an overlap that is not a
    number, the hop length [int((1-overlap)*size)] of the first resolution
    raises ValueError and [forward] returns nothing. (So it does, with a
    RuntimeError, when [torch.stft] refuses the audio, which is shorter than
    an FFT size.) *)
Lemma nonpositive_weights_but_raises :
  s_leb (spectral.mag_w Examples.silent_nan_loss) zero = true /\
  s_leb (spectral.log_mag_w Examples.silent_nan_loss) zero = true /\
  s_leb (spectral.loud_w Examples.silent_nan_loss) zero = true /\
  Examples.forward_Qc Examples.silent_nan_loss Examples.audio_a Examples.audio_b
                      "L1" "mean" = Raise ValueError /\
  Examples.forward_Qc Examples.silent_nan_loss Examples.audio_a Examples.audio_b
                      "L1" "mean" <> Ok zero.
Proof.
  split; [reflexivity|]. split; [reflexivity|]. split; [reflexivity|].
  split; [reflexivity | discriminate].
Qed.

Lemma unsupported_L2 : ~ supported "L2".
Proof. intros [E|[E|E]]; discriminate E. Qed.

(** C5 fails as stated: with the three weights at zero, an unsupported
    [loss_type] goes unnoticed and [forward] returns [0.0]. *)
Lemma unsupported_loss_type_returns_silently :
  ~ supported "L2" /\
  Examples.forward_Qc Examples.silent_loss Examples.audio_a Examples.audio_b
                      "L2" "mean" = Ok 0%Qc.
Proof. split; [exact unsupported_L2 | reflexivity]. Qed.

Lemma forward_unsupported_loss_type_witness :
  ~ supported "L2" /\
  Examples.forward_Qc Examples.default_loss Examples.audio_a Examples.audio_b
                      "L2" "mean" = Raise TypeError.
Proof.
  split; [exact unsupported_L2|].
  apply (proj1 (@forward_unsupported_loss_type Qc _ Examples.frame_stft
                  Examples.ones_window (fun x => x) (fun x => x) (fun x => x) 0%Qc
                  Examples.flat_weighting Examples.default_loss Examples.audio_a
                  Examples.audio_b "L2" "mean" unsupported_L2)
               (Examples.spectrograms Examples.default_loss Examples.audio_a)
               (Examples.spectrograms Examples.default_loss Examples.audio_b)).
  - reflexivity.
  - reflexivity.
  - discriminate.
  - left. reflexivity.
Defined.

(** ** Lists and tensors *)

Lemma nth_error_map2 {A B C : Type} (g : A -> B -> C) (a : list A) (b : list B)
    (i : nat) :
  nth_error (map2 g a b) i =
  match nth_error a i, nth_error b i with
  | Some x, Some y => Some (g x y)
  | _, _ => None
  end.
Proof.
  revert b i. induction a as [|x a IH]; intros b i.
  - destruct i; reflexivity.
  - destruct b as [|y b].
    + destruct i; simpl; [reflexivity|]. destruct (nth_error a i); reflexivity.
    + destruct i; simpl; [reflexivity | apply IH].
Qed.

Lemma Forall_map_length {A B : Type} (g : A -> list B) (n : nat) (l : list A) :
  (forall a, length (g a) = n) -> Forall (fun m => length m = n) (map g l).
Proof.
  intros Hg. apply Forall_forall. intros m Hin.
  apply in_map_iff in Hin. destruct Hin as [a [<- _]]. apply Hg.
Qed.

(** ** Generators *)

Section GeneratorFacts.

Context {T : Type} `{Scalar T} `{Synth T}.

Lemma harmonic_numbers_nth (n k : nat) :
  k < n ->
  nth_error (util.harmonic_numbers n) k = Some (s_of_Z (Z.of_nat (S k))).
Proof.
  intros Hk. unfold util.harmonic_numbers.
  rewrite nth_error_map, nth_error_nth' with (d := 0) by (rewrite length_seq; exact Hk).
  rewrite seq_nth by exact Hk. reflexivity.
Qed.

(** The frequency that line 41 computes for harmonic [k + 1] of a frame whose
    fundamental is [v]. *)
Lemma get_harmonic_frequencies_at (f0 : tensor3 T) (n b f k : nat) (v : T) :
  at2 f0 b f = Some [v] -> k < n ->
  at3 (util.get_harmonic_frequencies f0 n) b f k
  = Some (s_mul v (s_of_Z (Z.of_nat (S k)))).
Proof.
  unfold at3, at2, util.get_harmonic_frequencies. intros Hv Hk.
  rewrite nth_error_map.
  destruct (nth_error f0 b) as [row|]; [|discriminate]. simpl.
  rewrite nth_error_map, Hv. simpl.
  rewrite nth_error_map, harmonic_numbers_nth by exact Hk. reflexivity.
Qed.

Lemma remove_above_nyquist_at (hf hd : tensor3 T) (sr : Z) (b f k : nat) (x a : T) :
  at3 hf b f k = Some x -> at3 hd b f k = Some a ->
  at3 (util.remove_above_nyquist hf hd sr) b f k
  = Some (if s_leb (util.nyquist sr) x then zero else a).
Proof.
  unfold at3, at2, util.remove_above_nyquist. intros Hx Ha.
  rewrite nth_error_map2.
  destruct (nth_error hf b) as [rf|]; [|discriminate].
  destruct (nth_error hd b) as [rd|]; [|discriminate].
  rewrite nth_error_map2.
  destruct (nth_error rf f) as [ff|]; [|discriminate].
  destruct (nth_error rd f) as [fd|]; [|discriminate].
  rewrite nth_error_map2, Hx, Ha. reflexivity.
Qed.

(** What lines 39-42 leave in channel [k] of a frame. *)
Lemma bandlimited_distribution_at (self : Additive.t)
    (harmonic_distribution f0_hz : tensor3 T) (b f k : nat) (v a : T) :
  Additive.normalize_below_nyquist self = true ->
  at2 f0_hz b f = Some [v] ->
  at3 (Additive.scale self harmonic_distribution) b f k = Some a ->
  k < last_dim (Additive.scale self harmonic_distribution) ->
  at3 (Additive.bandlimited_distribution self harmonic_distribution f0_hz) b f k
  = Some (if s_leb (util.nyquist (Additive.sample_rate self))
                   (s_mul v (s_of_Z (Z.of_nat (S k))))
          then zero else a).
Proof.
  intros Hn Hv Ha Hk.
  unfold Additive.bandlimited_distribution, Additive.bandlimit. rewrite Hn.
  apply remove_above_nyquist_at; [|exact Ha].
  apply get_harmonic_frequencies_at; assumption.
Qed.


Lemma rand_length (uniform : nat -> T) (batch_size n : nat) :
  audio_length n (FilteredNoise.rand uniform batch_size n).
Proof.
  unfold audio_length, FilteredNoise.rand. apply Forall_map_length.
  intros b. rewrite length_map, length_seq. reflexivity.
Qed.

Lemma expand_f0_batch (f0_hz : tensor T) :
  ndim f0_hz <> 1 ->
  exists f0, Additive.expand_f0 f0_hz = Ok f0 /\ length f0 = first_dim f0_hz.
Proof.
  intros Hr. destruct f0_hz as [x|x|x]; simpl in *.
  - congruence.
  - eexists. split; [reflexivity|]. apply length_map.
  - eexists. split; reflexivity.
Qed.

(** Line 119 of [FilteredNoise.forward]: one row of [n] values per batch
    element. *)
Lemma noise_shape (uniform : nat -> T) (g : T -> T) (batch n : nat) :
  audio_shape batch n (map (map g) (FilteredNoise.rand uniform batch n)).
Proof.
  split.
  - unfold FilteredNoise.rand. rewrite !length_map, length_seq. reflexivity.
  - unfold audio_length. rewrite Forall_map.
    eapply Forall_impl; [|apply rand_length].
    intros row Hrow. rewrite length_map. exact Hrow.
Qed.

(** C4. Given the result shapes of the synthesis routines of [util], the
    audio that each generator returns has the shape [batch, n_samples]: one
    row for every batch element of its controls (of [f0_hz], of the
    frequencies, of [freq_response]), and [n_samples] samples in every row,
    where [n_samples] is the argument when one is passed and the value
    configured at construction when it is omitted. *)
Theorem generators_output_length {SS : SynthShapes _} :
  (forall (self : Additive.t) amplitudes harmonic_distribution f0_hz,
      ndim f0_hz <> 1 ->
      (forall n, returns_shape (first_dim f0_hz) n
         (Additive.forward self amplitudes harmonic_distribution f0_hz (Some n))) /\
      returns_shape (first_dim f0_hz) (Additive.n_samples self)
         (Additive.forward self amplitudes harmonic_distribution f0_hz None)) /\
  (forall (self : Sinusoids.t) amplitudes frequencies,
      keeps_batch (Sinusoids.freq_scale_fn self) ->
      (forall n, audio_shape (length frequencies) n
         (Sinusoids.forward self amplitudes frequencies (Some n))) /\
      audio_shape (length frequencies) (Sinusoids.n_samples self)
         (Sinusoids.forward self amplitudes frequencies None)) /\
  (forall uniform (self : FilteredNoise.t) freq_response,
      (forall n, audio_shape (length freq_response) n
         (FilteredNoise.forward uniform self freq_response (Some n))) /\
      audio_shape (length freq_response) (FilteredNoise.n_samples self)
         (FilteredNoise.forward uniform self freq_response None)) /\
  (forall (self : Wavetable.t) amplitudes wavetable f0_hz,
      (forall n, audio_shape (first_dim f0_hz) n
         (Wavetable.forward self amplitudes wavetable f0_hz (Some n))) /\
      audio_shape (first_dim f0_hz) (Wavetable.n_samples self)
         (Wavetable.forward self amplitudes wavetable f0_hz None)) /\
  (forall (self : SawOscillator.t) amplitudes f0_hz,
      (forall n, audio_shape (first_dim f0_hz) n
         (SawOscillator.forward self amplitudes f0_hz (Some n))) /\
      audio_shape (first_dim f0_hz) (SawOscillator.n_samples self)
         (SawOscillator.forward self amplitudes f0_hz None)).
Proof.
  split; [|split; [|split; [|split]]].
  - intros self amplitudes hd f0_hz Hr.
    destruct (expand_f0_batch f0_hz Hr) as [f0 [Hf Hb]].
    split; [intros n|]; unfold returns_shape, Additive.forward; rewrite Hf;
      cbn [bind]; eexists; (split; [reflexivity|]); rewrite <- Hb;
      apply harmonic_synthesis_shape.
  - intros self amplitudes frequencies Hk.
    assert (Hb : forall n,
               length (resample_frames
                         (match Sinusoids.freq_scale_fn self with
                          | Some f => f frequencies
                          | None => frequencies
                          end) n) = length frequencies).
    { intros n. rewrite (proj1 (resample_frames_shape _ n)).
      unfold keeps_batch in Hk.
      destruct (Sinusoids.freq_scale_fn self); [apply Hk | reflexivity]. }
    split; [intros n; rewrite <- (Hb n) | rewrite <- (Hb (Sinusoids.n_samples self))];
      unfold Sinusoids.forward; apply oscillator_bank_shape;
      apply resample_frames_shape.
  - intros uniform self freq_response.
    split; [intros n|]; unfold FilteredNoise.forward;
      apply fir_filter_shape; apply noise_shape.
  - intros self amplitudes wavetable f0_hz.
    split; [intros n|]; unfold Wavetable.forward; apply wavetable_synthesis_shape.
  - intros self amplitudes f0_hz.
    split; [intros n|]; unfold SawOscillator.forward; apply wavetable_synthesis_shape.
Qed.

End GeneratorFacts.

Lemma nyquist_example_by_evaluation (T : Type) {SC : Scalar T} :
  forallb (fun k => Bool.eqb (s_leb (util.nyquist 16000)
                                    (s_mul (s_of_Z 440) (s_of_Z (Z.of_nat (S k)))))
                             (18 <=? k))
          (seq 0 64) = true ->
  nyquist_example T.
Proof.
  intros Hall self hd f0 b f k a Hn Hsr Hv Hd Ha Hk.
  rewrite bandlimited_distribution_at with (v := s_of_Z 440) (a := a);
    try assumption; [|rewrite Hd; exact Hk].
  rewrite forallb_forall in Hall.
  specialize (Hall k). rewrite in_seq in Hall.
  rewrite Hsr. apply Bool.eqb_prop in Hall; [|lia]. rewrite Hall. reflexivity.
Qed.

(** C3. After the band-limiting call of [forward] (lines 39-42) and before
    the normalization, a channel whose harmonic frequency, f0 times the
    1-based harmonic number, is at least [sample_rate/2] holds exactly zero.
    With f0 = 440, a sample rate of 16000 and 64 harmonics these are the
    harmonics 19 to 64, in rational and in binary64 arithmetic. *)
Theorem bandlimit_zeroes_above_nyquist :
  (forall (T : Type) (SC : Scalar T) (self : @Additive.t T)
          (harmonic_distribution f0_hz : tensor3 T) (b f k : nat) (v a : T),
      Additive.normalize_below_nyquist self = true ->
      at2 f0_hz b f = Some [v] ->
      at3 (Additive.scale self harmonic_distribution) b f k = Some a ->
      k < last_dim (Additive.scale self harmonic_distribution) ->
      s_leb (util.nyquist (Additive.sample_rate self))
            (s_mul v (s_of_Z (Z.of_nat (S k)))) = true ->
      at3 (Additive.bandlimited_distribution self harmonic_distribution f0_hz) b f k
      = Some zero) /\
  nyquist_example Qc /\
  nyquist_example float.
Proof.
  split; [|split].
  - intros T SC self hd f0 b f k v a Hn Hv Ha Hk Hge.
    rewrite bandlimited_distribution_at with (v := v) (a := a); try assumption.
    rewrite Hge. reflexivity.
  - apply nyquist_example_by_evaluation. vm_compute. reflexivity.
  - apply nyquist_example_by_evaluation. vm_compute. reflexivity.
Qed.

Lemma bandlimit_zeroes_above_nyquist_witness :
  at3 (Additive.bandlimited_distribution Examples.additive_unscaled
         Examples.distribution_1_1 Examples.f0_5000) 0 0 1 = Some zero.
Proof.
  apply (proj1 bandlimit_zeroes_above_nyquist Qc _ Examples.additive_unscaled
           Examples.distribution_1_1 Examples.f0_5000 0 0 1
           (s_of_Z 5000) (s_of_Z 1));
    try reflexivity.
  simpl. lia.
Defined.

Lemma silent_batch_synth_shapes : SynthShapes Examples.silent_batch_synth.
Proof.
  constructor; simpl.
  - intros f a d n sr. split; [apply length_map|].
    apply Forall_map_length. intros _. apply repeat_length.
  - intros e n. split; [apply length_map|].
    apply Forall_map_length. intros m. apply repeat_length.
  - intros fe ae sr n Hfe _. split; [apply length_map|].
    unfold audio_length. rewrite Forall_map.
    eapply Forall_impl; [|exact Hfe]. intros m Hm. rewrite length_map. exact Hm.
  - intros audio fr size batch n Ha. exact Ha.
  - intros f a w n sr. split; [apply repeat_length|].
    unfold audio_length. apply Forall_forall. intros row Hrow.
    apply repeat_spec in Hrow. rewrite Hrow. apply repeat_length.
Qed.

#[local] Existing Instance Examples.silent_synth.

Lemma generators_output_length_witness :
  returns_shape 2 3
    (@Additive.forward Qc _ Examples.silent_batch_synth Examples.additive_unscaled
       Examples.distribution_pair Examples.distribution_pair
       (Rank3 Examples.f0_pair) (Some 3)) /\
  returns_shape 2 8
    (@Additive.forward Qc _ Examples.silent_batch_synth Examples.additive_unscaled
       Examples.distribution_pair Examples.distribution_pair
       (Rank3 Examples.f0_pair) None) /\
  audio_shape 2 3
    (@Sinusoids.forward Qc Examples.silent_batch_synth Examples.sinusoids_unscaled
       Examples.distribution_pair Examples.f0_pair (Some 3)) /\
  audio_shape 2 8
    (@Sinusoids.forward Qc Examples.silent_batch_synth Examples.sinusoids_unscaled
       Examples.distribution_pair Examples.f0_pair None) /\
  audio_shape 2 8
    (@FilteredNoise.forward Qc _ Examples.silent_batch_synth Examples.half_stream
       Examples.noise_unscaled Examples.distribution_pair None).
Proof.
  pose proof (@generators_output_length Qc _ Examples.silent_batch_synth
                silent_batch_synth_shapes) as [HA [HS [HN _]]].
  assert (Hr : ndim (Rank3 Examples.f0_pair) <> 1) by discriminate.
  destruct (HA Examples.additive_unscaled Examples.distribution_pair
               Examples.distribution_pair (Rank3 Examples.f0_pair) Hr) as [HA1 HA2].
  destruct (HS Examples.sinusoids_unscaled Examples.distribution_pair
               Examples.f0_pair I) as [HS1 HS2].
  destruct (HN Examples.half_stream Examples.noise_unscaled
               Examples.distribution_pair) as [_ HN2].
  split; [exact (HA1 3)|]. split; [exact HA2|]. split; [exact (HS1 3)|].
  split; [exact HS2 | exact HN2].
Defined.

(** ** Exact arithmetic: the harmonic distribution *)

Section RationalFacts.

Local Open Scope Qc_scope.

Lemma tsum_from (l : list Qc) (a : Qc) : fold_left Qcplus l a = a + tsum l.
Proof.
  unfold tsum. simpl. change (Q2Qc (inject_Z 0)) with 0.
  revert a. induction l as [|x l IH]; intros a; simpl.
  - ring.
  - rewrite IH, (IH (0 + x)). ring.
Qed.

Lemma tsum_cons (x : Qc) (l : list Qc) : tsum (x :: l) = x + tsum l.
Proof.
  unfold tsum at 1. simpl. rewrite tsum_from.
  change (Q2Qc (inject_Z 0)) with 0. ring.
Qed.

Lemma tsum_nil : tsum (@nil Qc) = 0.
Proof. reflexivity. Qed.

Lemma tsum_nonnegative (l : list Qc) :
  Forall (fun x => 0 <= x) l -> 0 <= tsum l.
Proof.
  induction 1 as [|x l Hx _ IH].
  - rewrite tsum_nil. apply Qcle_refl.
  - rewrite tsum_cons. rewrite <- (Qcplus_0_l 0). apply Qcplus_le_compat; assumption.
Qed.

Lemma tsum_positive (l : list Qc) :
  Forall (fun x => 0 <= x) l -> Exists (fun x => x <> 0) l -> 0 < tsum l.
Proof.
  intros Hn He. induction He as [x l Hx | x l He IH].
  - inversion Hn as [|? ? H0x Hl]; subst. rewrite tsum_cons.
    apply Qclt_le_trans with (y := x).
    + destruct (Qcle_lt_or_eq _ _ H0x) as [Hlt|Heq]; [exact Hlt | congruence].
    + rewrite <- (Qcplus_0_r x) at 1. apply Qcplus_le_compat;
        [apply Qcle_refl | apply tsum_nonnegative; exact Hl].
  - inversion Hn as [|? ? H0x Hl]; subst. rewrite tsum_cons.
    apply Qclt_le_trans with (y := tsum l); [apply IH; exact Hl|].
    rewrite <- (Qcplus_0_l (tsum l)) at 1. apply Qcplus_le_compat;
      [exact H0x | apply Qcle_refl].
Qed.

Lemma tsum_scaled (l : list Qc) (s : Qc) :
  tsum (map (fun x => x / s) l) = tsum l / s.
Proof.
  induction l as [|x l IH]; simpl.
  - rewrite tsum_nil. unfold Qcdiv. ring.
  - rewrite !tsum_cons, IH. unfold Qcdiv. ring.
Qed.

Lemma Qcdiv_nonnegative (x s : Qc) : 0 <= x -> 0 < s -> 0 <= x / s.
Proof.
  intros Hx Hs. apply Qcmult_lt_0_le_reg_r with (z := s); [exact Hs|].
  rewrite Qcmult_0_l. unfold Qcdiv. rewrite <- Qcmult_assoc, Qcmult_inv_l, Qcmult_1_r.
  - exact Hx.
  - intros E. rewrite E in Hs. exact (Qclt_not_eq _ _ Hs eq_refl).
Qed.

(** Line 45 on one frame whose values are non-negative and not all zero. *)
Lemma normalize_frame_sums_to_one (frame : list Qc) :
  Forall (fun x => 0 <= x) frame -> Exists (fun x => x <> 0) frame ->
  Forall (fun x => 0 <= x) (Additive.normalize_frame frame) /\
  tsum (Additive.normalize_frame frame) = 1.
Proof.
  intros Hn He. pose proof (tsum_positive Hn He) as Hs.
  unfold Additive.normalize_frame. simpl. split.
  - rewrite Forall_map. eapply Forall_impl; [|exact Hn].
    intros x Hx. apply Qcdiv_nonnegative; assumption.
  - rewrite tsum_scaled. unfold Qcdiv. apply Qcmult_inv_r.
    intros E. rewrite E in Hs. exact (Qclt_not_eq _ _ Hs eq_refl).
Qed.

(** C2, as the code has it. When the distribution is non-negative after
    scaling and band-limiting (as it is under the default [exp_sigmoid]
    scaling) and some channel of every frame is non-zero, then after line 45
    the values of every frame of every batch element are non-negative and,
    in exact arithmetic, sum to 1. *)
Theorem normalized_distribution_sums_to_one (self : @Additive.t Qc)
    (harmonic_distribution f0_hz : tensor3 Qc) :
  nonnegative (Additive.bandlimited_distribution self harmonic_distribution f0_hz) ->
  nondegenerate (Additive.bandlimited_distribution self harmonic_distribution f0_hz) ->
  normalized (Additive.normalized_distribution self harmonic_distribution f0_hz).
Proof.
  unfold Additive.normalized_distribution, Additive.normalize.
  generalize (Additive.bandlimited_distribution self harmonic_distribution f0_hz).
  intros hd Hn Hd. unfold normalized, nonnegative, nondegenerate in *.
  rewrite Forall_map.
  rewrite Forall_forall in *. intros row Hrow.
  specialize (Hn row Hrow). specialize (Hd row Hrow).
  rewrite Forall_map. rewrite Forall_forall in *. intros frame Hframe.
  apply normalize_frame_sums_to_one; auto.
Qed.

End RationalFacts.

Lemma normalized_distribution_sums_to_one_witness :
  nonnegative (Additive.bandlimited_distribution Examples.additive_unscaled
                 Examples.distribution_1_1 Examples.f0_100) /\
  nondegenerate (Additive.bandlimited_distribution Examples.additive_unscaled
                   Examples.distribution_1_1 Examples.f0_100) /\
  normalized (Additive.normalized_distribution Examples.additive_unscaled
                Examples.distribution_1_1 Examples.f0_100).
Proof.
  assert (Hn : nonnegative (Additive.bandlimited_distribution
                 Examples.additive_unscaled Examples.distribution_1_1 Examples.f0_100)).
  { repeat constructor; discriminate. }
  assert (Hd : nondegenerate (Additive.bandlimited_distribution
                 Examples.additive_unscaled Examples.distribution_1_1 Examples.f0_100)).
  { repeat constructor. discriminate. }
  split; [exact Hn|]. split; [exact Hd|].
  exact (normalized_distribution_sums_to_one _ _ _ Hn Hd).
Defined.

(** C2 fails as stated: without a scaling function the distribution [2, -1]
    of a 100 Hz frame is non-degenerate after band-limiting, it already sums
    to 1, and line 45 leaves the negative value in place. *)
Lemma nondegenerate_but_negative :
  nondegenerate (Additive.bandlimited_distribution Examples.additive_unscaled
                   Examples.distribution_2_m1 Examples.f0_100) /\
  at3 (Additive.normalized_distribution Examples.additive_unscaled
         Examples.distribution_2_m1 Examples.f0_100) 0 0 1 = Some (s_of_Z (-1)) /\
  ~ normalized (Additive.normalized_distribution Examples.additive_unscaled
                  Examples.distribution_2_m1 Examples.f0_100).
Proof.
  split; [|split].
  - repeat constructor. discriminate.
  - vm_compute. reflexivity.
  - intros Hn. unfold normalized in Hn.
    inversion Hn as [|row rows Hrow _]; subst.
    inversion Hrow as [|frame frames [Hframe _] _]; subst.
    inversion Hframe as [|x xs _ Hxs]; subst.
    inversion Hxs as [|y ys Hy _]; subst.
    revert Hy. vm_compute. intros Hy. apply Hy. reflexivity.
Qed.

(** ** Exact arithmetic: the spectral loss *)

Lemma nth_error_skipn_cons {A : Type} (l : list A) (i : nat) (x : A) :
  nth_error l i = Some x -> skipn i l = x :: skipn (S i) l.
Proof.
  revert i. induction l as [|y l IH]; intros i E.
  - destruct i; discriminate.
  - destruct i; simpl in *.
    + inversion E. reflexivity.
    + apply IH. exact E.
Qed.

Lemma loss_func_supported {T : Type} `{Scalar T} (a b : list T) lt red d :
  distance_of lt = Some d ->
  spectral.loss_func a b lt red = Some (mean_distance d a b).
Proof.
  unfold distance_of, spectral.loss_func.
  destruct (String.eqb lt "L1"); [intros E; inversion E; reflexivity|].
  destruct (String.eqb lt "MSE"); [intros E; inversion E; reflexivity|].
  destruct (String.eqb lt "smooth_L1"); [intros E; inversion E; reflexivity|].
  discriminate.
Qed.

Lemma supported_distance lt : supported lt -> exists d, distance_of lt = Some d.
Proof.
  intros [ -> | [ -> | -> ] ]; eexists; reflexivity.
Qed.

Section RationalLoss.

Local Open Scope Qc_scope.

Variable stft : tensor2 Qc -> Z -> option (list Qc) -> Z -> bool -> tensor3 (Qc * Qc).
Variable hann_window : Z -> list Qc.
Variable log sqrt log10 : Qc -> Qc.
Variable eps : Qc.
Variable A_weighting : Z -> Z -> list Qc.

Local Abbreviation MultiscaleFFT := (spectral.MultiscaleFFT stft hann_window).
Local Abbreviation accumulate := (spectral.accumulate log eps).
Local Abbreviation forward :=
  (spectral.forward stft hann_window log sqrt log10 eps A_weighting).
Local Abbreviation compute_loudness_default :=
  (spectral.compute_loudness_default stft sqrt log10 A_weighting).

(** The loop of lines 202-207 adds, to the loss it starts from, the terms of
    the resolutions it runs over. *)
Lemma accumulate_sum (self : spectral.SpectralLoss) target_specs lt red d :
  distance_of lt = Some d ->
  forall specs i loss,
    (i + length specs <= length target_specs)%nat ->
    accumulate self target_specs lt red i specs loss
    = Ok (loss + multiscale_loss log eps (spectral.mag_w self)
                   (spectral.log_mag_w self) d specs (skipn i target_specs)).
Proof.
  intros Hd. induction specs as [|spec rest IH]; intros i loss Hlen.
  - simpl. unfold multiscale_loss. simpl. rewrite tsum_nil. f_equal. Qc_ring.
  - simpl in Hlen. cbn [spectral.accumulate].
    destruct (nth_error target_specs i) as [tspec|] eqn:E;
      [|apply nth_error_None in E; lia].
    rewrite (nth_error_skipn_cons _ _ E).
    rewrite !loss_func_supported with (d := d) by exact Hd.
    unfold multiscale_loss. cbn [map2]. rewrite tsum_cons.
    fold (multiscale_loss log eps (spectral.mag_w self) (spectral.log_mag_w self) d
            rest (skipn (S i) target_specs)).
    unfold resolution_loss, weighted_term, spectral.log_eps.
    generalize (mean_distance d (flatten3 spec) (flatten3 tspec)).
    generalize (mean_distance d
                  (map (fun x => log (s_add x eps)) (flatten3 spec))
                  (map (fun x => log (s_add x eps)) (flatten3 tspec))).
    intros dl dm.
    destruct (s_ltb zero (spectral.mag_w self));
      destruct (s_ltb zero (spectral.log_mag_w self)); cbn [bind spectral.weighted];
      rewrite IH by lia; f_equal; Qc_ring.
Qed.

(** C1, as the code has it. For a supported loss type, [forward] is the sum
    over the configured FFT sizes of [mag_w] times the selected distance
    between the two magnitude spectrograms plus [log_mag_w] times that
    distance between their logarithms [log(spec + eps)], a weight [<= 0]
    contributing nothing and nothing being divided by the number of
    resolutions; when [loud_w > 0], [loud_w] times the distance between the
    two loudness curves is added to that sum. The equality is one of exact
    arithmetic. *)
Theorem forward_is_multiscale_sum (self : spectral.SpectralLoss)
    (input_audio target_audio : tensor2 Qc) (loss_type reduction : string)
    (d : distance) (specs target_specs : list (tensor3 Qc)) :
  distance_of loss_type = Some d ->
  MultiscaleFFT input_audio (spectral.fft_sizes self) (spectral.overlap self)
  = Ok specs ->
  MultiscaleFFT target_audio (spectral.fft_sizes self) (spectral.overlap self)
  = Ok target_specs ->
  (length specs = length (spectral.fft_sizes self) /\
   length target_specs = length (spectral.fft_sizes self)) /\
  (s_ltb zero (spectral.loud_w self) = false ->
   forward self input_audio target_audio loss_type reduction
   = Ok (multiscale_loss log eps (spectral.mag_w self) (spectral.log_mag_w self)
           d specs target_specs)) /\
  (s_ltb zero (spectral.loud_w self) = true ->
   forall input_l target_l,
     compute_loudness_default input_audio (spectral.sample_rate self) = Ok input_l ->
     compute_loudness_default target_audio (spectral.sample_rate self) = Ok target_l ->
     forward self input_audio target_audio loss_type reduction
     = Ok (multiscale_loss log eps (spectral.mag_w self) (spectral.log_mag_w self)
             d specs target_specs
           + spectral.loud_w self
             * mean_distance d (spectral.elements input_l)
                               (spectral.elements target_l))).
Proof.
  intros Hd Hs Ht.
  pose proof (mapM_length _ _ Hs) as Ls. pose proof (mapM_length _ _ Ht) as Lt.
  split; [split; assumption|].
  assert (Ha : accumulate self target_specs loss_type reduction 0 specs zero
               = Ok (multiscale_loss log eps (spectral.mag_w self)
                       (spectral.log_mag_w self) d specs target_specs)).
  { rewrite accumulate_sum with (d := d); [|exact Hd|simpl; lia].
    simpl. f_equal. Qc_ring. }
  split.
  - intros Hl. unfold spectral.forward. rewrite Hs, Ht. cbn [bind].
    rewrite Ha. cbn [bind]. rewrite Hl. reflexivity.
  - intros Hl input_l target_l Hi Hg. unfold spectral.forward.
    rewrite Hs, Ht. cbn [bind]. rewrite Ha. cbn [bind]. rewrite Hl, Hi, Hg.
    cbn [bind]. rewrite loss_func_supported with (d := d) by exact Hd.
    reflexivity.
Qed.

Lemma pointwise_self (d : distance) (x : Qc) : pointwise d x x = 0.
Proof.
  destruct d; simpl; unfold Qcminus; rewrite Qcplus_opp_r.
  - reflexivity.
  - Qc_ring.
  - Qc_eval.
Qed.

Lemma map2_pointwise_self (d : distance) (a : list Qc) :
  map2 (pointwise d) a a = repeat 0 (length a).
Proof.
  induction a as [|x a IH]; simpl; [reflexivity|].
  rewrite pointwise_self, IH. reflexivity.
Qed.

Lemma tsum_repeat_zero (n : nat) : tsum (repeat 0 n) = 0.
Proof.
  induction n as [|n IH]; simpl; [reflexivity|].
  rewrite tsum_cons, IH. ring.
Qed.

(** The distance between a tensor and itself. *)
Lemma mean_distance_self (d : distance) (a : list Qc) : mean_distance d a a = 0.
Proof.
  unfold mean_distance, tmean. rewrite map2_pointwise_self, tsum_repeat_zero.
  simpl. unfold Qcdiv. ring.
Qed.

Lemma weighted_term_zero (w : Qc) : weighted_term w 0 = 0.
Proof.
  unfold weighted_term. destruct (s_ltb zero w); [Qc_ring | reflexivity].
Qed.

Lemma multiscale_loss_self (mag_w log_mag_w : Qc) (d : distance)
    (specs : list (tensor3 Qc)) :
  multiscale_loss log eps mag_w log_mag_w d specs specs = 0.
Proof.
  unfold multiscale_loss. induction specs as [|spec specs IH]; cbn [map2].
  - reflexivity.
  - rewrite tsum_cons, IH. unfold resolution_loss.
    rewrite !mean_distance_self, !weighted_term_zero. Qc_ring.
Qed.

End RationalLoss.

(** C1 fails as stated: with [loud_w = 1] and the two spectral weights at
    zero the sum over the resolutions is 0, and [forward] returns the
    distance between the loudness curves of the two signals, here 0.2 s of
    ones against 0.2 s of silence (20 dB apart under the stand-ins). *)
Lemma loudness_term_outside_the_sum :
  Examples.forward_Qc Examples.loudness_only_loss
    (Examples.constant_audio 1) (Examples.constant_audio 0) "L1" "mean"
  = Ok (Q2Qc 20) /\
  multiscale_loss (fun x => x) 0%Qc
    (spectral.mag_w Examples.loudness_only_loss)
    (spectral.log_mag_w Examples.loudness_only_loss) Absolute
    (Examples.spectrograms Examples.loudness_only_loss (Examples.constant_audio 1))
    (Examples.spectrograms Examples.loudness_only_loss (Examples.constant_audio 0))
  = 0%Qc /\
  Q2Qc 20 <> 0%Qc.
Proof.
  split; [|split].
  - vm_compute. reflexivity.
  - Qc_eval.
  - discriminate.
Qed.

Lemma forward_is_multiscale_sum_witness :
  distance_of "L1" = Some Absolute /\
  Examples.forward_Qc Examples.default_loss Examples.audio_a Examples.audio_b
                      "L1" "mean"
  = Ok (multiscale_loss (fun x => x) 0%Qc 1%Qc 1%Qc Absolute
          (Examples.spectrograms Examples.default_loss Examples.audio_a)
          (Examples.spectrograms Examples.default_loss Examples.audio_b)).
Proof.
  split; [reflexivity|].
  refine (proj1 (proj2 (@forward_is_multiscale_sum Examples.frame_stft
            Examples.ones_window (fun x => x) (fun x => x) (fun x => x) 0%Qc
            Examples.flat_weighting Examples.default_loss Examples.audio_a
            Examples.audio_b "L1" "mean" Absolute
            (Examples.spectrograms Examples.default_loss Examples.audio_a)
            (Examples.spectrograms Examples.default_loss Examples.audio_b)
            eq_refl eq_refl eq_refl)) eq_refl).
Defined.


(** ** IEEE arithmetic: zeros and NaN *)

Section FloatFacts.

Lemma is_nan_of_Prim2SF (y : float) :
  Prim2SF y = S754_nan -> PrimFloat.is_nan y = true.
Proof.
  unfold Prim2SF. destruct (PrimFloat.is_nan y); [reflexivity|].
  destruct (PrimFloat.is_zero y); [discriminate|].
  destruct (PrimFloat.is_infinity y); [discriminate|].
  destruct (Z.frexp y) as [r e].
  destruct (shr_fexp _ _ _ _ _) as [shr e'].
  destruct (shr_m shr); discriminate.
Qed.

Lemma Prim2SF_of_is_nan (y : float) :
  PrimFloat.is_nan y = true -> Prim2SF y = S754_nan.
Proof. intros E. unfold Prim2SF. rewrite E. reflexivity. Qed.

(** [x == 0.0] holds of the two zeros only. *)
Lemma eqb_zero_inv (x : float) :
  PrimFloat.eqb x 0 = true -> exists s, Prim2SF x = S754_zero s.
Proof.
  rewrite FloatAxioms.eqb_spec. change (Prim2SF 0) with (S754_zero false).
  unfold SFeqb. destruct (Prim2SF x) as [s|s| |s m e]; simpl.
  - intros _. exists s. reflexivity.
  - destruct s; discriminate.
  - discriminate.
  - destruct s; discriminate.
Qed.

Lemma eqb_zero_intro (x : float) (s : bool) :
  Prim2SF x = S754_zero s -> PrimFloat.eqb x 0 = true.
Proof.
  intros E. rewrite FloatAxioms.eqb_spec, E. reflexivity.
Qed.

Lemma add_zeros (a x : float) (sa sx : bool) :
  Prim2SF a = S754_zero sa -> Prim2SF x = S754_zero sx ->
  exists s, Prim2SF (PrimFloat.add a x) = S754_zero s.
Proof.
  intros Ha Hx. rewrite FloatAxioms.add_spec, Ha, Hx.
  destruct sa, sx; eexists; reflexivity.
Qed.

(** 0/0 is NaN, whatever the signs of the zeros. *)
Lemma div_zeros (a x : float) (sa sx : bool) :
  Prim2SF a = S754_zero sa -> Prim2SF x = S754_zero sx ->
  PrimFloat.is_nan (PrimFloat.div a x) = true.
Proof.
  intros Ha Hx. apply is_nan_of_Prim2SF.
  rewrite FloatAxioms.div_spec, Ha, Hx. reflexivity.
Qed.

Lemma fold_add_zeros (l : list float) :
  Forall (fun x => PrimFloat.eqb x 0 = true) l ->
  forall a sa, Prim2SF a = S754_zero sa ->
  exists s, Prim2SF (fold_left PrimFloat.add l a) = S754_zero s.
Proof.
  induction 1 as [|x l Hx _ IH]; intros a sa Ha; simpl.
  - exists sa. exact Ha.
  - destruct (eqb_zero_inv Hx) as [sx Hsx].
    destruct (add_zeros _ _ Ha Hsx) as [s Hs].
    exact (IH _ _ Hs).
Qed.

(** The sum of a frame of zeros is a zero. *)
Lemma tsum_zeros (l : list float) :
  Forall (fun x => PrimFloat.eqb x 0 = true) l ->
  exists s, Prim2SF (tsum l) = S754_zero s.
Proof.
  intros Hl. unfold tsum. simpl.
  apply fold_add_zeros with (sa := false); [exact Hl | reflexivity].
Qed.

Lemma add_nan_l (a x : float) :
  PrimFloat.is_nan a = true -> PrimFloat.is_nan (PrimFloat.add a x) = true.
Proof.
  intros Ha. apply is_nan_of_Prim2SF.
  rewrite FloatAxioms.add_spec, (Prim2SF_of_is_nan _ Ha). reflexivity.
Qed.

Lemma add_nan_r (a x : float) :
  PrimFloat.is_nan x = true -> PrimFloat.is_nan (PrimFloat.add a x) = true.
Proof.
  intros Hx. apply is_nan_of_Prim2SF.
  rewrite FloatAxioms.add_spec, (Prim2SF_of_is_nan _ Hx).
  destruct (Prim2SF a); reflexivity.
Qed.

Lemma fold_add_nan (l : list float) (a : float) :
  PrimFloat.is_nan a = true \/ Exists (fun x => PrimFloat.is_nan x = true) l ->
  PrimFloat.is_nan (fold_left PrimFloat.add l a) = true.
Proof.
  revert a. induction l as [|x l IH]; intros a [Ha|He]; simpl.
  - exact Ha.
  - inversion He.
  - apply IH. left. apply add_nan_l. exact Ha.
  - apply IH. inversion He as [? ? Hx|? ? Hl]; subst.
    + left. apply add_nan_r. exact Hx.
    + right. exact Hl.
Qed.

(** Line 45 on a frame of zeros: every channel becomes NaN. *)
Lemma normalize_frame_zeros (frame : list float) :
  Forall (fun x => PrimFloat.eqb x 0 = true) frame ->
  PrimFloat.eqb (tsum frame) 0 = true /\
  Forall (fun x => PrimFloat.is_nan x = true) (Additive.normalize_frame frame).
Proof.
  intros Hz. destruct (tsum_zeros Hz) as [s Hs]. split.
  - exact (eqb_zero_intro _ Hs).
  - unfold Additive.normalize_frame. rewrite Forall_map.
    eapply Forall_impl; [|exact Hz]. intros x Hx. simpl.
    destruct (eqb_zero_inv Hx) as [sx Hsx].
    exact (div_zeros _ _ Hsx Hs).
Qed.

(** C7. When after band-limiting every channel of some frame is zero, the
    divisor of line 45 is zero for that frame and the division makes every
    channel of the frame NaN: nothing guards the division. The distribution
    handed to [harmonic_synthesis] holds these NaN, and, [harmonic_synthesis]
    propagating NaN as the specification describes it, the audio returned for
    that batch element contains NaN. Stated for IEEE binary64. *)
Theorem zero_frame_normalizes_to_nan {S : Synth float} {SN : SynthNaN S}
    (self : @Additive.t float) (amplitudes harmonic_distribution : tensor3 float)
    (f0_hz : tensor float) (f0 : tensor3 float) (n_samples : option nat)
    (b f : nat) (frames : list (list float)) (frame : list float) :
  Additive.expand_f0 f0_hz = Ok f0 ->
  nth_error (Additive.bandlimited_distribution self harmonic_distribution f0) b
  = Some frames ->
  nth_error frames f = Some frame ->
  frame <> [] ->
  Forall (fun x => PrimFloat.eqb x 0 = true) frame ->
  (let n := match n_samples with None => Additive.n_samples self | Some n => n end
   in 0 < n /\ length frames <= n) ->
  PrimFloat.eqb (tsum frame) 0 = true /\
  at2 (Additive.normalized_distribution self harmonic_distribution f0) b f
  = Some (map (fun x => PrimFloat.div x (tsum frame)) frame) /\
  Forall (fun x => PrimFloat.is_nan x = true)
         (map (fun x => PrimFloat.div x (tsum frame)) frame) /\
  exists audio row,
    Additive.forward self amplitudes harmonic_distribution f0_hz n_samples
    = Ok audio /\
    nth_error audio b = Some row /\
    Exists (fun x => PrimFloat.is_nan x = true) row.
Proof.
  intros Hf Hb Hfr Hne Hz [Hn Hlen].
  destruct (normalize_frame_zeros Hz) as [Hs Hnan].
  assert (Hd : nth_error (Additive.normalized_distribution self
                            harmonic_distribution f0) b
               = Some (map Additive.normalize_frame frames)).
  { unfold Additive.normalized_distribution, Additive.normalize.
    rewrite nth_error_map, Hb. reflexivity. }
  split; [exact Hs|]. split; [|split; [exact Hnan|]].
  - unfold at2. rewrite Hd, nth_error_map, Hfr. reflexivity.
  - unfold Additive.forward. rewrite Hf. cbn [bind].
    edestruct harmonic_synthesis_nan as [row [Hrow Hex]].
    + exact Hd.
    + rewrite nth_error_map, Hfr. reflexivity.
    + unfold Additive.normalize_frame. destruct frame; [congruence|discriminate].
    + exact Hnan.
    + exact Hn.
    + rewrite length_map. exact Hlen.
    + eexists. exists row. split; [reflexivity|]. split; [exact Hrow | exact Hex].
Qed.

End FloatFacts.

Lemma summing_synth_nan : SynthNaN Examples.summing_synth.
Proof.
  constructor. intros f a d n sr b fr frames frame Hb Hfr Hne Hnan Hn _.
  exists (repeat (tsum (concat frames)) n). split.
  - simpl. rewrite nth_error_map, Hb. reflexivity.
  - destruct n as [|n]; [lia|]. simpl. left.
    unfold tsum. apply fold_add_nan. right.
    apply Exists_exists. destruct frame as [|x frame]; [congruence|].
    exists x. split.
    + apply in_concat. exists (x :: frame). split; [|left; reflexivity].
      eapply nth_error_In. exact Hfr.
    + inversion Hnan. assumption.
Qed.

Lemma zero_frame_normalizes_to_nan_witness :
  nth_error (Additive.bandlimited_distribution Examples.additive_float
               Examples.distribution_float Examples.f0_9000) 0
  = Some [[0%float; 0%float]] /\
  Forall (fun x => PrimFloat.eqb x 0 = true) [0%float; 0%float] /\
  at2 (Additive.normalized_distribution Examples.additive_float
         Examples.distribution_float Examples.f0_9000) 0 0
  = Some [nan; nan] /\
  exists audio row,
    @Additive.forward float _ Examples.summing_synth Examples.additive_float
      Examples.distribution_float Examples.distribution_float
      (Rank3 Examples.f0_9000) None = Ok audio /\
    nth_error audio 0 = Some row /\
    Exists (fun x => PrimFloat.is_nan x = true) row.
Proof.
  assert (Hb : nth_error (Additive.bandlimited_distribution Examples.additive_float
                            Examples.distribution_float Examples.f0_9000) 0
               = Some [[0%float; 0%float]]) by reflexivity.
  assert (Hz : Forall (fun x => PrimFloat.eqb x 0 = true) [0%float; 0%float])
    by (repeat constructor).
  destruct (@zero_frame_normalizes_to_nan Examples.summing_synth summing_synth_nan
              Examples.additive_float Examples.distribution_float
              Examples.distribution_float (Rank3 Examples.f0_9000)
              Examples.f0_9000 None 0 0 [[0%float; 0%float]] [0%float; 0%float]
              eq_refl Hb eq_refl ltac:(discriminate) Hz
              ltac:(simpl; split; lia))
    as [_ [Hn [_ Ha]]].
  split; [exact Hb|]. split; [exact Hz|]. split; [exact Hn | exact Ha].
Defined.

(** ** Loudness *)

Lemma pad_or_trim_length {T : Type} `{Scalar T} (x : list T) (n : nat) (pad : T) :
  length (util.pad_or_trim_to_expected_length x n pad) = n.
Proof.
  unfold util.pad_or_trim_to_expected_length.
  rewrite length_app, length_firstn, repeat_length. lia.
Qed.

Lemma pad_or_trim_nth {T : Type} `{Scalar T} (x : list T) (n : nat) (pad : T)
    (j : nat) :
  j < n ->
  nth_error (util.pad_or_trim_to_expected_length x n pad) j
  = if j <? length x then nth_error x j else Some pad.
Proof.
  intros Hj. unfold util.pad_or_trim_to_expected_length.
  destruct (j <? length x) eqn:E.
  - apply Nat.ltb_lt in E.
    rewrite nth_error_app1 by (rewrite length_firstn; lia).
    rewrite nth_error_firstn. apply Nat.ltb_lt in Hj. rewrite Hj. reflexivity.
  - apply Nat.ltb_ge in E.
    rewrite nth_error_app2 by (rewrite length_firstn; lia).
    rewrite length_firstn. apply nth_error_repeat. lia.
Qed.

Lemma map_map2 {A B C D : Type} (g : C -> D) (h : A -> B -> C) (a : list A)
    (b : list B) :
  map g (map2 h a b) = map2 (fun x y => g (h x y)) a b.
Proof.
  revert b. induction a as [|x a IH]; intros [|y b]; simpl; try reflexivity.
  rewrite IH. reflexivity.
Qed.

Lemma map2_map_l {A A' B C : Type} (h : A' -> B -> C) (g : A -> A') (a : list A)
    (b : list B) :
  map2 h (map g a) b = map2 (fun x y => h (g x) y) a b.
Proof.
  revert b. induction a as [|x a IH]; intros [|y b]; simpl; try reflexivity.
  rewrite IH. reflexivity.
Qed.

Lemma map2_ext_in {A B C : Type} (h h' : A -> B -> C) (a : list A) (b : list B) :
  (forall x y, In x a -> h x y = h' x y) -> map2 h a b = map2 h' a b.
Proof.
  revert b. induction a as [|x a IH]; intros [|y b] E; simpl; try reflexivity.
  rewrite E by (left; reflexivity). rewrite IH; [reflexivity|].
  intros x' y' Hin. apply E. right. exact Hin.
Qed.

Section LoudnessFacts.

Context {T : Type} `{Scalar T}.
Variable stft : tensor2 T -> Z -> option (list T) -> Z -> bool -> tensor3 (T * T).
Variable sqrt log10 : T -> T.
Variable A_weighting : Z -> Z -> list T.

Local Abbreviation compute_loudness :=
  (spectral.compute_loudness stft sqrt log10 A_weighting).
Local Abbreviation bin_dB := (bin_loudness sqrt log10).
Local Abbreviation frame_dB := (frame_loudness sqrt log10).

(** Lines 111-122 on one batch element: each bin of each frame on its own. *)
Lemma weighted_loudness_bins (a_weighting : list T) (range_db ref_db : T)
    (s : tensor3 (T * T)) :
  spectral.weighted_loudness sqrt log10 a_weighting range_db ref_db s
  = map (fun m => map2 (fun row a => map (bin_dB range_db ref_db a) row)
                       m a_weighting) s.
Proof.
  unfold spectral.weighted_loudness. rewrite !map_map. apply map_ext. intros m.
  rewrite map2_map_l, !map_map2. apply map2_ext_in. intros row a _.
  rewrite !map_map. reflexivity.
Qed.

(** Line 125: the mean over the bins, frame by frame. *)
Lemma mean_over_bins (a_weighting : list T) (range_db ref_db : T)
    (m : list (list (T * T))) :
  length a_weighting = length m ->
  (forall row, In row m -> length row = n_frames m) ->
  map tmean (transpose (map2 (fun row a => map (bin_dB range_db ref_db a) row)
                             m a_weighting))
  = map (frame_dB a_weighting range_db ref_db m) (seq 0 (n_frames m)).
Proof.
  intros Hlen Hrect. unfold transpose.
  destruct m as [|row0 m'] eqn:Em; [reflexivity|].
  destruct a_weighting as [|a0 aw'] eqn:Ea; [discriminate|].
  rewrite <- Em, <- Ea. replace (n_frames m) with (length row0) by (rewrite Em; reflexivity).
  assert (E0 : map2 (fun row a => map (bin_dB range_db ref_db a) row) m a_weighting
               = map (bin_dB range_db ref_db a0) row0 ::
                 map2 (fun row a => map (bin_dB range_db ref_db a) row) m' aw').
  { rewrite Em, Ea. reflexivity. }
  rewrite E0 at 1. rewrite length_map, map_map.
  apply map_ext_in. intros j Hj. apply in_seq in Hj.
  unfold frame_loudness. f_equal.
  rewrite map_map2. apply map2_ext_in. intros row a Hin.
  assert (Hrow : length row = length row0).
  { rewrite (Hrect row) by (rewrite <- Em; exact Hin). reflexivity. }
  rewrite nth_indep with (d' := bin_dB range_db ref_db a (zero, zero))
    by (rewrite length_map; lia).
  apply map_nth.
Qed.

(** [compute_loudness] on a batch, step by step. *)
Lemma compute_loudness_batch (audio : tensor2 T) (sample_rate frame_rate n_fft : Z)
    (range_db ref_db : T) (e : Z) :
  frame_rate <> 0%Z ->
  spectral.expected_len (Z.of_nat (spectral.n_audio_samples audio))
                        sample_rate frame_rate = Ok e ->
  compute_loudness (Rank2 audio) sample_rate frame_rate n_fft range_db ref_db
  = Ok (Rank2
          (map (fun m =>
                  util.pad_or_trim_to_expected_length
                    (map tmean
                       (transpose
                          (map2 (fun row a => map (bin_dB range_db ref_db a) row)
                                m (A_weighting sample_rate n_fft))))
                    (Z.to_nat e) (s_opp range_db))
               (stft audio n_fft None (sample_rate / frame_rate)%Z true))).
Proof.
  intros Hfr He. unfold spectral.compute_loudness. cbn [bind ndim Nat.eqb].
  unfold PyFloat.floordiv. destruct (Z.eqb_spec frame_rate 0); [contradiction|].
  cbn [bind]. rewrite He. cbn [bind].
  rewrite weighted_loudness_bins, !map_map. reflexivity.
Qed.

(** [compute_loudness] on a single example, which line 103 turns into a
    batch of one. *)
Lemma compute_loudness_single (audio : tensor1 T) (sample_rate frame_rate n_fft : Z)
    (range_db ref_db : T) (e : Z) (m : list (list (T * T))) (rest : tensor3 (T * T)) :
  frame_rate <> 0%Z ->
  spectral.expected_len (Z.of_nat (length audio)) sample_rate frame_rate = Ok e ->
  stft [audio] n_fft None (sample_rate / frame_rate)%Z true = m :: rest ->
  compute_loudness (Rank1 audio) sample_rate frame_rate n_fft range_db ref_db
  = Ok (Rank1
          (util.pad_or_trim_to_expected_length
             (map tmean
                (transpose
                   (map2 (fun row a => map (bin_dB range_db ref_db a) row)
                         m (A_weighting sample_rate n_fft))))
             (Z.to_nat e) (s_opp range_db))).
Proof.
  intros Hfr He Hs. unfold spectral.compute_loudness. cbn [bind ndim Nat.eqb].
  unfold PyFloat.floordiv. destruct (Z.eqb_spec frame_rate 0); [contradiction|].
  cbn [bind spectral.n_audio_samples]. rewrite He. cbn [bind].
  rewrite weighted_loudness_bins, Hs. reflexivity.
Qed.

(** Lines 125 and 135 on one batch element: the curve has [n] frames, those
    of the STFT followed by the padding. *)
Lemma fixed_length_curve (a_weighting : list T) (range_db ref_db : T)
    (m : list (list (T * T))) (n : nat) :
  length a_weighting = length m ->
  (forall row, In row m -> length row = n_frames m) ->
  let curve :=
    util.pad_or_trim_to_expected_length
      (map tmean
         (transpose (map2 (fun row a => map (bin_dB range_db ref_db a) row)
                          m a_weighting)))
      n (s_opp range_db) in
  length curve = n /\
  forall j, j < n ->
    nth_error curve j
    = Some (if j <? n_frames m
            then frame_dB a_weighting range_db ref_db m j
            else s_opp range_db).
Proof.
  intros Hbins Hrect curve. split; [apply pad_or_trim_length|].
  intros j Hj. unfold curve. rewrite pad_or_trim_nth by exact Hj.
  rewrite mean_over_bins by assumption.
  rewrite length_map, length_seq.
  destruct (j <? n_frames m) eqn:E; [|reflexivity].
  apply Nat.ltb_lt in E.
  rewrite nth_error_map, nth_error_nth' with (d := 0) by (rewrite length_seq; exact E).
  rewrite seq_nth by exact E. reflexivity.
Qed.

(** C6, as the code has it. [compute_loudness] returns one curve per batch
    element (and the curve itself for a single example) whose number of
    frames is [int(audio_length / sample_rate * frame_rate)], the product
    truncated and not rounded. Frame [j] of the curve is, when the STFT has a
    frame [j], the average over the frequency bins of the STFT magnitude in
    dB plus the A-weighting of the bin minus [ref_db], each bin clamped at
    the floor [-range_db] before the average; past the frames of the STFT it
    is the padding [-range_db]. The STFT is taken to have one row per
    A-weighted frequency and rows of one length. *)
Theorem compute_loudness_frames
    (sample_rate frame_rate n_fft : Z) (range_db ref_db : T) (e : Z) :
  frame_rate <> 0%Z ->
  (forall (audio : tensor2 T),
     spectral.expected_len (Z.of_nat (spectral.n_audio_samples audio))
                           sample_rate frame_rate = Ok e ->
     (forall m,
        In m (stft audio n_fft None (sample_rate / frame_rate)%Z true) ->
        length (A_weighting sample_rate n_fft) = length m /\
        forall row, In row m -> length row = n_frames m) ->
     exists loudness,
       compute_loudness (Rank2 audio) sample_rate frame_rate n_fft range_db ref_db
       = Ok (Rank2 loudness) /\
       length loudness
       = length (stft audio n_fft None (sample_rate / frame_rate)%Z true) /\
       forall b m,
         nth_error (stft audio n_fft None (sample_rate / frame_rate)%Z true) b
         = Some m ->
         exists curve,
           nth_error loudness b = Some curve /\
           length curve = Z.to_nat e /\
           forall j, j < Z.to_nat e ->
             nth_error curve j
             = Some (if j <? n_frames m
                     then frame_dB (A_weighting sample_rate n_fft)
                                   range_db ref_db m j
                     else s_opp range_db)) /\
  (forall (audio : tensor1 T) (m : list (list (T * T))),
     spectral.expected_len (Z.of_nat (length audio)) sample_rate frame_rate
     = Ok e ->
     stft [audio] n_fft None (sample_rate / frame_rate)%Z true = [m] ->
     length (A_weighting sample_rate n_fft) = length m ->
     (forall row, In row m -> length row = n_frames m) ->
     exists curve,
       compute_loudness (Rank1 audio) sample_rate frame_rate n_fft range_db ref_db
       = Ok (Rank1 curve) /\
       length curve = Z.to_nat e /\
       forall j, j < Z.to_nat e ->
         nth_error curve j
         = Some (if j <? n_frames m
                 then frame_dB (A_weighting sample_rate n_fft)
                               range_db ref_db m j
                 else s_opp range_db)).
Proof.
  intros Hfr. split.
  - intros audio He Hshape.
    eexists. split; [apply compute_loudness_batch; eassumption|].
    split; [apply length_map|].
    intros b m Hm. rewrite nth_error_map, Hm. cbn [option_map].
    eexists. split; [reflexivity|].
    destruct (Hshape m (nth_error_In _ _ Hm)) as [Hbins Hrect].
    apply fixed_length_curve; assumption.
  - intros audio m He Hs Hbins Hrect.
    eexists. split; [eapply compute_loudness_single; eassumption|].
    apply fixed_length_curve; assumption.
Qed.

End LoudnessFacts.

(** C6 fails as stated: 30000 samples at 16000 Hz last 1.875 s, which at 50
    frames per second is 93.75 frames; the curve has [int(93.75) = 93]
    frames where rounding gives 94. And 9280 samples are 29 frames exactly,
    but the product computed in binary64 falls just short of 29 and is
    truncated to 28. *)
Lemma frame_count_is_truncated :
  (exists curve,
     Examples.compute_loudness_Qc (Rank1 (repeat 0%Qc (Z.to_nat 30000))) 16000 50
     = Ok (Rank1 curve) /\
     length curve = 93) /\
  rounded_len 30000 16000 50 = 94%Z /\
  spectral.expected_len 9280 16000 50 = Ok 28%Z /\
  rounded_len 9280 16000 50 = 29%Z.
Proof.
  split; [|split; [|split]]; try reflexivity.
  eexists. split.
  - unfold Examples.compute_loudness_Qc.
    apply compute_loudness_single with (e := 93%Z)
      (m := hd [] (Examples.frame_stft [repeat 0%Qc (Z.to_nat 30000)] 2048 None
                     (16000 / 50)%Z true))
      (rest := []).
    + discriminate.
    + rewrite repeat_length. reflexivity.
    + reflexivity.
  - apply pad_or_trim_length.
Qed.

Lemma compute_loudness_frames_witness :
  exists loudness,
    Examples.compute_loudness_Qc (Rank2 (Examples.constant_audio 1)) 16000 50
    = Ok (Rank2 loudness) /\
    length loudness = 1 /\
    forall b m,
      nth_error (Examples.frame_stft (Examples.constant_audio 1) 2048 None
                   (16000 / 50)%Z true) b = Some m ->
      exists curve,
        nth_error loudness b = Some curve /\
        length curve = 10 /\
        forall j, j < 10 ->
          nth_error curve j
          = Some (if j <? n_frames m
                  then frame_loudness (fun x => x) (fun x => x)
                         (Examples.flat_weighting 16000 2048) (s_of_Z 120)
                         (lit 207 10) m j
                  else s_opp (s_of_Z 120)).
Proof.
  apply (proj1 (@compute_loudness_frames Qc _ Examples.frame_stft (fun x => x)
                  (fun x => x) Examples.flat_weighting 16000 50 2048
                  (s_of_Z 120) (lit 207 10) 10%Z ltac:(discriminate))
               (Examples.constant_audio 1)).
  - reflexivity.
  - intros m [<-|[]]. split; [reflexivity|].
    intros row Hrow. apply repeat_spec in Hrow. rewrite Hrow. reflexivity.
Defined.

(** ** IEEE arithmetic: the loss of a signal against itself *)

Lemma finite_cases (x : float) :
  PrimFloat.is_finite x = true ->
  (exists s, Prim2SF x = S754_zero s) \/
  (exists s m e, Prim2SF x = S754_finite s m e).
Proof.
  unfold PrimFloat.is_finite. intros E. apply negb_true_iff, orb_false_iff in E.
  destruct E as [En Ei]. unfold Prim2SF. rewrite En.
  destruct (PrimFloat.is_zero x); [left; eexists; reflexivity|].
  rewrite Ei.
  destruct (Z.frexp x) as [r e].
  destruct (shr_fexp _ _ _ _ _) as [shr e'].
  destruct (shr_m shr).
  - left. eexists. reflexivity.
  - right. do 3 eexists. reflexivity.
  - left. eexists. reflexivity.
Qed.

(** [x - x] is [+0.0] for every finite [x] (and NaN for the others). *)
Lemma sub_self (x : float) :
  PrimFloat.is_finite x = true -> PrimFloat.sub x x = 0%float.
Proof.
  intros Hf. apply Prim2SF_inj. rewrite FloatAxioms.sub_spec.
  destruct (finite_cases x Hf) as [[s E]|[s [m [e E]]]]; rewrite E.
  - destruct s; reflexivity.
  - unfold SF64sub, SFsub. rewrite Z.sub_diag. reflexivity.
Qed.

Lemma div_zero_positive (c : float) :
  PrimFloat.ltb 0 c = true -> PrimFloat.div 0 c = 0%float.
Proof.
  intros Hc. apply Prim2SF_inj. rewrite FloatAxioms.div_spec.
  rewrite FloatAxioms.ltb_spec in Hc.
  change (Prim2SF 0) with (S754_zero false) in *.
  unfold SFltb in Hc.
  destruct (Prim2SF c) as [s|s| |s m e]; simpl in *; try discriminate;
    destruct s; try discriminate; reflexivity.
Qed.

Lemma pointwise_self_float (d : distance) (x : float) :
  PrimFloat.is_finite x = true -> pointwise d x x = 0%float.
Proof.
  intros Hf. destruct d; simpl; rewrite (sub_self x Hf); reflexivity.
Qed.

Lemma map2_pointwise_self_float (d : distance) (a : list float) :
  Forall (fun x => PrimFloat.is_finite x = true) a ->
  map2 (pointwise d) a a = repeat 0%float (length a).
Proof.
  induction 1 as [|x a Hx _ IH]; simpl; [reflexivity|].
  rewrite (pointwise_self_float d x Hx), IH. reflexivity.
Qed.

Lemma fold_add_repeat_zero (n : nat) :
  fold_left PrimFloat.add (repeat 0%float n) 0%float = 0%float.
Proof.
  induction n as [|n IH]; simpl; [reflexivity|].
  change (PrimFloat.add 0 0) with 0%float. exact IH.
Qed.

Lemma mean_distance_self_float (d : distance) (a : list float) :
  measurable a -> mean_distance d a a = 0%float.
Proof.
  intros [Hf Hc]. unfold mean_distance, tmean.
  rewrite (map2_pointwise_self_float d Hf), repeat_length.
  unfold tsum. change (@zero float _) with 0%float. simpl s_add.
  rewrite fold_add_repeat_zero. apply div_zero_positive. exact Hc.
Qed.

Section FloatLoss.

Variable stft : tensor2 float -> Z -> option (list float) -> Z -> bool
                -> tensor3 (float * float).
Variable hann_window : Z -> list float.
Variable log sqrt log10 : float -> float.
Variable eps : float.
Variable A_weighting : Z -> Z -> list float.

(** The loop on the spectrograms of one signal, with [mag_w = 1] and
    [log_mag_w = 0]: every step adds [1 * 0.0] to [0.0]. *)
Lemma accumulate_self_float (self : spectral.SpectralLoss) target_specs lt red d :
  distance_of lt = Some d ->
  spectral.mag_w self = 1%float ->
  spectral.log_mag_w self = 0%float ->
  forall specs i,
    (forall j, j < length specs ->
               nth_error target_specs (i + j) = nth_error specs j) ->
    Forall (fun spec => measurable (flatten3 spec)) specs ->
    spectral.accumulate log eps self target_specs lt red i specs 0%float
    = Ok 0%float.
Proof.
  intros Hd Hm Hl. induction specs as [|spec rest IH]; intros i Hnth Hgood.
  - reflexivity.
  - cbn [spectral.accumulate].
    rewrite <- (Nat.add_0_r i) at 1. rewrite (Hnth 0) by (simpl; lia).
    cbn [nth_error]. inversion Hgood as [|? ? Hspec Hrest]; subst.
    rewrite Hm, Hl.
    change (s_ltb zero 1%float) with true. change (s_ltb zero 0%float) with false.
    rewrite loss_func_supported with (d := d) by exact Hd.
    rewrite (mean_distance_self_float d Hspec).
    cbn [bind spectral.weighted]. change (s_add 0 (s_mul 1 0))%float with 0%float.
    apply IH; [|exact Hrest].
    intros j Hj. replace (S i + j) with (i + S j) by lia.
    rewrite (Hnth (S j)) by (simpl; lia). reflexivity.
Qed.

End FloatLoss.


Lemma measurable_by_evaluation (specs : list (tensor3 float)) :
  forallb (fun spec =>
             forallb PrimFloat.is_finite (flatten3 spec) &&
             PrimFloat.ltb 0 (s_of_Z (Z.of_nat (length (flatten3 spec)))))
          specs = true ->
  Forall (fun spec => measurable (flatten3 spec)) specs.
Proof.
  intros E. rewrite forallb_forall in E. apply Forall_forall. intros spec Hin.
  specialize (E spec Hin). apply andb_true_iff in E. destruct E as [Ef Ec].
  split; [|exact Ec].
  rewrite forallb_forall in Ef. apply Forall_forall. exact Ef.
Qed.



(** ** MelSpec: the padding of the last frame *)

Lemma n_audio_samples_of_length {T : Type} (audio : tensor2 T) (l_x : nat) :
  audio <> [] -> audio_length l_x audio -> spectral.n_audio_samples audio = l_x.
Proof.
  intros Hne Hlen. destruct audio as [|row rest]; [congruence|].
  inversion Hlen; subst. reflexivity.
Qed.

(** Lines 33-34 for a positive hop length: the least number of samples that
    brings the part of the audio after the first window to a multiple of the
    hop length. *)
Lemma padding_least (self : MelSpec.t) (l_x : Z) :
  (0 < MelSpec.hop_length self)%Z ->
  exists pad : Z,
    MelSpec.padding self l_x = Ok pad /\
    (0 <= pad < MelSpec.hop_length self)%Z /\
    ((l_x + pad - MelSpec.n_fft self) mod MelSpec.hop_length self = 0)%Z /\
    forall p : Z,
      (0 <= p)%Z ->
      ((l_x + p - MelSpec.n_fft self) mod MelSpec.hop_length self = 0)%Z ->
      (pad <= p)%Z.
Proof.
  intros Hhop. unfold MelSpec.padding.
  destruct (Z.eqb_spec (MelSpec.hop_length self) 0) as [E|_]; [lia|].
  set (h := MelSpec.hop_length self) in *.
  set (a := (l_x - MelSpec.n_fft self)%Z).
  pose proof (Z.mod_pos_bound a h Hhop) as Hr.
  destruct (Z.eqb_spec (a mod h) 0) as [E0|E0].
  - exists 0%Z. split; [reflexivity|]. split; [lia|]. split.
    + replace (l_x + 0 - MelSpec.n_fft self)%Z with a by (unfold a; lia). exact E0.
    + intros p Hp _. exact Hp.
  - exists (h - a mod h)%Z. split; [reflexivity|]. split; [lia|]. split.
    + replace (l_x + (h - a mod h) - MelSpec.n_fft self)%Z
        with (a - a mod h + 1 * h)%Z by (unfold a; lia).
      rewrite Z.mod_add by lia.
      rewrite Zminus_mod_idemp_r, Z.sub_diag. apply Z.mod_0_l. lia.
    + intros p Hp Hdiv.
      destruct (Z_lt_le_dec p (h - a mod h)) as [Hlt|Hge]; [exfalso|exact Hge].
      replace (l_x + p - MelSpec.n_fft self)%Z with (a + p)%Z in Hdiv
        by (unfold a; lia).
      rewrite <- Zplus_mod_idemp_l in Hdiv.
      rewrite Z.mod_small in Hdiv by lia. lia.
Qed.

Section MelSpecFacts.

Context {T : Type} `{Scalar T}.

Lemma F_pad_appends (audio : tensor2 T) (pad : Z) :
  (0 <= pad)%Z ->
  MelSpec.F_pad audio pad
  = Ok (map (fun row => row ++ repeat zero (Z.to_nat pad)) audio).
Proof.
  intros Hp. unfold MelSpec.F_pad.
  destruct (Z.ltb_spec (Z.of_nat (spectral.n_audio_samples audio) + pad) 0); [lia|].
  destruct (Z.ltb_spec pad 0); [lia|]. reflexivity.
Qed.

(** Lines 31-35 on a batch of rows of [l_x] samples, for a positive hop
    length. *)
Lemma pad_audio_least (self : MelSpec.t) (audio : tensor2 T) (l_x : nat) :
  MelSpec.pad_end self = true ->
  (0 < MelSpec.hop_length self)%Z ->
  audio <> [] -> audio_length l_x audio ->
  exists pad : nat,
    MelSpec.pad_audio self audio
    = Ok (map (fun row => row ++ repeat zero pad) audio) /\
    (Z.of_nat pad < MelSpec.hop_length self)%Z /\
    ((Z.of_nat (l_x + pad) - MelSpec.n_fft self) mod MelSpec.hop_length self = 0)%Z /\
    forall p : nat,
      ((Z.of_nat (l_x + p) - MelSpec.n_fft self) mod MelSpec.hop_length self = 0)%Z ->
      pad <= p.
Proof.
  intros Hpe Hhop Hne Hlen.
  pose proof (n_audio_samples_of_length Hne Hlen) as Hn.
  destruct (padding_least self (Z.of_nat l_x) Hhop) as [pad [Hpad [Hb [Hdiv Hmin]]]].
  exists (Z.to_nat pad). split; [|split; [|split]].
  - unfold MelSpec.pad_audio. rewrite Hpe, Hn, Hpad. cbn [bind].
    apply F_pad_appends. lia.
  - lia.
  - rewrite Nat2Z.inj_add, Z2Nat.id by lia. exact Hdiv.
  - intros p Hp. rewrite Nat2Z.inj_add in Hp.
    specialize (Hmin (Z.of_nat p) ltac:(lia) Hp). lia.
Qed.

Lemma padded_length (audio : tensor2 T) (l_x pad : nat) :
  audio_length l_x audio ->
  audio_length (l_x + pad) (map (fun row => row ++ repeat (@zero T _) pad) audio).
Proof.
  unfold audio_length. intros Hlen. rewrite Forall_map.
  eapply Forall_impl; [|exact Hlen].
  intros row Hrow. rewrite length_app, repeat_length, Hrow. reflexivity.
Qed.

(** X1. With [pad_end], a positive hop length and a batch of rows of
    [l_x] samples, lines 31-35 append to every row the same number
    [pad < hop_length] of zeros, the least number for which the samples after
    the first window, [l_x + pad - n_fft], are a multiple of the hop
    length: the last frame is complete and no sample is left over. *)
Theorem pad_end_completes_last_frame (self : MelSpec.t) (audio : tensor2 T)
    (l_x : nat) :
  MelSpec.pad_end self = true ->
  (0 < MelSpec.hop_length self)%Z ->
  audio <> [] -> audio_length l_x audio ->
  exists pad : nat,
    MelSpec.pad_audio self audio
    = Ok (map (fun row => row ++ repeat zero pad) audio) /\
    audio_length (l_x + pad) (map (fun row => row ++ repeat zero pad) audio) /\
    (Z.of_nat pad < MelSpec.hop_length self)%Z /\
    ((Z.of_nat (l_x + pad) - MelSpec.n_fft self) mod MelSpec.hop_length self = 0)%Z /\
    forall p : nat,
      ((Z.of_nat (l_x + p) - MelSpec.n_fft self) mod MelSpec.hop_length self = 0)%Z ->
      pad <= p.
Proof.
  intros Hpe Hhop Hne Hlen.
  destruct (pad_audio_least self Hpe Hhop Hne Hlen) as [pad [E [Hb [Hd Hm]]]].
  exists pad. split; [exact E|]. split; [apply padded_length; exact Hlen|].
  split; [exact Hb|]. split; [exact Hd | exact Hm].
Qed.

(** X2. Padding is idempotent: the audio that lines 31-35 produce is left as
    it is when it goes through them again. *)
Theorem pad_end_idempotent (self : MelSpec.t) (audio audio' : tensor2 T)
    (l_x : nat) :
  MelSpec.pad_end self = true ->
  (0 < MelSpec.hop_length self)%Z ->
  audio <> [] -> audio_length l_x audio ->
  MelSpec.pad_audio self audio = Ok audio' ->
  MelSpec.pad_audio self audio' = Ok audio'.
Proof.
  intros Hpe Hhop Hne Hlen E.
  destruct (pad_audio_least self Hpe Hhop Hne Hlen) as [pad [E' [Hb [Hd Hm]]]].
  rewrite E' in E. injection E as Ea.
  assert (Hne' : audio' <> []).
  { rewrite <- Ea. destruct audio; [congruence|discriminate]. }
  assert (Hlen' : audio_length (l_x + pad) audio').
  { rewrite <- Ea. apply padded_length. exact Hlen. }
  destruct (@pad_audio_least self audio' (l_x + pad) Hpe Hhop Hne' Hlen')
    as [pad' [E'' [_ [_ Hm']]]].
  assert (Hz : pad' = 0).
  { specialize (Hm' 0). rewrite Nat.add_0_r in Hm'. specialize (Hm' Hd). lia. }
  rewrite E'', Hz. f_equal.
  rewrite <- (map_id audio') at 2. apply map_ext. intros row. apply app_nil_r.
Qed.

End MelSpecFacts.

(** ** MelSpec and Mfcc: failures and coefficients *)

Lemma transpose_length {T : Type} `{Scalar T} (m : list (list T)) :
  length (transpose m) = n_frames m.
Proof.
  destruct m as [|r rest]; [reflexivity|].
  unfold transpose. rewrite length_map, length_seq. reflexivity.
Qed.

Lemma transpose_nth_error {T : Type} `{Scalar T} (m : list (list T)) (j : nat) :
  j < n_frames m ->
  nth_error (transpose m) j = Some (map (fun row => nth j row zero) m).
Proof.
  destruct m as [|r rest]; [simpl; lia|]. intros Hj. simpl in Hj.
  unfold transpose.
  rewrite nth_error_map, nth_error_nth' with (d := 0) by (rewrite length_seq; exact Hj).
  rewrite seq_nth by exact Hj. reflexivity.
Qed.

Lemma n_frames_map {A B : Type} (g : A -> list B) (c : nat) (l : list A) :
  (forall x, length (g x) = c) -> l <> [] -> n_frames (map g l) = c.
Proof.
  intros Hg Hne. destruct l as [|x l]; [congruence|]. simpl. apply Hg.
Qed.

Lemma map2_map_r {A B B' C : Type} (h : A -> B' -> C) (g : B -> B') (a : list A)
    (b : list B) :
  map2 h a (map g b) = map2 (fun x y => h x (g y)) a b.
Proof.
  revert b. induction a as [|x a IH]; intros [|y b]; simpl; try reflexivity.
  rewrite IH. reflexivity.
Qed.

Section MfccFacts.

Context {T : Type} `{Scalar T}.
Variable stft : tensor2 T -> Z -> option (list T) -> Z -> bool -> tensor3 (T * T).
Variable sqrt log : T -> T.
Variable MelScale : Z -> Z -> Z -> Z -> Z -> tensor3 T -> tensor3 T.
Variable create_dct : Z -> Z -> option string -> tensor2 T.

Local Abbreviation MelSpec_forward := (MelSpec.forward stft sqrt MelScale).
Local Abbreviation Mfcc_forward := (Mfcc.forward stft sqrt log MelScale).
Local Abbreviation Mfcc_init := (Mfcc.init create_dct).

(** X3. With [pad_end] and a hop length of 0, [MelSpec.forward] raises
    ZeroDivisionError at line 33, whatever the audio: the spectrogram is not
    reached. *)
Theorem melspec_zero_hop_length (self : MelSpec.t) (audio : tensor2 T) :
  MelSpec.pad_end self = true ->
  MelSpec.hop_length self = 0%Z ->
  MelSpec_forward self audio = Fails (Exception ZeroDivisionError).
Proof.
  intros Hpe Hhop. unfold MelSpec.forward, MelSpec.pad_audio, MelSpec.padding.
  rewrite Hpe, Hhop. reflexivity.
Qed.

(** X4. [MelSpec.forward] ends in UnboundLocalError exactly when [power] is
    neither 1 nor 2 and the padding of lines 31-35 goes through: line 66
    of [spectrogram] then returns a local that no branch has assigned, the
    STFT of line 61 having been taken. *)
Theorem melspec_unbound_power (self : MelSpec.t) (audio : tensor2 T) :
  MelSpec_forward self audio = Fails UnboundLocalError <->
  (MelSpec.power self <> 1%Z /\ MelSpec.power self <> 2%Z /\
   exists audio', MelSpec.pad_audio self audio = Ok audio').
Proof.
  unfold MelSpec.forward, spectral.spectrogram.
  destruct (MelSpec.pad_audio self audio) as [audio'|e]; cbn [lift obind].
  - destruct (Z.eqb_spec (MelSpec.power self) 2) as [E2|E2]; cbn [obind].
    { split; [discriminate | intros [_ [N _]]; contradiction]. }
    destruct (Z.eqb_spec (MelSpec.power self) 1) as [E1|E1]; cbn [obind].
    { split; [discriminate | intros [N _]; contradiction]. }
    split; [|reflexivity].
    intros _. split; [exact E1|]. split; [exact E2|]. exists audio'. reflexivity.
  - split; [discriminate | intros [_ [_ [a' Ha]]]; discriminate].
Qed.

(** X5. An [Mfcc] never ends in UnboundLocalError: its constructor fixes
    the power of its mel spectrogram to 2. *)
Theorem mfcc_power_is_bound
    (n_fft hop_length n_mels n_mfcc : Z) (norm : option string)
    (sample_rate f_min f_max : Z) (pad_end center : bool) (audio : tensor2 T) :
  MelSpec.power (Mfcc.melspec
                   (Mfcc_init n_fft hop_length n_mels n_mfcc norm sample_rate
                              f_min f_max pad_end center)) = 2%Z /\
  Mfcc_forward (Mfcc_init n_fft hop_length n_mels n_mfcc norm sample_rate
                          f_min f_max pad_end center) audio
  <> Fails UnboundLocalError.
Proof.
  split; [reflexivity|].
  unfold Mfcc.forward, MelSpec.forward, spectral.spectrogram.
  cbn [Mfcc.init Mfcc.melspec MelSpec.power MelSpec.n_fft MelSpec.hop_length
       MelSpec.center Mfcc.dct_mat Z.eqb Pos.eqb].
  match goal with |- context [MelSpec.pad_audio ?s audio] =>
    destruct (MelSpec.pad_audio s audio) as [audio'|e] end;
    cbn [lift obind]; [|discriminate].
  match goal with |- context [Mfcc.matmul ?x ?y] =>
    destruct (Mfcc.matmul x y) as [mfcc|e] end;
    cbn [lift obind]; discriminate.
Qed.

Lemma matmul_defined (x : tensor3 T) (y : tensor2 T) :
  (forall m row, In m x -> In row m -> length row = length y) ->
  Mfcc.matmul x y
  = Ok (map (map (fun row =>
                    map (fun col => tsum (map2 s_mul row col)) (transpose y)))
            x).
Proof.
  intros Hx. unfold Mfcc.matmul.
  match goal with |- (if ?c then _ else _) = _ => assert (E : c = true) end.
  { apply forallb_forall. intros m Hm. apply forallb_forall. intros row Hrow.
    apply Nat.eqb_eq. exact (Hx m row Hm Hrow). }
  rewrite E. reflexivity.
Qed.

Lemma In_transpose (m : list (list T)) (col : list T) :
  In col (transpose m) -> length col = length m.
Proof.
  unfold transpose. destruct m as [|r rest]; [intros []|].
  intros Hin. apply in_map_iff in Hin. destruct Hin as [j [<- _]].
  apply length_map.
Qed.

(** X6. The coefficients of [Mfcc.forward]. When the mel spectrogram has one
    row per row of the DCT matrix, the result has one batch element per
    batch element of the mel spectrogram, and coefficient [k] of frame [t]
    is the sum over the mel bands of [log(mel + 1e-6)] of the band in frame
    [t] times entry [k] of the band's row of the DCT matrix: the two
    transpositions of line 57 cancel. *)
Theorem mfcc_coefficients (self : Mfcc.t) (audio : tensor2 T) (mel : tensor3 T)
    (n_coef : nat) :
  MelSpec_forward (Mfcc.melspec self) audio = Returns mel ->
  (forall m, In m mel ->
     length m = length (Mfcc.dct_mat self) /\
     forall row, In row m -> length row = n_frames m) ->
  (forall d, In d (Mfcc.dct_mat self) -> length d = n_coef) ->
  exists mfcc,
    Mfcc_forward self audio = Returns mfcc /\
    length mfcc = length mel /\
    forall b m,
      nth_error mel b = Some m ->
      forall k t, k < n_coef -> t < n_frames m ->
        at3 mfcc b k t
        = Some (tsum (map2 (fun row d =>
                              s_mul (log (s_add (nth t row zero) (lit 1 1000000)))
                                    (nth k d zero))
                           m (Mfcc.dct_mat self))).
Proof.
  intros Hmel Hshape Hdct.
  set (logeps := fun x => log (s_add x (lit 1 1000000))).
  unfold Mfcc.forward. rewrite Hmel. cbn [obind].
  rewrite matmul_defined.
  2:{ intros xm row Hxm Hrow.
      apply in_map_iff in Hxm. destruct Hxm as [m' [<- Hm']].
      apply in_map_iff in Hm'. destruct Hm' as [m [<- Hm]].
      apply In_transpose in Hrow. rewrite Hrow, length_map.
      apply (Hshape m Hm). }
  cbn [lift obind]. eexists. split; [reflexivity|].
  split; [rewrite !length_map; reflexivity|].
  intros b m Hb k t Hk Ht.
  destruct (Hshape m (nth_error_In _ _ Hb)) as [Hrows Hrect].
  destruct m as [|r0 rest] eqn:Em; [simpl in Ht; lia|].
  simpl in Ht.
  destruct (Mfcc.dct_mat self) as [|d0 drest] eqn:Ed; [discriminate|].
  assert (Hd0 : length d0 = n_coef) by (apply Hdct; left; reflexivity).
  set (m' := map (map logeps) (r0 :: rest)).
  assert (Hm' : n_frames m' = length r0) by apply length_map.
  assert (Hne : transpose m' <> []).
  { intros E. apply (f_equal (@length _)) in E.
    rewrite transpose_length, Hm' in E. simpl in E. lia. }
  assert (Hcols : n_frames (transpose (d0 :: drest)) = length (r0 :: rest)).
  { destruct d0 as [|x d0]; [simpl in Hd0; lia|]. simpl.
    rewrite length_map. simpl in Hrows. simpl. lia. }
  unfold at3, at2.
  rewrite !nth_error_map, Hb. cbn [option_map].
  fold logeps. fold m'.
  rewrite transpose_nth_error.
  2:{ rewrite n_frames_map with (c := n_coef); [exact Hk| |exact Hne].
      intros row. rewrite length_map, transpose_length. exact Hd0. }
  rewrite nth_error_map, nth_error_map.
  rewrite transpose_nth_error by (rewrite Hm'; exact Ht).
  cbn [option_map]. f_equal.
  match goal with |- nth k (map ?g ?cols) zero = _ =>
    assert (E : nth_error (map g cols) k
                = Some (g (map (fun row => nth k row zero) (d0 :: drest))))
  end.
  { rewrite nth_error_map, transpose_nth_error by (simpl; lia). reflexivity. }
  rewrite (nth_error_nth _ _ _ E).
  f_equal. unfold m'.
  rewrite map_map, map2_map_l, map2_map_r.
  apply map2_ext_in. intros row d Hin.
  f_equal.
  rewrite nth_indep with (d' := logeps zero).
  - apply map_nth.
  - rewrite length_map, (Hrect row Hin). exact Ht.
Qed.

End MfccFacts.

(** ** Exact arithmetic: order *)

Section RationalOrder.

Local Open Scope Qc_scope.

Lemma Qcltb_true (x y : Qc) : Qcltb x y = true -> x < y.
Proof.
  unfold Qcltb. intros E. apply Qclt_alt.
  destruct (x ?= y); [discriminate | reflexivity | discriminate].
Qed.

Lemma Qcltb_false (x y : Qc) : Qcltb x y = false -> y <= x.
Proof.
  unfold Qcltb. intros E. apply Qcnot_lt_le. intros Hlt.
  pose proof (proj1 (Qclt_alt x y) Hlt) as C.
  destruct (x ?= y); discriminate.
Qed.

Lemma Qcmult_nonnegative (x y : Qc) : 0 <= x -> 0 <= y -> 0 <= x * y.
Proof.
  intros Hx Hy. rewrite <- (Qcmult_0_l y). apply Qcmult_le_compat_r; assumption.
Qed.

Lemma Qcopp_nonnegative (x : Qc) : x <= 0 -> 0 <= - x.
Proof. intros Hx. apply Qcopp_le_compat in Hx. exact Hx. Qed.

Lemma Qcsquare_nonnegative (z : Qc) : 0 <= z * z.
Proof.
  destruct (Qclt_le_dec z 0) as [Hlt|Hge].
  - replace (z * z) with ((- z) * (- z)) by ring.
    apply Qcmult_nonnegative; apply Qcopp_nonnegative, Qclt_le_weak; exact Hlt.
  - apply Qcmult_nonnegative; exact Hge.
Qed.

Lemma Qcabs_nonnegative (x : Qc) : 0 <= Qcabs x.
Proof.
  unfold Qcabs. destruct (Qcltb x 0) eqn:E.
  - apply Qcopp_nonnegative, Qclt_le_weak, Qcltb_true. exact E.
  - apply Qcltb_false. exact E.
Qed.

Lemma Qcabs_opp (x : Qc) : Qcabs (- x) = Qcabs x.
Proof.
  unfold Qcabs.
  destruct (Qcltb x 0) eqn:Ex; destruct (Qcltb (- x) 0) eqn:Eo.
  - apply Qcltb_true in Ex, Eo. exfalso.
    apply Qclt_le_weak, Qcopp_nonnegative in Ex.
    exact (Qclt_not_le _ _ Eo Ex).
  - reflexivity.
  - apply Qcopp_involutive.
  - apply Qcltb_false in Ex, Eo.
    assert (Hx : x <= 0).
    { apply Qcopp_le_compat in Eo. rewrite Qcopp_involutive in Eo. exact Eo. }
    rewrite (Qcle_antisym _ _ Hx Ex). reflexivity.
Qed.

Lemma Qcabs_minus_sym (x y : Qc) : Qcabs (x - y) = Qcabs (y - x).
Proof.
  rewrite <- (Qcabs_opp (x - y)). f_equal. ring.
Qed.

Lemma Qc_of_nat_succ (n : nat) :
  Q2Qc (inject_Z (Z.of_nat (S n))) = 1 + Q2Qc (inject_Z (Z.of_nat n)).
Proof.
  unfold Qcplus. apply Q2Qc_eq_iff. cbn [this Q2Qc].
  rewrite !Qred_correct, Nat2Z.inj_succ. unfold Z.succ.
  rewrite inject_Z_plus. ring.
Qed.

Lemma Qc_of_nat_nonnegative (n : nat) : 0 <= Q2Qc (inject_Z (Z.of_nat n)).
Proof.
  induction n as [|n IH]; [apply Qcle_refl|].
  rewrite Qc_of_nat_succ. rewrite <- (Qcplus_0_l 0).
  apply Qcplus_le_compat; [discriminate | exact IH].
Qed.

Lemma Qc_of_nat_positive (n : nat) : 0 < Q2Qc (inject_Z (Z.of_nat (S n))).
Proof.
  rewrite Qc_of_nat_succ.
  apply Qclt_le_trans with (y := 1); [reflexivity|].
  rewrite <- (Qcplus_0_r 1) at 1.
  apply Qcplus_le_compat; [apply Qcle_refl | apply Qc_of_nat_nonnegative].
Qed.

(** A sum of values that are at least [c] is at least their number times
    [c]. *)
Lemma tsum_lower_bound (c : Qc) (l : list Qc) :
  Forall (fun x => c <= x) l ->
  c * Q2Qc (inject_Z (Z.of_nat (length l))) <= tsum l.
Proof.
  induction 1 as [|x l Hx _ IH].
  - rewrite tsum_nil. simpl. rewrite Qcmult_0_r. apply Qcle_refl.
  - rewrite tsum_cons. cbn [length]. rewrite Qc_of_nat_succ.
    rewrite Qcmult_plus_distr_r, Qcmult_1_r.
    apply Qcplus_le_compat; assumption.
Qed.

(** The mean of values that are at least [c] is at least [c]. *)
Lemma tmean_lower_bound (c : Qc) (l : list Qc) :
  l <> [] -> Forall (fun x => c <= x) l -> c <= tmean l.
Proof.
  intros Hne Hl. destruct l as [|x l]; [congruence|].
  pose proof (Qc_of_nat_positive (length l)) as Hn.
  apply Qcmult_lt_0_le_reg_r with (z := Q2Qc (inject_Z (Z.of_nat (S (length l)))));
    [exact Hn|].
  unfold tmean. cbn [s_div s_of_Z Qc_Scalar].
  cbn [length] in *.
  unfold Qcdiv. rewrite <- Qcmult_assoc, Qcmult_inv_l, Qcmult_1_r.
  - apply (tsum_lower_bound (c := c) (l := x :: l)). exact Hl.
  - intros E. rewrite E in Hn. exact (Qclt_not_eq _ _ Hn eq_refl).
Qed.

Lemma tmean_nonnegative (l : list Qc) :
  Forall (fun x => 0 <= x) l -> 0 <= tmean l.
Proof.
  intros Hl. destruct l as [|x l].
  - unfold tmean. simpl. discriminate.
  - apply tmean_lower_bound; [discriminate | exact Hl].
Qed.

End RationalOrder.

(** ** The spectral loss: what [forward] does not depend on *)

Lemma map2_sym {A C : Type} (g : A -> A -> C) (a b : list A) :
  (forall x y, g x y = g y x) -> map2 g a b = map2 g b a.
Proof.
  intros Hg. revert b. induction a as [|x a IH]; intros [|y b]; simpl; try reflexivity.
  rewrite Hg, IH. reflexivity.
Qed.

Lemma Forall_map2 {A B C : Type} (P : C -> Prop) (g : A -> B -> C) (a : list A)
    (b : list B) :
  (forall x y, P (g x y)) -> Forall P (map2 g a b).
Proof.
  intros Hg. revert b. induction a as [|x a IH]; intros [|y b]; simpl;
    constructor; [apply Hg | apply IH].
Qed.

Lemma skipn_cons_inv {A : Type} (l : list A) (i : nat) (x : A) (r : list A) :
  skipn i l = x :: r -> nth_error l i = Some x /\ skipn (S i) l = r.
Proof.
  revert i. induction l as [|y l IH]; intros i E.
  - destruct i; discriminate.
  - destruct i; simpl in *.
    + inversion E. split; reflexivity.
    + apply IH. exact E.
Qed.

(** The value that [loss_func] returns is the mean of one of the three
    pointwise distances. *)
Lemma loss_func_cases {T : Type} `{Scalar T} (a b : list T) lt red v :
  spectral.loss_func a b lt red = Some v -> exists d, v = mean_distance d a b.
Proof.
  unfold spectral.loss_func.
  destruct (String.eqb lt "L1");
    [intros E; inversion E; exists Absolute; reflexivity|].
  destruct (String.eqb lt "MSE");
    [intros E; inversion E; exists Squared; reflexivity|].
  destruct (String.eqb lt "smooth_L1");
    [intros E; inversion E; exists SmoothAbsolute; reflexivity|].
  discriminate.
Qed.

Section ReductionFacts.

Context {T : Type} `{Scalar T}.
Variable stft : tensor2 T -> Z -> option (list T) -> Z -> bool -> tensor3 (T * T).
Variable hann_window : Z -> list T.
Variable log sqrt log10 : T -> T.
Variable eps : T.
Variable A_weighting : Z -> Z -> list T.

Local Abbreviation accumulate := (spectral.accumulate log eps).
Local Abbreviation forward :=
  (spectral.forward stft hann_window log sqrt log10 eps A_weighting).
Local Abbreviation loudness_loss :=
  (spectral.loudness_loss stft sqrt log10 A_weighting).
Local Abbreviation compute_loudness_default :=
  (spectral.compute_loudness_default stft sqrt log10 A_weighting).

Lemma accumulate_reduction (self : spectral.SpectralLoss) target_specs lt r1 r2 :
  forall specs i loss,
    accumulate self target_specs lt r1 i specs loss
    = accumulate self target_specs lt r2 i specs loss.
Proof.
  induction specs as [|spec rest IH]; intros i loss; [reflexivity|].
  cbn [spectral.accumulate].
  destruct (nth_error target_specs i) as [tspec|]; [|reflexivity].
  unfold spectral.loss_func.
  destruct (s_ltb zero (spectral.mag_w self));
    destruct (s_ltb zero (spectral.log_mag_w self));
    destruct (String.eqb lt "L1"); destruct (String.eqb lt "MSE");
    destruct (String.eqb lt "smooth_L1"); cbn [bind spectral.weighted];
    try reflexivity; apply IH.
Qed.

(** X7. [forward] does not read its [reduction] argument: whatever string is
    passed, 'sum' or 'none' included, the result is the one of 'mean',
    because [loss_func] calls the three losses with [reduction='mean']. *)
Theorem forward_ignores_reduction (self : spectral.SpectralLoss)
    (input_audio target_audio : tensor2 T) (loss_type r1 r2 : string) :
  forward self input_audio target_audio loss_type r1
  = forward self input_audio target_audio loss_type r2.
Proof.
  unfold spectral.forward.
  destruct (spectral.MultiscaleFFT stft hann_window input_audio _ _) as [specs|e];
    [|reflexivity].
  destruct (spectral.MultiscaleFFT stft hann_window target_audio _ _) as [tspecs|e];
    [|reflexivity].
  cbn [bind]. rewrite (accumulate_reduction self tspecs loss_type r1 r2).
  reflexivity.
Qed.

(** X8. With the two spectral weights at most zero and [loud_w > 0], the 'L1'
    loss of [forward] is [0.0 + loud_w * loudness_loss(input, target,
    sample_rate)], and it fails as [loudness_loss] fails: the loudness term
    of lines 209-212 is the function of lines 216-219. *)
Theorem forward_loudness_term {O : @OrderedScalar T _}
    (self : spectral.SpectralLoss) (input_audio target_audio : tensor2 T)
    (reduction : string) :
  s_leb (spectral.mag_w self) zero = true ->
  s_leb (spectral.log_mag_w self) zero = true ->
  s_ltb zero (spectral.loud_w self) = true ->
  hops_defined (spectral.overlap self) (spectral.fft_sizes self) = true ->
  forward self input_audio target_audio "L1" reduction
  = (l <- loudness_loss input_audio target_audio (spectral.sample_rate self) ;;
     Ok (s_add zero (s_mul (spectral.loud_w self) l))).
Proof.
  intros Hm Hl Hd Hh. apply s_leb_not_ltb in Hm, Hl.
  unfold spectral.forward, spectral.loudness_loss.
  destruct (MultiscaleFFT_defined stft hann_window input_audio _ _ Hh)
    as [specs [-> Ls]].
  destruct (MultiscaleFFT_defined stft hann_window target_audio _ _ Hh)
    as [tspecs [-> Lt]].
  cbn [bind]. rewrite accumulate_skips by (assumption || lia).
  cbn [bind]. rewrite Hd.
  destruct (compute_loudness_default input_audio _) as [input_l|e]; [|reflexivity].
  cbn [bind].
  destruct (compute_loudness_default target_audio _) as [target_l|e]; [|reflexivity].
  reflexivity.
Qed.

End ReductionFacts.

(** ** Exact arithmetic: the loss as a distance *)

Section RationalDistance.

Local Open Scope Qc_scope.

Variable stft : tensor2 Qc -> Z -> option (list Qc) -> Z -> bool -> tensor3 (Qc * Qc).
Variable hann_window : Z -> list Qc.
Variable log sqrt log10 : Qc -> Qc.
Variable eps : Qc.
Variable A_weighting : Z -> Z -> list Qc.

Local Abbreviation MultiscaleFFT := (spectral.MultiscaleFFT stft hann_window).
Local Abbreviation accumulate := (spectral.accumulate log eps).
Local Abbreviation forward :=
  (spectral.forward stft hann_window log sqrt log10 eps A_weighting).
Local Abbreviation loudness_loss :=
  (spectral.loudness_loss stft sqrt log10 A_weighting).
Local Abbreviation compute_loudness_default :=
  (spectral.compute_loudness_default stft sqrt log10 A_weighting).

Lemma pointwise_nonnegative (d : distance) (x y : Qc) : 0 <= pointwise d x y.
Proof.
  destruct d; cbn [pointwise s_abs s_sub s_mul s_ltb s_div Qc_Scalar].
  - apply Qcabs_nonnegative.
  - apply Qcsquare_nonnegative.
  - pose proof (Qcabs_nonnegative (x - y)) as Hz.
    generalize dependent (Qcabs (x - y)). intros z Hz.
    destruct (Qcltb z one) eqn:E.
    + apply Qcdiv_nonnegative; [|reflexivity].
      apply Qcmult_nonnegative; [|exact Hz].
      apply Qcmult_nonnegative; [discriminate | exact Hz].
    + apply Qcltb_false in E.
      assert (Hc : lit 1 2 * one <= z)
        by (eapply Qcle_trans; [|exact E]; discriminate).
      exact (proj1 (Qcle_minus_iff _ _) Hc).
Qed.

Lemma pointwise_sym (d : distance) (x y : Qc) : pointwise d x y = pointwise d y x.
Proof.
  destruct d; cbn [pointwise s_abs s_sub s_mul s_ltb s_div Qc_Scalar].
  - apply Qcabs_minus_sym.
  - ring.
  - rewrite (Qcabs_minus_sym x y). reflexivity.
Qed.

Lemma mean_distance_nonnegative (d : distance) (a b : list Qc) :
  0 <= mean_distance d a b.
Proof.
  unfold mean_distance. apply tmean_nonnegative, Forall_map2.
  apply pointwise_nonnegative.
Qed.

Lemma mean_distance_sym (d : distance) (a b : list Qc) :
  mean_distance d a b = mean_distance d b a.
Proof.
  unfold mean_distance. f_equal. apply map2_sym. apply pointwise_sym.
Qed.

Lemma loss_func_sym (a b : list Qc) lt red :
  spectral.loss_func a b lt red = spectral.loss_func b a lt red.
Proof.
  destruct (distance_of lt) as [d|] eqn:Ed.
  - rewrite !loss_func_supported with (d := d) by exact Ed.
    f_equal. apply mean_distance_sym.
  - unfold distance_of in Ed. unfold spectral.loss_func.
    destruct (String.eqb lt "L1"); [discriminate|].
    destruct (String.eqb lt "MSE"); [discriminate|].
    destruct (String.eqb lt "smooth_L1"); [discriminate|]. reflexivity.
Qed.

Lemma weighted_nonnegative (w : Qc) (a b : list Qc) lt red (loss v : Qc) :
  0 <= loss ->
  (if s_ltb zero w then
     term <- spectral.weighted w (spectral.loss_func a b lt red) ;;
     Ok (s_add loss term)
   else Ok loss) = Ok v ->
  0 <= v.
Proof.
  intros Hloss. destruct (s_ltb zero w) eqn:Ew.
  - destruct (spectral.loss_func a b lt red) as [d|] eqn:Ed; [|discriminate].
    cbn [bind spectral.weighted]. intros E. inversion E. subst v.
    destruct (loss_func_cases _ _ _ _ Ed) as [dist ->].
    rewrite <- (Qcplus_0_l 0). apply Qcplus_le_compat; [exact Hloss|].
    apply Qcmult_nonnegative; [|apply mean_distance_nonnegative].
    apply Qclt_le_weak, Qcltb_true. exact Ew.
  - intros E. inversion E. subst v. exact Hloss.
Qed.

(** The loop of lines 202-207 never lowers a loss that is not negative. *)
Lemma accumulate_nonnegative (self : spectral.SpectralLoss) target_specs lt red :
  forall specs i loss v,
    0 <= loss ->
    accumulate self target_specs lt red i specs loss = Ok v -> 0 <= v.
Proof.
  induction specs as [|spec rest IH]; intros i loss v Hloss.
  - intros E. inversion E. subst v. exact Hloss.
  - cbn [spectral.accumulate].
    destruct (nth_error target_specs i) as [tspec|]; [|discriminate].
    match goal with |- bind ?c1 _ = _ -> _ => destruct c1 as [l1|] eqn:E1 end;
      [|discriminate].
    apply weighted_nonnegative in E1; [|exact Hloss].
    cbn [bind].
    match goal with |- bind ?c2 _ = _ -> _ => destruct c2 as [l2|] eqn:E2 end;
      [|discriminate].
    apply weighted_nonnegative in E2; [|exact E1].
    cbn [bind]. apply IH. exact E2.
Qed.

(** X9. With the loudness term off, as it is by default, the loss that
    [forward] returns is never negative in exact arithmetic, whatever the
    signs of [mag_w] and [log_mag_w]: a weight that is not positive is
    skipped and every distance is a mean of non-negative values. The
    spectrograms hold at least one element (the mean over an empty tensor is
    0/0). *)
Theorem forward_never_negative (self : spectral.SpectralLoss)
    (input_audio target_audio : tensor2 Qc) (loss_type reduction : string)
    (specs target_specs : list (tensor3 Qc)) (v : Qc) :
  s_ltb zero (spectral.loud_w self) = false ->
  MultiscaleFFT input_audio (spectral.fft_sizes self) (spectral.overlap self)
  = Ok specs ->
  MultiscaleFFT target_audio (spectral.fft_sizes self) (spectral.overlap self)
  = Ok target_specs ->
  Forall (fun spec => flatten3 spec <> []) specs ->
  Forall (fun spec => flatten3 spec <> []) target_specs ->
  forward self input_audio target_audio loss_type reduction = Ok v ->
  0 <= v.
Proof.
  intros Hd Hs Ht _ _. unfold spectral.forward. rewrite Hs, Ht. cbn [bind].
  destruct (accumulate self target_specs loss_type reduction 0 specs zero)
    as [l|] eqn:Ea; [|discriminate].
  cbn [bind]. rewrite Hd. intros E. inversion E. subst v.
  eapply accumulate_nonnegative; [|exact Ea]. apply Qcle_refl.
Qed.

(** The loop gives the same result when the two lists of spectrograms change
    places. *)
Lemma accumulate_swap (self : spectral.SpectralLoss) lt red specs0 tspecs0 :
  forall specs tspecs i loss,
    length specs = length tspecs ->
    skipn i specs0 = specs -> skipn i tspecs0 = tspecs ->
    accumulate self tspecs0 lt red i specs loss
    = accumulate self specs0 lt red i tspecs loss.
Proof.
  induction specs as [|spec rest IH]; intros [|tspec trest] i loss Hlen Hs Ht;
    try discriminate; [reflexivity|].
  cbn [spectral.accumulate].
  destruct (skipn_cons_inv _ _ Hs) as [Es Hs'].
  destruct (skipn_cons_inv _ _ Ht) as [Et Ht'].
  rewrite Es, Et.
  rewrite (loss_func_sym (flatten3 spec) (flatten3 tspec)).
  rewrite (loss_func_sym (map (spectral.log_eps log eps) (flatten3 spec))
                         (map (spectral.log_eps log eps) (flatten3 tspec))).
  match goal with |- bind ?c1 _ = _ => destruct c1 as [l1|]; [|reflexivity] end.
  cbn [bind].
  match goal with |- bind ?c2 _ = _ => destruct c2 as [l2|]; [|reflexivity] end.
  cbn [bind]. apply IH; [simpl in Hlen; lia | exact Hs' | exact Ht'].
Qed.

(** X10. The loss is symmetric in exact arithmetic: when [forward] returns a
    value for an input and a target, it returns the same value with the two
    exchanged, for every loss type and every setting of the weights. *)
Theorem forward_symmetric (self : spectral.SpectralLoss)
    (input_audio target_audio : tensor2 Qc) (loss_type reduction : string)
    (v : Qc) :
  forward self input_audio target_audio loss_type reduction = Ok v ->
  forward self target_audio input_audio loss_type reduction = Ok v.
Proof.
  unfold spectral.forward.
  destruct (MultiscaleFFT input_audio _ _) as [specs|] eqn:Es; [|discriminate].
  destruct (MultiscaleFFT target_audio _ _) as [tspecs|] eqn:Et; [|discriminate].
  cbn [bind].
  rewrite (@accumulate_swap self loss_type reduction specs tspecs specs tspecs 0 zero);
    [ | rewrite (mapM_length _ _ Es), (mapM_length _ _ Et); reflexivity
      | reflexivity | reflexivity ].
  destruct (accumulate self specs loss_type reduction 0 tspecs zero) as [l|];
    [|discriminate].
  cbn [bind]. destruct (s_ltb zero (spectral.loud_w self)); [|trivial].
  destruct (compute_loudness_default input_audio _) as [input_l|];
    [|discriminate].
  cbn [bind].
  destruct (compute_loudness_default target_audio _) as [target_l|];
    [|discriminate].
  cbn [bind]. rewrite loss_func_sym. trivial.
Qed.

(** X11. [loudness_loss] in exact arithmetic: it is 0 for a signal against
    itself when the loudness curve has at least one frame, and it is
    symmetric, the value returned for two signals being returned for them
    exchanged. *)
Theorem loudness_loss_identity_symmetry
    (input_audio target_audio : tensor2 Qc) (sr : Z) :
  (forall curve,
     compute_loudness_default input_audio sr = Ok curve ->
     spectral.elements curve <> [] ->
     loudness_loss input_audio input_audio sr = Ok 0) /\
  (forall v,
     loudness_loss input_audio target_audio sr = Ok v ->
     loudness_loss target_audio input_audio sr = Ok v).
Proof.
  unfold spectral.loudness_loss. split.
  - intros curve E _. rewrite E. cbn [bind]. f_equal.
    apply (mean_distance_self Absolute).
  - intros v.
    destruct (compute_loudness_default input_audio sr) as [input_l|];
      [|discriminate].
    destruct (compute_loudness_default target_audio sr) as [target_l|];
      [|discriminate].
    cbn [bind]. intros E. rewrite <- E. f_equal.
    apply (mean_distance_sym Absolute).
Qed.

End RationalDistance.

(** ** compute_loudness: floor, single examples, frame rate *)

Lemma Forall_firstn {A : Type} (P : A -> Prop) (n : nat) (l : list A) :
  Forall P l -> Forall P (firstn n l).
Proof.
  intros Hl. revert n. induction Hl as [|x l Hx _ IH]; intros [|n]; simpl;
    constructor; [exact Hx | apply IH].
Qed.

Lemma Forall_repeat {A : Type} (P : A -> Prop) (x : A) (n : nat) :
  P x -> Forall P (repeat x n).
Proof. intros Hx. induction n; simpl; constructor; assumption. Qed.

Lemma pad_or_trim_Forall {T : Type} `{Scalar T} (P : T -> Prop) (x : list T)
    (n : nat) (pad : T) :
  Forall P x -> P pad -> Forall P (util.pad_or_trim_to_expected_length x n pad).
Proof.
  intros Hx Hp. unfold util.pad_or_trim_to_expected_length.
  apply Forall_app. split; [apply Forall_firstn | apply Forall_repeat]; assumption.
Qed.

Lemma Forall_nth_default {A : Type} (P : A -> Prop) (l : list A) (j : nat) (d : A) :
  Forall P l -> P d -> P (nth j l d).
Proof.
  intros Hl Hd. revert j. induction Hl as [|x l Hx _ IH]; intros [|j]; simpl;
    auto.
Qed.

Section LoudnessFloor.

Local Open Scope Qc_scope.

Variable stft : tensor2 Qc -> Z -> option (list Qc) -> Z -> bool -> tensor3 (Qc * Qc).
Variable sqrt log10 : Qc -> Qc.
Variable A_weighting : Z -> Z -> list Qc.

Local Abbreviation compute_loudness :=
  (spectral.compute_loudness stft sqrt log10 A_weighting).

Lemma clamp_min_floor (m x : Qc) : m <= clamp_min m x.
Proof.
  unfold clamp_min. cbn [s_ltb Qc_Scalar]. destruct (Qcltb x m) eqn:E.
  - apply Qcle_refl.
  - apply Qcltb_false. exact E.
Qed.

(** Line 122 leaves no bin below the floor. *)
Lemma weighted_loudness_floor (a_weighting : list Qc) (range_db ref_db : Qc)
    (s : tensor3 (Qc * Qc)) :
  Forall (Forall (Forall (fun x => - range_db <= x)))
         (spectral.weighted_loudness sqrt log10 a_weighting range_db ref_db s).
Proof.
  unfold spectral.weighted_loudness.
  rewrite Forall_map. apply Forall_forall. intros m _.
  rewrite Forall_map. apply Forall_forall. intros row _.
  rewrite Forall_map. apply Forall_forall. intros x _.
  apply clamp_min_floor.
Qed.

(** Line 125 on one batch element: the mean of each frame is at least what
    each of its bins is at least. *)
Lemma frame_means_floor (c : Qc) (m : list (list Qc)) :
  c <= 0 -> Forall (Forall (fun x => c <= x)) m ->
  Forall (fun x => c <= x) (map tmean (transpose m)).
Proof.
  intros Hc Hm. rewrite Forall_map. apply Forall_forall. intros col Hcol.
  destruct m as [|r rest]; [destruct Hcol|].
  unfold transpose in Hcol. apply in_map_iff in Hcol. destruct Hcol as [j [<- _]].
  apply tmean_lower_bound; [discriminate|].
  rewrite Forall_map. eapply Forall_impl; [|exact Hm].
  intros row Hrow. apply Forall_nth_default; assumption.
Qed.

(** X12. No value of a loudness curve is below the floor [-range_db], in
    exact arithmetic and for a dynamic range that is not negative: every
    bin is clamped at the floor before the bins of a frame are averaged, and
    the frames that the padding adds hold the floor itself. *)
Theorem compute_loudness_floor (audio : tensor Qc)
    (sample_rate frame_rate n_fft : Z) (range_db ref_db : Qc)
    (loudness : tensor Qc) :
  0 <= range_db ->
  compute_loudness audio sample_rate frame_rate n_fft range_db ref_db
  = Ok loudness ->
  Forall (fun x => - range_db <= x) (spectral.elements loudness).
Proof.
  intros Hr. assert (Hc : - range_db <= 0).
  { apply Qcopp_le_compat in Hr. exact Hr. }
  unfold spectral.compute_loudness.
  match goal with |- bind ?c _ = _ -> _ => destruct c as [batch|] end;
    [|discriminate].
  cbn [bind].
  destruct (PyFloat.floordiv sample_rate frame_rate) as [hop|]; [|discriminate].
  cbn [bind].
  destruct (spectral.expected_len _ sample_rate frame_rate) as [e|];
    [|discriminate].
  cbn [bind].
  pose proof (weighted_loudness_floor (A_weighting sample_rate n_fft) range_db
                ref_db (stft batch n_fft None hop true)) as Hw.
  revert Hw.
  generalize (spectral.weighted_loudness sqrt log10 (A_weighting sample_rate n_fft)
                range_db ref_db (stft batch n_fft None hop true)).
  intros w Hw.
  assert (Hcurves :
            Forall (fun curve => Forall (fun x => - range_db <= x)
                       (util.pad_or_trim_to_expected_length curve (Z.to_nat e)
                          (s_opp range_db)))
                   (map (fun m => map tmean (transpose m)) w)).
  { rewrite Forall_map. eapply Forall_impl; [|exact Hw].
    intros m Hm. apply pad_or_trim_Forall; [|apply Qcle_refl].
    apply frame_means_floor; assumption. }
  destruct (Nat.eqb (ndim audio) 1).
  - destruct w as [|m w']; [discriminate|].
    intros E. inversion E. subst loudness. cbn [spectral.elements].
    inversion Hcurves. assumption.
  - intros E. inversion E. subst loudness. cbn [spectral.elements].
    unfold flatten2. apply Forall_concat. rewrite Forall_map. exact Hcurves.
Qed.

End LoudnessFloor.

Section LoudnessRanks.

Context {T : Type} `{Scalar T}.
Variable stft : tensor2 T -> Z -> option (list T) -> Z -> bool -> tensor3 (T * T).
Variable sqrt log10 : T -> T.
Variable A_weighting : Z -> Z -> list T.
Variable crepe_predict : list T -> Z -> bool -> float -> list T.
Variable float32 : T -> T.

Local Abbreviation compute_loudness :=
  (spectral.compute_loudness stft sqrt log10 A_weighting).
Local Abbreviation compute_f0 := (spectral.compute_f0 crepe_predict float32).

(** X13. The loudness curve of a single example is the curve that
    [compute_loudness] returns for the batch that holds only that example:
    lines 101-103 add the batch axis and line 128 removes it. *)
Theorem compute_loudness_single_example (audio : tensor1 T)
    (sample_rate frame_rate n_fft : Z) (range_db ref_db : T)
    (curve : tensor1 T) (rest : tensor2 T) :
  compute_loudness (Rank2 [audio]) sample_rate frame_rate n_fft range_db ref_db
  = Ok (Rank2 (curve :: rest)) ->
  compute_loudness (Rank1 audio) sample_rate frame_rate n_fft range_db ref_db
  = Ok (Rank1 curve).
Proof.
  unfold spectral.compute_loudness. cbn [bind ndim Nat.eqb].
  destruct (PyFloat.floordiv sample_rate frame_rate) as [hop|]; [|discriminate].
  cbn [bind spectral.n_audio_samples].
  destruct (spectral.expected_len _ sample_rate frame_rate) as [e|];
    [|discriminate].
  cbn [bind].
  match goal with |- context [map (fun m => map tmean (transpose m)) ?w] =>
    destruct (map (fun m => map tmean (transpose m)) w) as [|l0 ls] end;
    [discriminate|].
  cbn [map]. intros E. inversion E. reflexivity.
Qed.

(** X14. A frame rate of 0 makes [compute_loudness] raise ZeroDivisionError
    at line 106, for a single example and for a batch, before the STFT is
    taken. *)
Theorem compute_loudness_zero_frame_rate (audio : tensor T)
    (sample_rate n_fft : Z) (range_db ref_db : T) :
  ndim audio <> 3 ->
  compute_loudness audio sample_rate 0 n_fft range_db ref_db
  = Raise ZeroDivisionError.
Proof.
  intros Hr. unfold spectral.compute_loudness.
  destruct audio; [reflexivity | reflexivity | simpl in Hr; congruence].
Qed.

(** X15. [compute_f0] raises ZeroDivisionError when the sample rate or the
    frame rate is 0, at line 152 or at line 153: CREPE is not run. *)
Theorem compute_f0_zero_rate (audio : list T) (sample_rate frame_rate : Z)
    (viterbi : bool) :
  sample_rate = 0%Z \/ frame_rate = 0%Z ->
  compute_f0 audio sample_rate frame_rate viterbi = Raise ZeroDivisionError.
Proof.
  intros Hz. unfold spectral.compute_f0, PyFloat.truediv.
  destruct (PrimFloat.is_zero (PyFloat.of_Z sample_rate)) eqn:Es; [reflexivity|].
  destruct Hz as [-> | ->]; [discriminate Es | reflexivity].
Qed.

Lemma compute_f0_length (audio : list T) (sample_rate frame_rate : Z)
    (viterbi : bool) (f0_hz : list T) :
  compute_f0 audio sample_rate frame_rate viterbi = Ok f0_hz ->
  exists e,
    spectral.expected_len (Z.of_nat (length audio)) sample_rate frame_rate = Ok e /\
    length f0_hz = Z.to_nat e.
Proof.
  unfold spectral.compute_f0, spectral.expected_len.
  destruct (PyFloat.truediv (PyFloat.of_Z (Z.of_nat (length audio))) _) as [n_secs|];
    [|discriminate].
  cbn [bind].
  destruct (PyFloat.truediv (PyFloat.of_Z 1000) _) as [step|]; [|discriminate].
  cbn [bind].
  destruct (PyFloat.int _) as [e|]; [|discriminate].
  cbn [bind]. intros E. inversion E. exists e. split; [reflexivity|].
  rewrite length_map. apply pad_or_trim_length.
Qed.

Lemma compute_loudness_single_length (audio : tensor1 T)
    (sample_rate frame_rate n_fft : Z) (range_db ref_db : T) (curve : tensor1 T) :
  compute_loudness (Rank1 audio) sample_rate frame_rate n_fft range_db ref_db
  = Ok (Rank1 curve) ->
  exists e,
    spectral.expected_len (Z.of_nat (length audio)) sample_rate frame_rate = Ok e /\
    length curve = Z.to_nat e.
Proof.
  unfold spectral.compute_loudness. cbn [bind ndim Nat.eqb].
  destruct (PyFloat.floordiv sample_rate frame_rate) as [hop|]; [|discriminate].
  cbn [bind spectral.n_audio_samples].
  destruct (spectral.expected_len _ sample_rate frame_rate) as [e|];
    [|discriminate].
  cbn [bind].
  match goal with |- context [map (fun m => map tmean (transpose m)) ?w] =>
    destruct (map (fun m => map tmean (transpose m)) w) as [|l0 ls] end;
    [discriminate|].
  intros E. inversion E. exists e. split; [reflexivity|].
  apply pad_or_trim_length.
Qed.

(** X16. The two feature tracks of one example are aligned: for the same
    audio, sample rate and frame rate, the f0 track of [compute_f0] and the
    loudness curve of [compute_loudness] have the same number of frames,
    [int(audio_length / sample_rate * frame_rate)], whatever the number of
    frames that CREPE and the STFT produce
    ([util.pad_or_trim_to_expected_length] as the specification describes
    it). *)
Theorem f0_and_loudness_aligned (audio : list T) (sample_rate frame_rate n_fft : Z)
    (viterbi : bool) (range_db ref_db : T) (f0_hz curve : list T) :
  compute_f0 audio sample_rate frame_rate viterbi = Ok f0_hz ->
  compute_loudness (Rank1 audio) sample_rate frame_rate n_fft range_db ref_db
  = Ok (Rank1 curve) ->
  length f0_hz = length curve /\
  exists e,
    spectral.expected_len (Z.of_nat (length audio)) sample_rate frame_rate = Ok e /\
    length f0_hz = Z.to_nat e.
Proof.
  intros Hf Hl.
  destruct (compute_f0_length _ _ _ _ Hf) as [e [He Hlen]].
  destruct (compute_loudness_single_length _ _ _ _ _ _ Hl) as [e' [He' Hlen']].
  rewrite He in He'. inversion He'. subst e'.
  split; [congruence|]. exists e. split; assumption.
Qed.

End LoudnessRanks.

(** ** MultiscaleFFT: hop lengths and spectrogram values *)

Lemma all_below_spec (k : nat) (P : Z -> bool) :
  forall base z,
    all_below k P base = true ->
    (base <= z < base + 2 ^ Z.of_nat k)%Z -> P z = true.
Proof.
  induction k as [|k IH]; intros base z Hall Hz.
  - simpl in *. replace z with base by lia. exact Hall.
  - cbn [all_below] in Hall. apply andb_true_iff in Hall. destruct Hall as [H1 H2].
    rewrite Nat2Z.inj_succ, Z.pow_succ_r in Hz by lia.
    destruct (Z_lt_le_dec z (base + 2 ^ Z.of_nat k)) as [Hlt|Hge].
    + apply (IH base); [exact H1 | lia].
    + apply (IH (base + 2 ^ Z.of_nat k)%Z); [exact H2 | lia].
Qed.

Lemma quarter_hop_by_evaluation : all_below 16 quarter_hop 0 = true.
Proof. vm_compute. reflexivity. Qed.

(** X17. With the default overlap of 0.75, the hop length
    [int((1-overlap)*size)] of line 82 is a quarter of the FFT size, rounded
    down, for every size from 0 up to 65535: consecutive windows share three
    quarters of their samples. *)
Theorem hop_length_default_overlap (size : Z) :
  (0 <= size < 65536)%Z ->
  spectral.hop_length 0.75%float size = Ok (size / 4)%Z.
Proof.
  intros Hs.
  pose proof (@all_below_spec 16 quarter_hop 0 size quarter_hop_by_evaluation Hs)
    as Hq.
  unfold quarter_hop in Hq.
  destruct (spectral.hop_length 0.75%float size) as [hop|]; [|discriminate].
  apply Z.eqb_eq in Hq. rewrite Hq. reflexivity.
Qed.

Lemma sub_nan_r (a x : float) :
  PrimFloat.is_nan x = true -> PrimFloat.is_nan (PrimFloat.sub a x) = true.
Proof.
  intros Hx. apply is_nan_of_Prim2SF.
  rewrite FloatAxioms.sub_spec, (Prim2SF_of_is_nan _ Hx).
  destruct (Prim2SF a); reflexivity.
Qed.

Lemma mul_nan_l (a x : float) :
  PrimFloat.is_nan a = true -> PrimFloat.is_nan (PrimFloat.mul a x) = true.
Proof.
  intros Ha. apply is_nan_of_Prim2SF.
  rewrite FloatAxioms.mul_spec, (Prim2SF_of_is_nan _ Ha). reflexivity.
Qed.

Lemma hop_length_nan (overlap : float) (size : Z) :
  PrimFloat.is_nan overlap = true ->
  spectral.hop_length overlap size = Raise ValueError.
Proof.
  intros Hn. unfold spectral.hop_length, PyFloat.int.
  rewrite mul_nan_l by (apply sub_nan_r; exact Hn). reflexivity.
Qed.

Lemma mapM_Forall2 {A B : Type} (f : A -> result B) (l : list A) (r : list B) :
  mapM f l = Ok r -> Forall2 (fun a b => f a = Ok b) l r.
Proof.
  revert r. induction l as [|a l IH]; intros r; simpl.
  - intros E. inversion E. constructor.
  - destruct (f a) as [b|e] eqn:Ea; simpl; [|discriminate].
    destruct (mapM f l) as [bs|e]; simpl; [|discriminate].
    intros E. inversion E. constructor; [exact Ea | apply IH; reflexivity].
Qed.

Section MultiscaleFacts.

Context {T : Type} `{Scalar T}.
Variable stft : tensor2 T -> Z -> option (list T) -> Z -> bool -> tensor3 (T * T).
Variable hann_window : Z -> list T.
Variable log sqrt log10 : T -> T.
Variable eps : T.
Variable A_weighting : Z -> Z -> list T.

(** X18. An overlap that is NaN makes [MultiscaleFFT] raise ValueError at
    the first FFT size, on [int((1-overlap)*size)], and [forward] with
    it; with no FFT size nothing is computed and the list of spectrograms
    is empty. The sizes are not negative, so that the window of line 81 is
    defined. *)
Theorem MultiscaleFFT_nan_overlap (audio : tensor2 T) (sizes : list Z)
    (overlap : float) :
  PrimFloat.is_nan overlap = true ->
  Forall (fun size => (0 <= size)%Z) sizes ->
  (sizes <> [] ->
   spectral.MultiscaleFFT stft hann_window audio sizes overlap = Raise ValueError) /\
  (forall (self : spectral.SpectralLoss) target_audio loss_type reduction,
     spectral.overlap self = overlap -> spectral.fft_sizes self = sizes ->
     sizes <> [] ->
     spectral.forward stft hann_window log sqrt log10 eps A_weighting
                      self audio target_audio loss_type reduction
     = Raise ValueError) /\
  spectral.MultiscaleFFT stft hann_window audio [] overlap = Ok [].
Proof.
  intros Hn _.
  assert (Hm : sizes <> [] ->
               spectral.MultiscaleFFT stft hann_window audio sizes overlap
               = Raise ValueError).
  { intros Hne. destruct sizes as [|size rest]; [congruence|].
    unfold spectral.MultiscaleFFT. cbn [mapM].
    rewrite hop_length_nan by exact Hn. reflexivity. }
  split; [exact Hm|]. split; [|reflexivity].
  intros self target_audio lt red Ho Hs Hne.
  unfold spectral.forward. rewrite Ho, Hs, (Hm Hne). reflexivity.
Qed.

End MultiscaleFacts.

Section RationalSpectrograms.

Local Open Scope Qc_scope.

Variable stft : tensor2 Qc -> Z -> option (list Qc) -> Z -> bool -> tensor3 (Qc * Qc).
Variable hann_window : Z -> list Qc.

Lemma amp_nonnegative (c : Qc * Qc) : 0 <= spectral.amp c.
Proof.
  unfold spectral.amp. cbn [s_add s_mul Qc_Scalar].
  rewrite <- (Qcplus_0_l 0). apply Qcplus_le_compat; apply Qcsquare_nonnegative.
Qed.

(** X19. In exact arithmetic no value of a spectrogram of [MultiscaleFFT]
    is negative: each is the sum of the squares of the two parts of an STFT
    coefficient, so the logarithm of line 207 is taken of values that are at
    least [eps]. *)
Theorem MultiscaleFFT_nonnegative (audio : tensor2 Qc) (sizes : list Z)
    (overlap : float) (specs : list (tensor3 Qc)) :
  spectral.MultiscaleFFT stft hann_window audio sizes overlap = Ok specs ->
  length specs = length sizes /\
  Forall (fun spec => Forall (fun x => 0 <= x) (flatten3 spec)) specs.
Proof.
  intros E. split; [exact (mapM_length _ _ E)|].
  apply mapM_Forall2 in E.
  induction E as [|size spec sizes specs Hspec _ IH]; constructor; [|exact IH].
  destruct (spectral.hop_length overlap size) as [hop|]; [|discriminate].
  cbn [bind] in Hspec. injection Hspec as <-.
  unfold flatten3. apply Forall_concat. rewrite !Forall_map.
  apply Forall_forall. intros m _.
  apply Forall_concat. rewrite Forall_map.
  apply Forall_forall. intros row _.
  rewrite Forall_map. apply Forall_forall. intros c _.
  apply amp_nonnegative.
Qed.

End RationalSpectrograms.

(** ** Generators *)

Section GeneratorErrors.

Context {T : Type} `{Scalar T} `{Synth T}.

(** X20. [Additive.forward] raises IndexError for an [f0_hz] of rank 1,
    whatever the other arguments: line 36 sends every tensor of fewer than
    three axes to line 37, which indexes three axes. *)
Theorem additive_rank1_f0 (self : Additive.t)
    (amplitudes harmonic_distribution : tensor3 T) (f0_hz : tensor T)
    (n_samples : option nat) :
  ndim f0_hz = 1 ->
  Additive.forward self amplitudes harmonic_distribution f0_hz n_samples
  = Raise IndexError.
Proof.
  intros Hr. unfold Additive.forward.
  destruct f0_hz as [x|x|x]; [reflexivity | discriminate Hr | discriminate Hr].
Qed.

End GeneratorErrors.

Section RationalGenerators.

Local Open Scope Qc_scope.

Context `{Synth Qc}.

Lemma tsum_scaled_l (c : Qc) (l : list Qc) :
  tsum (map (Qcmult c) l) = c * tsum l.
Proof.
  induction l as [|x l IH]; simpl.
  - rewrite tsum_nil. ring.
  - rewrite !tsum_cons, IH. ring.
Qed.

Lemma normalize_frame_scaled (c : Qc) (frame : list Qc) :
  c <> 0 ->
  Additive.normalize_frame (map (Qcmult c) frame) = Additive.normalize_frame frame.
Proof.
  intros Hc. unfold Additive.normalize_frame.
  rewrite map_map, tsum_scaled_l. apply map_ext. intros x.
  cbn [s_div Qc_Scalar]. unfold Qcdiv.
  rewrite Qcinv_mult_distr.
  replace (c * x * (/ c * / tsum frame)) with (c * / c * (x * / tsum frame)) by ring.
  rewrite Qcmult_inv_r by exact Hc. ring.
Qed.


Variable uniform : nat -> Qc.

(** X22. The excitation of [FilteredNoise] is uniform noise within the
    amplitude: when [torch.rand] draws from [0, 1) and the amplitude is not
    negative, [forward] filters a batch of one row per row of
    [freq_response], each of [n_samples] values that lie between
    [-amplitude] and [amplitude]. *)
Theorem filtered_noise_excitation (self : FilteredNoise.t)
    (freq_response : tensor3 Qc) (n : nat) :
  (forall k, 0 <= uniform k /\ uniform k < 1) ->
  0 <= FilteredNoise.amplitude self ->
  let audio := FilteredNoise.noise uniform self (length freq_response) n in
  FilteredNoise.forward uniform self freq_response (Some n)
  = fir_filter audio
      (match FilteredNoise.scale_fn self with
       | Some f => f (map (map (map (fun x => x + FilteredNoise.initial_bias self)))
                          freq_response)
       | None => freq_response
       end)
      (FilteredNoise.filter_size self) /\
  length audio = length freq_response /\
  audio_length n audio /\
  Forall (Forall (fun x => - FilteredNoise.amplitude self <= x /\
                           x <= FilteredNoise.amplitude self)) audio.
Proof.
  intros Hu Ha audio. split; [reflexivity|]. split; [|split].
  - unfold audio, FilteredNoise.noise, FilteredNoise.rand.
    rewrite !length_map, length_seq. reflexivity.
  - unfold audio, FilteredNoise.noise, audio_length. rewrite Forall_map.
    eapply Forall_impl; [|apply rand_length].
    intros row Hrow. rewrite length_map. exact Hrow.
  - unfold audio, FilteredNoise.noise, FilteredNoise.rand.
    rewrite Forall_map, Forall_map. apply Forall_forall. intros b _.
    rewrite Forall_map, Forall_map. apply Forall_forall. intros i _.
    destruct (Hu (b * n + i)%nat) as [H0 H1].
    generalize dependent (uniform (b * n + i)%nat). intros u H0 H1.
    cbn [s_mul s_sub s_of_Z Qc_Scalar].
    set (a := FilteredNoise.amplitude self) in *.
    change (@one Qc Qc_Scalar) with 1. change (Q2Qc (inject_Z 2)) with (1 + 1).
    split.
    + replace (- a) with ((- (1)) * a) by ring.
      apply Qcmult_le_compat_r; [|exact Ha].
      apply Qcle_minus_iff.
      replace (u * (1 + 1) - 1 + - - (1)) with (u + u) by ring.
      rewrite <- (Qcplus_0_l 0). apply Qcplus_le_compat; exact H0.
    + rewrite <- (Qcmult_1_l a) at 2.
      apply Qcmult_le_compat_r; [|exact Ha].
      apply Qcle_minus_iff.
      replace (1 + - (u * (1 + 1) - 1)) with ((1 + - u) + (1 + - u)) by ring.
      apply Qclt_minus_iff in H1. apply Qclt_le_weak in H1.
      rewrite <- (Qcplus_0_l 0). apply Qcplus_le_compat; exact H1.
Qed.

End RationalGenerators.

Section SpectrogramFacts.

Context {T : Type} `{Scalar T}.
Variable stft : tensor2 T -> Z -> option (list T) -> Z -> bool -> tensor3 (T * T).
Variable hann_window : Z -> list T.
Variable sqrt : T -> T.

(** X23. [MultiscaleFFT] returns, for every FFT size and in their order,
    the power spectrogram that [spectrogram] returns for that size with
    [power=2], [center=False], the Hann window of the size and the hop
    length [int((1-overlap)*size)]. *)
Theorem MultiscaleFFT_spectrograms (audio : tensor2 T) (sizes : list Z)
    (overlap : float) (specs : list (tensor3 T)) :
  spectral.MultiscaleFFT stft hann_window audio sizes overlap = Ok specs ->
  Forall2 (fun size spec =>
             exists hop,
               spectral.hop_length overlap size = Ok hop /\
               spectral.spectrogram stft sqrt audio size hop 2 false
                                    (Some (hann_window size))
               = Returns spec)
          sizes specs.
Proof.
  intros E. apply mapM_Forall2 in E.
  induction E as [|size spec sizes specs Hspec _ IH]; constructor; [|exact IH].
  destruct (spectral.hop_length overlap size) as [hop|]; [|discriminate].
  cbn [bind] in Hspec. injection Hspec as <-.
  exists hop. split; reflexivity.
Qed.

End SpectrogramFacts.

(** ** The properties on concrete inputs *)

Lemma pad_end_completes_last_frame_witness :
  exists pad : nat,
    MelSpec.pad_audio Examples.melspec_default Examples.audio_3000
    = Ok (map (fun row => row ++ repeat zero pad) Examples.audio_3000) /\
    audio_length (3000 + pad)
      (map (fun row => row ++ repeat zero pad) Examples.audio_3000) /\
    (Z.of_nat pad < 1024)%Z /\
    ((Z.of_nat (3000 + pad) - 2048) mod 1024 = 0)%Z /\
    forall p : nat, ((Z.of_nat (3000 + p) - 2048) mod 1024 = 0)%Z -> pad <= p.
Proof.
  apply (@pad_end_completes_last_frame Qc _ Examples.melspec_default
           Examples.audio_3000 3000).
  - reflexivity.
  - reflexivity.
  - discriminate.
  - constructor; [apply repeat_length | constructor].
Defined.

Lemma pad_end_idempotent_witness :
  MelSpec.pad_audio Examples.melspec_default
    (map (fun row => row ++ repeat zero 72) Examples.audio_3000)
  = Ok (map (fun row => row ++ repeat zero 72) Examples.audio_3000).
Proof.
  apply (@pad_end_idempotent Qc _ Examples.melspec_default Examples.audio_3000
           (map (fun row => row ++ repeat zero 72) Examples.audio_3000) 3000).
  - reflexivity.
  - reflexivity.
  - discriminate.
  - constructor; [apply repeat_length | constructor].
  - reflexivity.
Defined.

Lemma melspec_zero_hop_length_witness :
  MelSpec.forward Examples.frame_stft (fun x => x) Examples.first_bands
    Examples.melspec_zero_hop Examples.audio_3000
  = Fails (Exception ZeroDivisionError).
Proof.
  apply (@melspec_zero_hop_length Qc _ Examples.frame_stft (fun x => x)
           Examples.first_bands Examples.melspec_zero_hop Examples.audio_3000);
    reflexivity.
Defined.

Lemma rectangular_by_evaluation {A : Type} (n : nat) (x : list (list (list A))) :
  forallb (fun m => Nat.eqb (length m) n &&
                    forallb (fun row => Nat.eqb (length row) (n_frames m)) m) x
  = true ->
  forall m, In m x ->
    length m = n /\ forall row, In row m -> length row = n_frames m.
Proof.
  intros E m Hm. rewrite forallb_forall in E. specialize (E m Hm).
  apply andb_true_iff in E. destruct E as [En Er]. split.
  - apply Nat.eqb_eq. exact En.
  - intros row Hrow. rewrite forallb_forall in Er. apply Nat.eqb_eq, Er, Hrow.
Qed.

Lemma mfcc_coefficients_witness :
  exists mfcc,
    Mfcc.forward Examples.frame_stft (fun x => x) (fun x => x)
      Examples.first_bands Examples.mfcc_default Examples.audio_3000
    = Returns mfcc /\
    length mfcc = length Examples.mel_3000 /\
    forall b m,
      nth_error Examples.mel_3000 b = Some m ->
      forall k t, k < 40 -> t < n_frames m ->
        at3 mfcc b k t
        = Some (tsum (map2 (fun row d =>
                              s_mul (s_add (nth t row zero) (lit 1 1000000))
                                    (nth k d zero))
                           m (Mfcc.dct_mat Examples.mfcc_default))).
Proof.
  apply (@mfcc_coefficients Qc _ Examples.frame_stft (fun x => x) (fun x => x)
           Examples.first_bands Examples.mfcc_default Examples.audio_3000
           Examples.mel_3000 40).
  - vm_compute. reflexivity.
  - apply rectangular_by_evaluation. vm_compute. reflexivity.
  - intros d Hd. apply repeat_spec in Hd. rewrite Hd. reflexivity.
Defined.

Lemma forward_loudness_term_witness :
  Examples.forward_Qc Examples.loudness_only_loss
    (Examples.constant_audio 1) (Examples.constant_audio 0) "L1" "mean"
  = (l <- spectral.loudness_loss Examples.frame_stft (fun x => x) (fun x => x)
            Examples.flat_weighting (Examples.constant_audio 1)
            (Examples.constant_audio 0) 16000 ;;
     Ok (s_add zero (s_mul 1%Qc l))).
Proof.
  apply (@forward_loudness_term Qc _ Examples.frame_stft Examples.ones_window
           (fun x => x) (fun x => x) (fun x => x) 0%Qc Examples.flat_weighting
           Qc_OrderedScalar Examples.loudness_only_loss
           (Examples.constant_audio 1) (Examples.constant_audio 0) "mean");
    reflexivity.
Defined.

Lemma nonempty_by_evaluation {A : Type} (specs : list (tensor3 A)) :
  forallb (fun spec => negb (Nat.eqb (length (flatten3 spec)) 0)) specs = true ->
  Forall (fun spec => flatten3 spec <> []) specs.
Proof.
  intros E. rewrite forallb_forall in E. apply Forall_forall. intros spec Hin.
  specialize (E spec Hin). intros Hnil. rewrite Hnil in E. discriminate.
Qed.

Lemma forward_never_negative_witness :
  (0 <= Examples.loss_value Examples.two_scale_loss Examples.ramp_256
          Examples.ones_256)%Qc.
Proof.
  apply (@forward_never_negative Examples.frame_stft Examples.ones_window
           (fun x => x) (fun x => x) (fun x => x) 0%Qc Examples.flat_weighting
           Examples.two_scale_loss Examples.ramp_256 Examples.ones_256 "L1" "mean"
           (Examples.spectrograms Examples.two_scale_loss Examples.ramp_256)
           (Examples.spectrograms Examples.two_scale_loss Examples.ones_256)).
  - reflexivity.
  - reflexivity.
  - reflexivity.
  - apply nonempty_by_evaluation. vm_compute. reflexivity.
  - apply nonempty_by_evaluation. vm_compute. reflexivity.
  - vm_compute. reflexivity.
Defined.

Lemma forward_symmetric_witness :
  Examples.forward_Qc Examples.two_scale_loss Examples.ones_256 Examples.ramp_256
                      "L1" "mean"
  = Ok (Examples.loss_value Examples.two_scale_loss Examples.ramp_256
          Examples.ones_256).
Proof.
  apply (@forward_symmetric Examples.frame_stft Examples.ones_window
           (fun x => x) (fun x => x) (fun x => x) 0%Qc Examples.flat_weighting
           Examples.two_scale_loss Examples.ramp_256 Examples.ones_256 "L1" "mean").
  vm_compute. reflexivity.
Defined.

Lemma compute_loudness_floor_witness :
  Forall (fun x => (- s_of_Z 120 <= x)%Qc)
         (flatten2 (Examples.loudness_curves [Examples.ones_640])).
Proof.
  apply (@compute_loudness_floor Examples.frame_stft (fun x => x) (fun x => x)
           Examples.flat_weighting (Rank2 [Examples.ones_640])
           16000 50 64 (s_of_Z 120) (lit 207 10)
           (Rank2 (Examples.loudness_curves [Examples.ones_640]))).
  - discriminate.
  - vm_compute. reflexivity.
Defined.

Lemma compute_loudness_single_example_witness :
  Examples.compute_loudness_64 (Rank1 Examples.ones_640) 16000 50
  = Ok (Rank1 (hd [] (Examples.loudness_curves [Examples.ones_640]))).
Proof.
  apply (@compute_loudness_single_example Qc _ Examples.frame_stft (fun x => x)
           (fun x => x) Examples.flat_weighting Examples.ones_640
           16000 50 64 (s_of_Z 120) (lit 207 10)
           (hd [] (Examples.loudness_curves [Examples.ones_640]))
           (tl (Examples.loudness_curves [Examples.ones_640]))).
  vm_compute. reflexivity.
Defined.

Lemma compute_loudness_zero_frame_rate_witness :
  Examples.compute_loudness_64 (Rank2 [Examples.ones_640]) 16000 0
  = Raise ZeroDivisionError.
Proof.
  apply (@compute_loudness_zero_frame_rate Qc _ Examples.frame_stft (fun x => x)
           (fun x => x) Examples.flat_weighting (Rank2 [Examples.ones_640])
           16000 64 (s_of_Z 120) (lit 207 10)).
  discriminate.
Defined.

Lemma compute_f0_zero_rate_witness :
  Examples.compute_f0_Qc Examples.ones_640 16000 0 true
  = Raise ZeroDivisionError.
Proof.
  apply (@compute_f0_zero_rate Qc _ Examples.constant_track (fun x => x)
           Examples.ones_640 16000 0 true).
  right. reflexivity.
Defined.

Lemma f0_and_loudness_aligned_witness :
  length (match Examples.compute_f0_Qc Examples.ones_640 16000 50 true with
          | Ok f0_hz => f0_hz
          | Raise _ => []
          end)
  = length (hd [] (Examples.loudness_curves [Examples.ones_640])) /\
  exists e,
    spectral.expected_len (Z.of_nat (length Examples.ones_640)) 16000 50 = Ok e /\
    length (match Examples.compute_f0_Qc Examples.ones_640 16000 50 true with
            | Ok f0_hz => f0_hz
            | Raise _ => []
            end) = Z.to_nat e.
Proof.
  apply (@f0_and_loudness_aligned Qc _ Examples.frame_stft (fun x => x)
           (fun x => x) Examples.flat_weighting Examples.constant_track
           (fun x => x) Examples.ones_640 16000 50 64 true
           (s_of_Z 120) (lit 207 10)).
  - vm_compute. reflexivity.
  - vm_compute. reflexivity.
Defined.

Lemma hop_length_default_overlap_witness :
  spectral.hop_length 0.75%float 2048 = Ok 512%Z.
Proof. apply (@hop_length_default_overlap 2048). lia. Defined.

Lemma MultiscaleFFT_nan_overlap_witness :
  spectral.MultiscaleFFT Examples.frame_stft Examples.ones_window
    Examples.ramp_256 [64%Z; 128%Z] nan
  = Raise ValueError.
Proof.
  apply (proj1 (@MultiscaleFFT_nan_overlap Qc _ Examples.frame_stft
                  Examples.ones_window (fun x => x) (fun x => x) (fun x => x)
                  0%Qc Examples.flat_weighting Examples.ramp_256 [64%Z; 128%Z]
                  nan eq_refl ltac:(repeat constructor; discriminate))).
  discriminate.
Defined.

Lemma MultiscaleFFT_nonnegative_witness :
  length (Examples.spectrograms Examples.two_scale_loss Examples.ramp_256) = 2 /\
  Forall (fun spec => Forall (fun x => (0 <= x)%Qc) (flatten3 spec))
         (Examples.spectrograms Examples.two_scale_loss Examples.ramp_256).
Proof.
  apply (@MultiscaleFFT_nonnegative Examples.frame_stft Examples.ones_window
           Examples.ramp_256 [64%Z; 128%Z] 0.75%float).
  reflexivity.
Defined.

Lemma MultiscaleFFT_spectrograms_witness :
  Forall2 (fun size spec =>
             exists hop,
               spectral.hop_length 0.75%float size = Ok hop /\
               spectral.spectrogram Examples.frame_stft (fun x => x)
                 Examples.ramp_256 size hop 2 false (Some (Examples.ones_window size))
               = Returns spec)
          [64%Z; 128%Z]
          (Examples.spectrograms Examples.two_scale_loss Examples.ramp_256).
Proof.
  apply (@MultiscaleFFT_spectrograms Qc _ Examples.frame_stft Examples.ones_window
           (fun x => x) Examples.ramp_256 [64%Z; 128%Z] 0.75%float).
  reflexivity.
Defined.


Lemma filtered_noise_excitation_witness :
  length (FilteredNoise.noise Examples.half_stream Examples.noise_unscaled 1 8) = 1 /\
  audio_length 8 (FilteredNoise.noise Examples.half_stream Examples.noise_unscaled 1 8) /\
  Forall (Forall (fun x => (- s_of_Z 1 <= x)%Qc /\ (x <= s_of_Z 1)%Qc))
         (FilteredNoise.noise Examples.half_stream Examples.noise_unscaled 1 8).
Proof.
  apply (@filtered_noise_excitation Examples.silent_synth Examples.half_stream
           Examples.noise_unscaled Examples.distribution_1_1 8).
  - intros k. split; [discriminate | reflexivity].
  - discriminate.
Defined.

Lemma additive_rank1_f0_witness :
  Additive.forward Examples.additive_unscaled Examples.distribution_1_1
    Examples.distribution_1_1 (Rank1 [s_of_Z 5000]) None
  = Raise IndexError.
Proof.
  apply (@additive_rank1_f0 Qc _ Examples.silent_synth Examples.additive_unscaled
           Examples.distribution_1_1 Examples.distribution_1_1
           (Rank1 [s_of_Z 5000]) None).
  reflexivity.
Defined.
